(** * Netcider: the CIDR calculator of [netcider.py]

    A shallow embedding of class [CIDR] of [src/netcider.py] and the
    properties of its derived fields.  The Python code works on text
    throughout: every method takes and returns dotted-decimal strings and
    converts to integers and back on the way, so the embedding does the
    same.  Python [str] is [string] (ASCII text), Python [int] is [Z],
    a raised exception is the [Raise] branch of [result], and the
    attributes of a [CIDR] object are the optional fields of a record
    that the constructor threads through its assignments.

    What the embedding leaves out: text outside ASCII (so the digits and
    spaces of other scripts that [int] accepts), the limits of the
    machine (a repetition count too large for memory, the cap on the
    number of digits [int] reads), the wording of the message that
    [print(e)] writes, of which only the exception class is kept, and
    the layout of the text that PrettyTable renders, of which only the
    rows are kept. *)

From Stdlib Require Import ZArith List String Ascii Bool Lia.
From Stdlib Require Import DecimalString DecimalZ DecimalPos DecimalN.
From Stdlib Require Import Sorting.Sorted.
Import ListNotations.

Local Open Scope list_scope.
Local Open Scope string_scope.
Local Open Scope Z_scope.

(** ** Exceptions *)

(** The exception classes the methods of [CIDR] can raise. *)
Inductive exn : Type :=
| ValueError      (* str.index without a match, int() on a bad literal *)
| IndexError      (* temp[3] on a list shorter than four *)
| TypeError       (* reduce() of an empty sequence *)
| AttributeError. (* reading an attribute that was never assigned *)

Inductive result (A : Type) : Type :=
| Ok (a : A)
| Raise (e : exn).
Arguments Ok {A} a.
Arguments Raise {A} e.

Definition bind {A B : Type} (r : result A) (k : A -> result B) : result B :=
  match r with
  | Ok a => k a
  | Raise e => Raise e
  end.

Declare Scope result_scope.
Delimit Scope result_scope with result.
Notation "x <- e ;; k" := (bind e (fun x => k))
  (at level 61, e at next level, right associativity) : result_scope.

(** A list comprehension whose body can raise: the first failure wins. *)
Fixpoint mapM {A B : Type} (f : A -> result B) (l : list A) : result (list B) :=
  match l with
  | [] => Ok []
  | x :: t =>
      match f x with
      | Raise e => Raise e
      | Ok y =>
          match mapM f t with
          | Raise e => Raise e
          | Ok ys => Ok (y :: ys)
          end
      end
  end.

(** ** Python text primitives *)

Module Py.

(** [s.index(c)] for a one-character [c]: position of the first
    occurrence, [ValueError] when there is none. *)
Fixpoint index (c : ascii) (s : string) : result nat :=
  match s with
  | EmptyString => Raise ValueError
  | String x r =>
      if Ascii.eqb x c then Ok O
      else match index c r with
           | Ok n => Ok (S n)
           | Raise e => Raise e
           end
  end.

(** [s[:n]] *)
Fixpoint slice_to (n : nat) (s : string) : string :=
  match n, s with
  | O, _ => EmptyString
  | S _, EmptyString => EmptyString
  | S n', String x r => String x (slice_to n' r)
  end.

(** [s[n:]] *)
Fixpoint slice_from (n : nat) (s : string) : string :=
  match n, s with
  | O, _ => s
  | S _, EmptyString => EmptyString
  | S n', String _ r => slice_from n' r
  end.

(** [s.split(c)] for a one-character separator: never the empty list. *)
Fixpoint split (c : ascii) (s : string) : list string :=
  match s with
  | EmptyString => [EmptyString]
  | String x r =>
      if Ascii.eqb x c then EmptyString :: split c r
      else match split c r with
           | h :: t => String x h :: t
           | [] => [String x EmptyString]
           end
  end.

(** [sep.join(l)] *)
Fixpoint join (sep : string) (l : list string) : string :=
  match l with
  | [] => EmptyString
  | [x] => x
  | x :: t => x ++ sep ++ join sep t
  end.

(** [c * k] for a one-character string [c]: empty when [k <= 0]. *)
Definition repeat_char (c : ascii) (k : Z) : string :=
  string_of_list_ascii (List.repeat c (Z.to_nat k)).

(** [str(z)] of an integer: decimal digits, a leading minus sign for
    negative values, no leading zeros. *)
Definition str_int (z : Z) : string :=
  NilZero.string_of_int (Z.to_int z).

(** Python's [str()] is applied by [list_to_string] both to integers and
    to text; on text it is the identity. *)
Class Str (A : Type) := str : A -> string.
#[export] Instance Str_Z : Str Z := str_int.
#[export] Instance Str_string : Str string := fun s => s.

(** The characters [int()] skips around a literal in ASCII text: tab,
    line feed, vertical tab, form feed, carriage return and space. *)
Definition is_space (c : ascii) : bool :=
  let n := N_of_ascii c in
  ((9 <=? n)%N && (n <=? 13)%N) || (n =? 32)%N.

Fixpoint all_space (s : string) : bool :=
  match s with
  | EmptyString => true
  | String c r => is_space c && all_space r
  end.

Fixpoint lstrip (s : string) : string :=
  match s with
  | EmptyString => EmptyString
  | String c r => if is_space c then lstrip r else s
  end.

(** Value of a character as a digit: [0-9], then letters from 10 on. *)
Definition digit_value (c : ascii) : option Z :=
  let n := Z.of_N (N_of_ascii c) in
  if (48 <=? n) && (n <=? 57) then Some (n - 48)
  else if (97 <=? n) && (n <=? 122) then Some (n - 87)
  else if (65 <=? n) && (n <=? 90) then Some (n - 55)
  else None.

Definition digit_in (base : Z) (c : ascii) : option Z :=
  match digit_value c with
  | Some d => if d <? base then Some d else None
  | None => None
  end.

(** The digits after the first one.  [us] tells that the previous
    character was an underscore: two in a row and a trailing one are
    refused.  The first character that is neither a digit nor an
    underscore must start the trailing white space. *)
Fixpoint scan (base : Z) (s : string) (acc : Z) (us : bool) : option Z :=
  match s with
  | EmptyString => if us then None else Some acc
  | String c r =>
      if Ascii.eqb c "_" then
        if us then None else scan base r acc true
      else
        match digit_in base c with
        | Some d => scan base r (acc * base + d) false
        | None => if us then None else if all_space s then Some acc else None
        end
  end.

(** A literal starts with a digit. *)
Definition digits (base : Z) (s : string) : option Z :=
  match s with
  | EmptyString => None
  | String c r =>
      match digit_in base c with
      | Some d => scan base r d false
      | None => None
      end
  end.

(** The sign, returned with the rest of the text. *)
Definition take_sign (s : string) : bool * string :=
  match s with
  | String "+" r => (false, r)
  | String "-" r => (true, r)
  | _ => (false, s)
  end.

(** In base 2 a prefix [0b] or [0B] is skipped, and one underscore after
    it. *)
Definition skip_prefix (base : Z) (s : string) : string :=
  if base =? 2 then
    match s with
    | String "0" (String b r) =>
        if Ascii.eqb b "b" || Ascii.eqb b "B" then
          match r with
          | String "_" r' => r'
          | _ => r
          end
        else s
    | _ => s
    end
  else s.

Definition parse_int (base : Z) (s : string) : option Z :=
  let (neg, r) := take_sign (lstrip s) in
  match digits base (skip_prefix base r) with
  | Some v => Some (if neg then - v else v)
  | None => None
  end.

(** [int(s)] and [int(s, 2)] of a text [s]. *)
Definition int (s : string) : result Z :=
  match parse_int 10 s with
  | Some z => Ok z
  | None => Raise ValueError
  end.

Definition int2 (s : string) : result Z :=
  match parse_int 2 s with
  | Some z => Ok z
  | None => Raise ValueError
  end.

(** Binary digits of a positive number, most significant first. *)
Fixpoint bits (p : positive) (acc : string) : string :=
  match p with
  | xH => String "1" acc
  | xO q => bits q (String "0" acc)
  | xI q => bits q (String "1" acc)
  end.

(** [bin(z)] *)
Definition bin (z : Z) : string :=
  match z with
  | Z0 => "0b0"
  | Zpos p => "0b" ++ bits p EmptyString
  | Zneg p => "-0b" ++ bits p EmptyString
  end.

(** [s.zfill(w)]: zeros on the left up to width [w], after a sign. *)
Definition zfill (w : nat) (s : string) : string :=
  let pad := string_of_list_ascii (List.repeat "0"%char (w - String.length s)) in
  match s with
  | String "+" r => String "+" (pad ++ r)
  | String "-" r => String "-" (pad ++ r)
  | _ => pad ++ s
  end.

(** [range(lo, hi)] as the list of its elements, and [len(range(lo, hi))]. *)
Definition range (lo hi : Z) : list Z :=
  List.map (fun k => lo + Z.of_nat k) (List.seq 0 (Z.to_nat (hi - lo))).

Definition len {A : Type} (l : list A) : Z := Z.of_nat (List.length l).

(** [itertools.product] over the unpacked [ranges]: the tuples in the order of nested
    loops, the first range in the outermost loop. *)
Fixpoint product {A : Type} (ranges : list (list A)) : list (list A) :=
  match ranges with
  | [] => [[]]
  | r :: rs => List.flat_map (fun x => List.map (cons x) (product rs)) r
  end.

(** [zip] over eight references to one iterator of [s], each tuple joined
    back to text: the successive groups of eight characters; an
    incomplete last group is dropped. *)
Fixpoint group8 (s : string) : list string :=
  match s with
  | String c1 (String c2 (String c3 (String c4
      (String c5 (String c6 (String c7 (String c8 r))))))) =>
      String c1 (String c2 (String c3 (String c4
        (String c5 (String c6 (String c7 (String c8 EmptyString)))))))
      :: group8 r
  | _ => []
  end.

(** [reduce(operator.mul, l)] without an initial value. *)
Definition reduce_mul (l : list Z) : result Z :=
  match l with
  | [] => Raise TypeError
  | x :: t => Ok (List.fold_left Z.mul t x)
  end.

(** [l[i] = v] on a list that has index [i]. *)
Fixpoint set_item {A : Type} (i : nat) (v : A) (l : list A) : list A :=
  match i, l with
  | _, [] => []
  | O, _ :: t => v :: t
  | S i', x :: t => x :: set_item i' v t
  end.

End Py.

(** ** The methods of class [CIDR] *)

Import Py.
Local Open Scope result_scope.

(** [list_to_string]: the elements through [str], joined with dots. *)
Definition list_to_string {A : Type} `{Str A} (ipList : list A) : string :=
  join "." (List.map str ipList).

(** [bin_to_address]: each text read as a base-2 literal. *)
Definition bin_to_address (binAddress : list string) : result (list Z) :=
  mapM int2 binAddress.

(** [bin(z)[2:].zfill(8)], the text the code keeps for one octet. *)
Definition bin8 (z : Z) : string := zfill 8 (slice_from 2 (bin z)).

(** [address_to_bin]: the dot-separated parts, each through [int] and
    back to eight binary digits. *)
Definition address_to_bin (address : string) : result (list string) :=
  mapM (fun val => z <- int val ;; Ok (bin8 z)) (split "." address).

(** [calculate_netmask]: the text of as many ones as the prefix length
    says, followed by zeros up to 32 characters, cut into groups of
    eight and read back as numbers. *)
Definition calculate_netmask (mask : string) : result string :=
  ones <- int mask ;;
  zeros <- int mask ;;
  let binMask := repeat_char "1" ones ++ repeat_char "0" (32 - zeros) in
  let maskList := group8 binMask in
  netmask <- bin_to_address maskList ;;
  Ok (list_to_string netmask).

(** [calculate_wildcard]: the same numbers, each taken from 255. *)
Definition calculate_wildcard (mask : string) : result string :=
  ones <- int mask ;;
  zeros <- int mask ;;
  let binMask := repeat_char "1" ones ++ repeat_char "0" (32 - zeros) in
  let maskList := group8 binMask in
  netmask <- bin_to_address maskList ;;
  let wildcard := List.map (fun val => 255 - val) netmask in
  Ok (list_to_string wildcard).

(** [network]: the bitwise AND of the two addresses, octet by octet,
    over as many octets as the shorter one has. *)
Definition network (address netmask : string) : result (list Z) :=
  la <- address_to_bin address ;;
  lb <- address_to_bin netmask ;;
  binNetwork <- mapM (fun ab : string * string =>
                        x <- int2 (fst ab) ;;
                        y <- int2 (snd ab) ;;
                        Ok (bin8 (Z.land x y)))
                     (List.combine la lb) ;;
  bin_to_address binNetwork.

(** [host_min]: the address with its fourth part normalised through
    [int]; nothing is added. *)
Definition host_min (address : string) : result string :=
  let temp := split "." address in
  match List.nth_error temp 3 with
  | None => Raise IndexError
  | Some t =>
      z <- int t ;;
      Ok (list_to_string (set_item 3 (str z) temp))
  end.

(** [host_max]: address plus wildcard, each octet added on its own. *)
Definition host_max (address wildcard : string) : result string :=
  let tmpAddr := split "." address in
  let tmpWild := split "." wildcard in
  match List.nth_error tmpWild 3 with
  | None => Raise IndexError
  | Some t =>
      z <- int t ;;
      let tmpWild := set_item 3 (str z) tmpWild in
      la <- mapM int tmpAddr ;;
      lw <- mapM int tmpWild ;;
      Ok (list_to_string
            (List.map (fun p : Z * Z => fst p + snd p) (List.combine la lw)))
  end.

(** [num_hosts]: the product of the lengths of [range(0, e + 1)] over
    the wildcard's octets, replaced by 1 when it is not positive. *)
Definition num_hosts (wildcard : string) : result Z :=
  tmpWild <- mapM int (split "." wildcard) ;;
  let ranges := List.map (fun e => len (range 0 (e + 1))) tmpWild in
  numhosts <- reduce_mul ranges ;;
  Ok (if 0 <? numhosts then numhosts else 1).

(** [get_ip_list]: the whole list [complete] of the addresses between
    [hostmin] and [hostmax], octet ranges combined by
    [itertools.product]. *)
Definition get_ip_list (hostmin hostmax : string) : result (list string) :=
  lmin <- mapM int (split "." hostmin) ;;
  lmax <- mapM int (split "." hostmax) ;;
  let ranges := List.map (fun ij : Z * Z => range (fst ij) (snd ij + 1))
                         (List.combine lmin lmax) in
  Ok (List.map (fun ip : list Z => join "." (List.map str ip)) (product ranges)).

(** ** The object and its constructor *)

(** The attributes of a [CIDR] object, each unset until it is assigned. *)
Record CIDR : Type := mkCIDR {
  base : option string;
  netmask : option string;
  wildcard : option string;
  binBase : option (list string);
  subnet : option string;
  hostmin : option string;
  hostmax : option string;
  total : option Z;
  broadcast : option string;
  allips : option (list string)
}.

(** A new object before [__init__] has run. *)
Definition fresh : CIDR :=
  mkCIDR None None None None None None None None None None.

Definition set_base (v : string) (o : CIDR) : CIDR :=
  mkCIDR (Some v) (netmask o) (wildcard o) (binBase o) (subnet o)
         (hostmin o) (hostmax o) (total o) (broadcast o) (allips o).
Definition set_netmask (v : string) (o : CIDR) : CIDR :=
  mkCIDR (base o) (Some v) (wildcard o) (binBase o) (subnet o)
         (hostmin o) (hostmax o) (total o) (broadcast o) (allips o).
Definition set_wildcard (v : string) (o : CIDR) : CIDR :=
  mkCIDR (base o) (netmask o) (Some v) (binBase o) (subnet o)
         (hostmin o) (hostmax o) (total o) (broadcast o) (allips o).
Definition set_binBase (v : list string) (o : CIDR) : CIDR :=
  mkCIDR (base o) (netmask o) (wildcard o) (Some v) (subnet o)
         (hostmin o) (hostmax o) (total o) (broadcast o) (allips o).
Definition set_subnet (v : string) (o : CIDR) : CIDR :=
  mkCIDR (base o) (netmask o) (wildcard o) (binBase o) (Some v)
         (hostmin o) (hostmax o) (total o) (broadcast o) (allips o).
Definition set_hostmin (v : string) (o : CIDR) : CIDR :=
  mkCIDR (base o) (netmask o) (wildcard o) (binBase o) (subnet o)
         (Some v) (hostmax o) (total o) (broadcast o) (allips o).
Definition set_hostmax (v : string) (o : CIDR) : CIDR :=
  mkCIDR (base o) (netmask o) (wildcard o) (binBase o) (subnet o)
         (hostmin o) (Some v) (total o) (broadcast o) (allips o).
Definition set_total (v : Z) (o : CIDR) : CIDR :=
  mkCIDR (base o) (netmask o) (wildcard o) (binBase o) (subnet o)
         (hostmin o) (hostmax o) (Some v) (broadcast o) (allips o).
Definition set_broadcast (v : string) (o : CIDR) : CIDR :=
  mkCIDR (base o) (netmask o) (wildcard o) (binBase o) (subnet o)
         (hostmin o) (hostmax o) (total o) (Some v) (allips o).
Definition set_allips (v : list string) (o : CIDR) : CIDR :=
  mkCIDR (base o) (netmask o) (wildcard o) (binBase o) (subnet o)
         (hostmin o) (hostmax o) (total o) (broadcast o) (Some v).

(** Statements that read and write [self] and can raise: the object as
    it is when the statement ends, and the value or the exception. *)
Definition stmt (A : Type) : Type := CIDR -> CIDR * result A.

Definition seq {A B : Type} (m : stmt A) (k : A -> stmt B) : stmt B :=
  fun self =>
    match m self with
    | (self', Ok a) => k a self'
    | (self', Raise e) => (self', Raise e)
    end.

(** A method call: the object is untouched, the result may be raised. *)
Definition call {A : Type} (r : result A) : stmt A :=
  fun self => (self, r).

(** [self.x = v] *)
Definition assign {A : Type} (setter : A -> CIDR -> CIDR) (v : A) : stmt unit :=
  fun self => (setter v self, Ok tt).

(** [self.x] *)
Definition attr {A : Type} (getter : CIDR -> option A) : stmt A :=
  fun self =>
    match getter self with
    | Some v => (self, Ok v)
    | None => (self, Raise AttributeError)
    end.

Declare Scope stmt_scope.
Delimit Scope stmt_scope with stmt.
Notation "x <~ m ;; k" := (seq m (fun x => k))
  (at level 61, m at next level, right associativity) : stmt_scope.
Notation "m ;;; k" := (seq m (fun _ => k))
  (at level 61, right associativity) : stmt_scope.

Local Open Scope stmt_scope.

(** The statements inside [try:], the same in [__init__] and [update]. *)
Definition try_body (address : string) : stmt unit :=
  index <~ call (Py.index "/" address) ;;
  assign set_base (slice_to index address) ;;;
  let intMask := slice_from (index + 1) address in
  v <~ call (calculate_netmask intMask) ;;
  assign set_netmask v ;;;
  v <~ call (calculate_wildcard intMask) ;;
  assign set_wildcard v ;;;
  b <~ attr base ;;
  v <~ call (address_to_bin b) ;;
  assign set_binBase v ;;;
  b <~ attr base ;;
  m <~ attr netmask ;;
  v <~ call (network b m) ;;
  assign set_subnet (list_to_string v) ;;;
  s <~ attr subnet ;;
  v <~ call (host_min s) ;;
  assign set_hostmin v ;;;
  s <~ attr subnet ;;
  w <~ attr wildcard ;;
  v <~ call (host_max s w) ;;
  assign set_hostmax v ;;;
  w <~ attr wildcard ;;
  v <~ call (num_hosts w) ;;
  assign set_total v ;;;
  h <~ attr hostmax ;;
  v <~ call (host_min h) ;;
  assign set_broadcast v ;;;
  lo <~ attr hostmin ;;
  hi <~ attr hostmax ;;
  v <~ call (get_ip_list lo hi) ;;
  assign set_allips v.

(** What a run of the constructor leaves: the object, and the exception
    that [except Exception as e: print(e)] printed, if any. *)
Record outcome : Type := mkOutcome {
  obj : CIDR;
  printed : option exn
}.

Definition try_except (address : string) (self : CIDR) : outcome :=
  match try_body address self with
  | (self', Ok _) => mkOutcome self' None
  | (self', Raise e) => mkOutcome self' (Some e)
  end.

(** [CIDR(address)] and [self.update(address)]. *)
Definition init (address : string) : outcome := try_except address fresh.
Definition update (address : string) (self : CIDR) : outcome :=
  try_except address self.

(** The rows of [__str__], in the order of the table: each reads an
    attribute, so an unset one raises. *)
Definition rows : stmt (list (string * string)) :=
  b <~ attr base ;;
  n <~ attr netmask ;;
  w <~ attr wildcard ;;
  bc <~ attr broadcast ;;
  s <~ attr subnet ;;
  lo <~ attr hostmin ;;
  hi <~ attr hostmax ;;
  t <~ attr total ;;
  call (Ok [("Base", b); ("Netmask", n); ("Wildcard", w); ("Broadcast", bc);
            ("Subnet ID", s); ("Host min", lo); ("Host max", hi);
            ("Total Hosts", str t)]).




(** ** The table of [__str__] and the main program *)

(** [s.find(c)] for a one-character [c]: the position of the first
    occurrence, or -1. *)
Definition find (c : ascii) (s : string) : Z :=
  match Py.index c s with
  | Ok n => Z.of_nat n
  | Raise _ => -1
  end.

(** The escape sequences that [__str__] puts around a label of the
    PrettyTable. *)
Definition esc : string := String (ascii_of_nat 27) EmptyString.
Definition blue (label : string) : string :=
  esc ++ "[94m" ++ label ++ esc ++ "[0m".

(** The rows [__str__] adds to its table, in order; every row reads an
    attribute.  With more than one element in [sys.argv] the labels are
    coloured, otherwise plain. *)
Definition table_rows (styled : bool) : stmt (list (string * string)) :=
  (let label := if styled then blue else (fun s : string => s) in
   b <~ attr base ;;
   n <~ attr netmask ;;
   w <~ attr wildcard ;;
   bc <~ attr broadcast ;;
   s <~ attr subnet ;;
   lo <~ attr hostmin ;;
   hi <~ attr hostmax ;;
   t <~ attr total ;;
   call (Ok [(label "Base", b); (label "Netmask", n); (label "Wildcard", w);
             (label "Broadcast", bc); (label "Subnet ID", s);
             (label "Host min", lo); (label "Host max", hi);
             (label "Total Hosts", str t)]))%stmt.

(** What the program writes, in order: the exception a constructor
    printed, the text of a PrettyTable holding the given rows, the
    default representation of a rich [Table] object, the usage text. *)
Inductive event : Type :=
| Printed (e : exn)
| Table (rows : list (string * string))
| TableObject
| Usage.

(** [__str__]: both branches add the eight rows, reading the
    attributes, and return [str(table)].  With more than one element in
    [sys.argv] the table is a PrettyTable, and its text holds the rows.
    Otherwise it is a rich [Table], a class without a [__str__] or
    [__repr__] of its own: [str()] gives the default representation of
    the object, in which none of the rows appears. *)
Definition to_text (styled : bool) : stmt event :=
  (rows <~ table_rows styled ;;
   call (Ok (if styled then Table rows else TableObject)))%stmt.

(** How the program ends: [sys.exit()] or the end of the script, or an
    exception nobody catches. *)
Inductive ending : Type :=
| Exit
| Uncaught (e : exn).

(** [enumerate(l)] *)
Definition enumerate {A : Type} (l : list A) : list (Z * A) :=
  List.combine (List.map Z.of_nat (List.seq 0 (List.length l))) l.

(** [reduce(lambda x, y: x + y, l)] without an initial value. *)
Definition reduce_add (l : list Z) : result Z :=
  match l with
  | [] => Raise TypeError
  | x :: t => Ok (List.fold_left Z.add t x)
  end.

(** The test of the list comprehension on one argument,
    [(val.find('.') > 0 and val.find('/')) > 0]: when the first
    comparison is false, [and] gives [False], which is not above 0. *)
Definition selected (val : string) : bool :=
  0 <? (if 0 <? find "." val then find "/" val else 0).

(** [ipLocation] as the main program computes it from [sys.argv]. *)
Definition ip_location (argv : list string) : result Z :=
  reduce_add (List.map (fun iv : Z * string =>
                          if selected (snd iv) then fst iv else 0)
                       (enumerate argv)).

(** [for cidrItem in cidrIP: print(str(cidrItem))]: one text per
    object, until [__str__] raises. *)
Fixpoint print_all (styled : bool) (cidrIP : list CIDR) : list event * ending :=
  match cidrIP with
  | [] => ([], Exit)
  | cidrItem :: rest =>
      match snd (to_text styled cidrItem) with
      | Raise e => ([], Uncaught e)
      | Ok text =>
          let (events, e) := print_all styled rest in
          (text :: events, e)
      end
  end.

(** What the constructors printed, in the order of the objects. *)
Fixpoint printed_by (outcomes : list outcome) : list event :=
  match outcomes with
  | [] => []
  | r :: rest =>
      match printed r with
      | Some e => Printed e :: printed_by rest
      | None => printed_by rest
      end
  end.

(** The second half of the main program, from the list [cidrIP] on: the
    two branches on ['-o' in sys.argv] run the same loop. *)
Definition report (argv : list string) (outcomes : list outcome)
  : list event * ending :=
  let styled := (1 <? len argv) in
  let cidrIP := List.map obj outcomes in
  let (events, e) :=
    if List.existsb (String.eqb "-o") argv
    then print_all styled cidrIP
    else print_all styled cidrIP in
  ((printed_by outcomes ++ events)%list, e).

(** The main program: [tty] is what [sys.stdin.isatty()] answers,
    [stdin] what [sys.stdin.read()] returns. *)
Definition main (tty : bool) (stdin : string) (argv : list string)
  : list event * ending :=
  match (if negb tty then Ok 0 else ip_location argv) with
  | Raise e => ([], Uncaught e)
  | Ok ipLocation =>
      if 0 <? ipLocation then
        match List.nth_error argv (Z.to_nat ipLocation) with
        | None => ([], Uncaught IndexError)
        | Some address => report argv [init address]
        end
      else if negb tty then
        let stdin_ip := split (ascii_of_nat 10) stdin in
        report argv (List.map init stdin_ip)
      else ([Usage], Exit)
  end.

(** ** Definitions used by the statements and proofs *)

(** [c in s] *)
Fixpoint occurs (c : ascii) (s : string) : bool :=
  match s with
  | EmptyString => false
  | String x r => Ascii.eqb x c || occurs c r
  end.

(** The value of a decimal numeral read from the left with a carried
    accumulator, as [scan] computes it. *)
Fixpoint uval (d : Decimal.uint) (acc : Z) : Z :=
  match d with
  | Decimal.Nil => acc
  | Decimal.D0 l => uval l (acc * 10 + 0)
  | Decimal.D1 l => uval l (acc * 10 + 1)
  | Decimal.D2 l => uval l (acc * 10 + 2)
  | Decimal.D3 l => uval l (acc * 10 + 3)
  | Decimal.D4 l => uval l (acc * 10 + 4)
  | Decimal.D5 l => uval l (acc * 10 + 5)
  | Decimal.D6 l => uval l (acc * 10 + 6)
  | Decimal.D7 l => uval l (acc * 10 + 7)
  | Decimal.D8 l => uval l (acc * 10 + 8)
  | Decimal.D9 l => uval l (acc * 10 + 9)
  end.

(** An octet value. *)
Definition octet (z : Z) : Prop := 0 <= z <= 255.

(** The 32-bit reading of an address: its octets, most significant
    first, as the digits of a number in base 256; and back. *)
Module Word32.

Definition of_octets (l : list Z) : Z :=
  List.fold_left (fun acc x => acc * 256 + x) l 0.

Definition to_octets (w : Z) : list Z :=
  [Z.shiftr w 24 mod 256; Z.shiftr w 16 mod 256; Z.shiftr w 8 mod 256; w mod 256].

(** The word whose [n] highest bits of 32 are set. *)
Definition top_bits (n : Z) : Z := Z.shiftl (Z.ones n) (32 - n).

(** The complement within 32 bits. *)
Definition complement (w : Z) : Z := Z.lxor w (Z.ones 32).

End Word32.

(** Octet by octet operations, over the shorter of the two lists as
    [zip] does. *)
Definition zip_with (f : Z -> Z -> Z) (l1 l2 : list Z) : list Z :=
  List.map (fun p : Z * Z => f (fst p) (snd p)) (List.combine l1 l2).

(** The product of the numbers of a list. *)
Definition prod (l : list Z) : Z := List.fold_right Z.mul 1 l.

(** The input texts whose address part reads as the octets [a] and whose
    part after the slash reads as [n]: [b] is the address part. *)
Definition reads_as (address b : string) (a : list Z) (n : Z) : Prop :=
  exists m : string,
    address = b ++ "/" ++ m /\
    occurs "/" b = false /\
    mapM int (split "." b) = Ok a /\
    int m = Ok n.

(** The canonical text of an address and a prefix length. *)
Definition cidr_text (a : list Z) (n : Z) : string :=
  list_to_string a ++ "/" ++ str n.

(** The octets the constructor derives from the octets [a] of the
    address and a prefix length [n]. *)
Definition mask_of (n : Z) : list Z := Word32.to_octets (Word32.top_bits n).
Definition wild_of (n : Z) : list Z := List.map (fun val => 255 - val) (mask_of n).
Definition net_of (a : list Z) (n : Z) : list Z := zip_with Z.land a (mask_of n).
Definition max_of (a : list Z) (n : Z) : list Z :=
  zip_with Z.add (net_of a n) (wild_of n).

(** The addresses between two octet lists, in the order of
    [get_ip_list]. *)
Definition between (lo hi : list Z) : list (list Z) :=
  product (List.map (fun ij : Z * Z => range (fst ij) (snd ij + 1))
                    (List.combine lo hi)).

(** The object a successful construction leaves. *)
Definition derived (b : string) (a : list Z) (n : Z) : CIDR :=
  mkCIDR (Some b)
         (Some (list_to_string (mask_of n)))
         (Some (list_to_string (wild_of n)))
         (Some (List.map bin8 a))
         (Some (list_to_string (net_of a n)))
         (Some (list_to_string (net_of a n)))
         (Some (list_to_string (max_of a n)))
         (Some (prod (List.map (fun w => w + 1) (wild_of n))))
         (Some (list_to_string (max_of a n)))
         (Some (List.map list_to_string (between (net_of a n) (max_of a n)))).

(** Which attributes are set, in the order of their assignment. *)
Definition is_set {A : Type} (o : option A) : bool :=
  match o with Some _ => true | None => false end.

Definition populated (o : CIDR) : list bool :=
  [is_set (base o); is_set (netmask o); is_set (wildcard o);
   is_set (binBase o); is_set (subnet o); is_set (hostmin o);
   is_set (hostmax o); is_set (total o); is_set (broadcast o);
   is_set (allips o)].

(** The 32-bit value of a dotted-decimal text. *)
Definition value_of (s : string) : result Z :=
  bind (mapM int (split "." s)) (fun l => Ok (Word32.of_octets l)).

(** The octets of a dotted-decimal text. *)
Definition octets_of (s : string) : result (list Z) := mapM int (split "." s).

(** Four nested loops, the first range in the outermost one. *)
Definition nested_loops (r0 r1 r2 r3 : list Z) : list (list Z) :=
  List.flat_map (fun x0 =>
    List.flat_map (fun x1 =>
      List.flat_map (fun x2 =>
        List.map (fun x3 => [x0; x1; x2; x3]) r3) r2) r1) r0.

(** The inputs the properties below range over: an address part of four
    octets and a prefix length between 0 and 32. *)
Definition well_formed (address b : string) (a : list Z) (n : Z) : Prop :=
  reads_as address b a n /\ List.length a = 4%nat /\ Forall octet a
  /\ 0 <= n <= 32.

(** The object the constructor builds from the address text [b], its
    parts [a] and the octets [M] of the mask text: the general form of
    [derived]. *)
Definition built (b : string) (a M : list Z) : CIDR :=
  let W := List.map (fun val => 255 - val) M in
  let N := zip_with Z.land a M in
  let H := zip_with Z.add N W in
  mkCIDR (Some b)
         (Some (list_to_string M))
         (Some (list_to_string W))
         (Some (List.map bin8 a))
         (Some (list_to_string N))
         (Some (list_to_string N))
         (Some (list_to_string H))
         (Some (prod (List.map (fun w => w + 1) W)))
         (Some (list_to_string H))
         (Some (List.map list_to_string (between N H))).

(** What [int(s, 2)] makes of the binary text of an integer that is not
    negative, or that lies from -63 to -32: its absolute value. *)
Definition accepted (z : Z) : Prop := 0 <= z \/ -63 <= z <= -32.

(** The octets a netmask can have. *)
Definition mask_values : list Z := [0; 128; 192; 224; 240; 248; 252; 254; 255].

(** The line feed, on which the main program splits its input. *)
Definition nl : ascii := ascii_of_nat 10.

(** The eight rows of the table for given values of the attributes. *)
Definition rows_of (styled : bool) (b n w bc s lo hi : string) (t : Z)
  : list (string * string) :=
  let label := if styled then blue else (fun x : string => x) in
  [(label "Base", b); (label "Netmask", n); (label "Wildcard", w);
   (label "Broadcast", bc); (label "Subnet ID", s);
   (label "Host min", lo); (label "Host max", hi);
   (label "Total Hosts", str t)].

(** The sum the main program forms over [enumerate(sys.argv)]: the
    indices of the selected arguments, counted from [k]. *)
Fixpoint index_sum (k : Z) (l : list string) : Z :=
  match l with
  | [] => 0
  | v :: t => (if selected v then k else 0) + index_sum (k + 1) t
  end.


(** The ten assignments inside [try:], in the order of the source, each
    as a statement of its own: [index] is what [address.index('/')]
    returned. *)
Definition assignments (address : string) (index : nat) : list (stmt unit) :=
  (let intMask := slice_from (index + 1) address in
   [ assign set_base (slice_to index address);
     (v <~ call (calculate_netmask intMask) ;; assign set_netmask v);
     (v <~ call (calculate_wildcard intMask) ;; assign set_wildcard v);
     (b <~ attr base ;; v <~ call (address_to_bin b) ;; assign set_binBase v);
     (b <~ attr base ;; m <~ attr netmask ;; v <~ call (network b m) ;;
      assign set_subnet (list_to_string v));
     (s <~ attr subnet ;; v <~ call (host_min s) ;; assign set_hostmin v);
     (s <~ attr subnet ;; w <~ attr wildcard ;; v <~ call (host_max s w) ;;
      assign set_hostmax v);
     (w <~ attr wildcard ;; v <~ call (num_hosts w) ;; assign set_total v);
     (h <~ attr hostmax ;; v <~ call (host_min h) ;; assign set_broadcast v);
     (lo <~ attr hostmin ;; hi <~ attr hostmax ;; v <~ call (get_ip_list lo hi) ;;
      assign set_allips v) ])%stmt.

(** Statements run one after the other; the first that raises ends the
    run. *)
Fixpoint run (body : list (stmt unit)) : stmt unit :=
  match body with
  | [] => call (Ok tt)
  | s :: rest => (s ;;; run rest)%stmt
  end.

(** The octets [calculate_netmask] makes of an integer [n], whatever its
    size: for a negative one the 32 - n zeros in groups of eight, above
    32 the n ones in groups of eight. *)
Definition any_mask (n : Z) : list Z :=
  if n <? 0 then List.repeat 0 (Z.to_nat ((32 - n) / 8))
  else if n <=? 32 then mask_of n
  else List.repeat 255 (Z.to_nat (n / 8)).


(** Whether a run of the constructor printed nothing. *)
Definition silent (r : outcome) : bool :=
  match printed r with
  | None => true
  | Some _ => false
  end.
(** ** Facts about the text primitives *)

Lemma occurs_app c a b : occurs c (a ++ b) = occurs c a || occurs c b.
Proof.
  induction a as [|x a IH]; simpl; [reflexivity|].
  now rewrite IH, orb_assoc.
Qed.

Lemma index_first c a r :
  occurs c a = false ->
  Py.index c (a ++ String c r) = Ok (String.length a).
Proof.
  induction a as [|x a IH]; simpl; intros H.
  - now rewrite Ascii.eqb_refl.
  - apply orb_false_iff in H as [Hx Ha].
    now rewrite Hx, (IH Ha).
Qed.

Lemma slice_to_app a r : slice_to (String.length a) (a ++ r) = a.
Proof. induction a as [|x a IH]; simpl; [now destruct r | now rewrite IH]. Qed.

Lemma slice_from_app a c r :
  slice_from (String.length a + 1) (a ++ String c r) = r.
Proof. induction a as [|x a IH]; simpl; [reflexivity | exact IH]. Qed.

Lemma split_whole c a : occurs c a = false -> split c a = [a].
Proof.
  induction a as [|x a IH]; simpl; intros H; [reflexivity|].
  apply orb_false_iff in H as [Hx Ha].
  now rewrite Hx, (IH Ha).
Qed.

Lemma split_first c a r :
  occurs c a = false -> split c (a ++ String c r) = a :: split c r.
Proof.
  induction a as [|x a IH]; simpl; intros H.
  - now rewrite Ascii.eqb_refl.
  - apply orb_false_iff in H as [Hx Ha].
    now rewrite Hx, (IH Ha).
Qed.

Lemma split_join c l :
  l <> [] ->
  Forall (fun s => occurs c s = false) l ->
  split c (join (String c EmptyString) l) = l.
Proof.
  induction l as [|x [|y t] IH]; intros Hne Hall.
  - contradiction.
  - simpl. apply split_whole. now inversion Hall.
  - inversion Hall as [|? ? Hx Ht]; subst.
    change (join (String c "") (x :: y :: t))
      with (x ++ String c (join (String c "") (y :: t))).
    rewrite (split_first _ _ _ Hx), IH; [reflexivity | discriminate | exact Ht].
Qed.

(** *** [int(str(z)) == z] *)

Lemma scan_numeral d acc :
  scan 10 (NilEmpty.string_of_uint d) acc false = Some (uval d acc).
Proof.
  revert acc. induction d; intros acc; simpl; try reflexivity; apply IHd.
Qed.

Lemma uval_acc d acc :
  Z.pos (Pos.of_uint_acc d acc) = uval d (Z.pos acc).
Proof.
  revert acc.
  induction d; intros acc; cbn [Pos.of_uint_acc uval]; try reflexivity;
    rewrite IHd; f_equal; lia.
Qed.

Lemma uval_of_uint d : uval d 0 = Z.of_uint d.
Proof.
  unfold Z.of_uint.
  induction d; cbn [Pos.of_uint uval Z.of_N]; try reflexivity;
    try exact IHd; now rewrite uval_acc.
Qed.

Lemma parse_digit_first c r v :
  digit_in 10 c = Some v ->
  parse_int 10 (String c r)
  = match scan 10 r v false with Some x => Some x | None => None end
  /\ parse_int 10 (String "-" (String c r))
     = match scan 10 r v false with Some x => Some (- x) | None => None end.
Proof.
  destruct c as [[] [] [] [] [] [] [] []]; intros H;
    try discriminate H; injection H as <-; split; reflexivity.
Qed.

Lemma parse_numeral d :
  parse_int 10 (NilZero.string_of_uint d) = Some (Z.of_uint d)
  /\ parse_int 10 (String "-" (NilZero.string_of_uint d)) = Some (- Z.of_uint d).
Proof.
  rewrite <- uval_of_uint.
  destruct d; try (split; reflexivity);
    cbn [NilZero.string_of_uint NilEmpty.string_of_uint];
    (match goal with |- parse_int 10 (String ?c ?r) = _ /\ _ =>
       destruct (parse_digit_first c r _ eq_refl) as [-> ->]
     end);
    rewrite scan_numeral; split; reflexivity.
Qed.

Lemma int_str (z : Z) : int (str z) = Ok z.
Proof.
  unfold int, str, Str_Z, str_int.
  pose proof (DecimalZ.of_to z) as E.
  destruct (Z.to_int z) as [d|d]; simpl in E |- *.
  - destruct (parse_numeral d) as [-> _]. now rewrite E.
  - destruct (parse_numeral d) as [_ ->]. now rewrite E.
Qed.

(** [str(z)] holds digits and at most a sign: no dot, no slash. *)
Lemma occurs_numeral c d :
  digit_in 10 c = None -> occurs c (NilEmpty.string_of_uint d) = false.
Proof.
  intros Hc.
  induction d; cbn [occurs NilEmpty.string_of_uint]; try reflexivity;
    rewrite IHd, orb_false_r;
    (match goal with |- Ascii.eqb ?x c = false =>
       destruct (Ascii.eqb_spec x c) as [E|E]; [subst c; discriminate Hc | reflexivity]
     end).
Qed.

Lemma occurs_str c (z : Z) :
  digit_in 10 c = None -> Ascii.eqb "-" c = false -> occurs c (str z) = false.
Proof.
  intros Hc Hs.
  assert (U : forall d, occurs c (NilZero.string_of_uint d) = false).
  { intros d. pose proof (occurs_numeral c d Hc) as H.
    destruct d; try exact H.
    cbn [occurs NilZero.string_of_uint]. rewrite orb_false_r.
    destruct (Ascii.eqb_spec "0" c) as [E|E]; [subst c; discriminate Hc | reflexivity]. }
  unfold str, Str_Z, str_int.
  destruct (Z.to_int z) as [d|d]; cbn [occurs NilZero.string_of_int].
  - apply U.
  - now rewrite Hs, U.
Qed.

Lemma split_dotted (l : list Z) :
  l <> [] -> split "." (list_to_string l) = List.map str l.
Proof.
  intros Hne. unfold list_to_string.
  apply split_join.
  - now destruct l.
  - apply Forall_forall. intros s Hs.
    apply in_map_iff in Hs as [z [<- _]].
    now apply occurs_str.
Qed.

Lemma mapM_int_str (l : list Z) : mapM int (List.map str l) = Ok l.
Proof.
  induction l as [|z l IH]; simpl; [reflexivity|].
  now rewrite int_str, IH.
Qed.

Lemma mapM_map {A B C : Type} (g : A -> B) (f : B -> result C) (l : list A) :
  mapM f (List.map g l) = mapM (fun x => f (g x)) l.
Proof.
  induction l as [|x l IH]; simpl; [reflexivity|].
  now rewrite IH.
Qed.

Lemma mapM_ok {A B : Type} (f : A -> result B) (g : A -> B) (l : list A) :
  (forall x, In x l -> f x = Ok (g x)) -> mapM f l = Ok (List.map g l).
Proof.
  induction l as [|x l IH]; simpl; intros H; [reflexivity|].
  rewrite (H x (or_introl eq_refl)), IH; [reflexivity|].
  intros y Hy. apply H. now right.
Qed.

(** ** Octets *)

Lemma range_spec lo hi z : In z (range lo hi) <-> lo <= z < hi.
Proof.
  unfold range. rewrite in_map_iff. split.
  - intros [k [<- Hk]]. apply in_seq in Hk. lia.
  - intros H. exists (Z.to_nat (z - lo)). split; [lia|].
    apply in_seq. lia.
Qed.

(** A property checked on every octet holds of every octet. *)
Lemma octet_cases (P : Z -> bool) :
  List.forallb P (range 0 256) = true -> forall z, octet z -> P z = true.
Proof.
  intros H z Hz. rewrite forallb_forall in H. apply H.
  apply range_spec. unfold octet in Hz. lia.
Qed.

Lemma int2_bin8 z : octet z -> int2 (bin8 z) = Ok z.
Proof.
  intros Hz.
  pose (P := fun z => match int2 (bin8 z) with Ok v => v =? z | Raise _ => false end).
  assert (H : P z = true) by (apply octet_cases; [vm_compute; reflexivity | exact Hz]).
  unfold P in H. destruct (int2 (bin8 z)) as [v|e]; [|discriminate].
  apply Z.eqb_eq in H. now subst.
Qed.

Lemma land_octet x y : octet x -> octet y -> octet (Z.land x y).
Proof.
  unfold octet. intros Hx Hy.
  assert (E : Z.land x y = Z.land x y mod 2 ^ 8).
  { rewrite <- Z.land_ones by lia. rewrite <- Z.land_assoc.
    rewrite (Z.land_ones y) by lia. now rewrite (Z.mod_small y) by lia. }
  pose proof (Z.mod_pos_bound (Z.land x y) (2 ^ 8) ltac:(lia)) as B.
  rewrite <- E in B. change (2 ^ 8) with 256 in B. lia.
Qed.

Lemma complement_octet y : octet y -> octet (255 - y).
Proof. unfold octet. lia. Qed.

(** Within an octet a masked value and the complement of the mask share
    no bit. *)
Lemma masked_disjoint x y : octet y -> Z.land (Z.land x y) (255 - y) = 0.
Proof.
  intros Hy.
  assert (C : 255 - y = Z.lxor y 255).
  { pose (P := fun y => (255 - y) =? Z.lxor y 255).
    apply Z.eqb_eq. change (P y = true).
    apply octet_cases; [vm_compute; reflexivity | exact Hy]. }
  assert (Y : y = Z.land y 255).
  { change 255 with (Z.ones 8). rewrite Z.land_ones by lia.
    symmetry. apply Z.mod_small. unfold octet in Hy. lia. }
  rewrite C, Y. apply Z.bits_inj'. intros i Hi.
  rewrite !Z.land_spec, Z.lxor_spec, Z.land_spec, Z.bits_0.
  destruct (Z.testbit x i), (Z.testbit y i), (Z.testbit 255 i); reflexivity.
Qed.

(** So adding them carries nothing: the sum is their bitwise OR. *)
Lemma add_is_lor x y :
  octet y -> Z.land x y + (255 - y) = Z.lor (Z.land x y) (255 - y).
Proof.
  intros Hy. pose proof (masked_disjoint x y Hy) as D.
  rewrite Z.add_nocarry_lxor by exact D.
  apply Z.lxor_lor. exact D.
Qed.

Lemma add_octet x y : octet x -> octet y -> octet (Z.land x y + (255 - y)).
Proof.
  intros Hx Hy.
  pose proof (land_octet x y Hx Hy) as [L _].
  pose proof (Z.add_nocarry_lt_pow2 (Z.land x y) (255 - y) 8
                (masked_disjoint x y Hy)) as B.
  pose proof (land_octet x y Hx Hy) as [_ U].
  change (2 ^ 8) with 256 in B.
  unfold octet in *. lia.
Qed.

(** ** The methods on dotted text *)

Lemma mapM_then {A B C : Type} (f : A -> result B) (g : B -> C) (l : list A) :
  mapM (fun x => bind (f x) (fun z => Ok (g z))) l
  = bind (mapM f l) (fun r => Ok (List.map g r)).
Proof.
  induction l as [|x l IH]; simpl; [reflexivity|].
  rewrite IH. destruct (f x); simpl; [|reflexivity].
  now destruct (mapM f l).
Qed.

Lemma parts_dotted (l : list Z) :
  l <> [] -> mapM int (split "." (list_to_string l)) = Ok l.
Proof.
  intros Hne. rewrite split_dotted by exact Hne. apply mapM_int_str.
Qed.

Lemma address_to_bin_reads b a :
  mapM int (split "." b) = Ok a -> address_to_bin b = Ok (List.map bin8 a).
Proof.
  intros H. unfold address_to_bin. now rewrite mapM_then, H.
Qed.

Lemma bin_to_address_bin8 l :
  Forall octet l -> bin_to_address (List.map bin8 l) = Ok l.
Proof.
  unfold bin_to_address.
  induction 1 as [|x l Hx Hl IH]; simpl; [reflexivity|].
  now rewrite (int2_bin8 x Hx), IH.
Qed.

Lemma network_reads b a M :
  mapM int (split "." b) = Ok a ->
  Forall octet a -> Forall octet M -> M <> [] ->
  network b (list_to_string M) = Ok (zip_with Z.land a M).
Proof.
  intros Hb Ha HM Hne. unfold network.
  rewrite (address_to_bin_reads b a Hb).
  rewrite (address_to_bin_reads _ M (parts_dotted M Hne)).
  cbn [bind].
  assert (E : mapM (fun ab : string * string =>
                      x <- int2 (fst ab) ;; y <- int2 (snd ab) ;; Ok (bin8 (Z.land x y)))
                   (List.combine (List.map bin8 a) (List.map bin8 M))
              = Ok (List.map bin8 (zip_with Z.land a M))).
  { clear Hb Hne. revert M HM.
    induction Ha as [|x a Hx Ha IH]; intros M HM; [reflexivity|].
    destruct HM as [|y M Hy HM]; [reflexivity|].
    cbn [List.map List.combine mapM fst snd zip_with].
    rewrite (int2_bin8 x Hx), (int2_bin8 y Hy). cbn [bind].
    fold (zip_with Z.land a M).
    now rewrite (IH M HM). }
  rewrite E. cbn [bind].
  apply bin_to_address_bin8.
  clear E Hb Hne. revert M HM.
  induction Ha as [|x a Hx Ha IH]; intros M HM; [constructor|].
  destruct HM as [|y M Hy HM]; [constructor|].
  constructor; [now apply land_octet | now apply IH].
Qed.

Lemma host_min_dotted (l : list Z) :
  List.length l = 4%nat -> host_min (list_to_string l) = Ok (list_to_string l).
Proof.
  destruct l as [|n0 [|n1 [|n2 [|n3 [|]]]]]; try discriminate. intros _.
  unfold host_min. rewrite split_dotted by discriminate.
  cbn [List.map List.nth_error]. rewrite int_str. reflexivity.
Qed.

Lemma host_max_dotted (l w : list Z) :
  List.length l = 4%nat -> List.length w = 4%nat ->
  host_max (list_to_string l) (list_to_string w)
  = Ok (list_to_string (zip_with Z.add l w)).
Proof.
  destruct l as [|n0 [|n1 [|n2 [|n3 [|]]]]]; try discriminate. intros _.
  destruct w as [|w0 [|w1 [|w2 [|w3 [|]]]]]; try discriminate. intros _.
  unfold host_max. rewrite !split_dotted by discriminate.
  change (List.nth_error (List.map str [w0; w1; w2; w3]) 3) with (Some (str w3)).
  cbn iota. rewrite int_str. cbn [bind].
  change (set_item 3 (str w3) (List.map str [w0; w1; w2; w3]))
    with (List.map str [w0; w1; w2; w3]).
  rewrite !mapM_int_str. reflexivity.
Qed.

Lemma len_range e : 0 <= e -> len (range 0 (e + 1)) = e + 1.
Proof.
  intros He. unfold len, range. rewrite length_map, length_seq. lia.
Qed.

Lemma num_hosts_reads (s : string) (w : list Z) :
  mapM int (split "." s) = Ok w ->
  List.length w = 4%nat -> Forall (fun e => 0 <= e) w ->
  num_hosts s = Ok (prod (List.map (fun e => e + 1) w)).
Proof.
  intros Hs. destruct w as [|w0 [|w1 [|w2 [|w3 [|]]]]]; try discriminate.
  intros _ H.
  inversion H as [|? ? H0 T0]; subst. inversion T0 as [|? ? H1 T1]; subst.
  inversion T1 as [|? ? H2 T2]; subst. inversion T2 as [|? ? H3 _]; subst.
  unfold num_hosts. rewrite Hs.
  cbn [bind List.map reduce_mul List.fold_left prod List.fold_right].
  rewrite !len_range by assumption.
  replace (0 <? (w0 + 1) * (w1 + 1) * (w2 + 1) * (w3 + 1)) with true
    by (symmetry; apply Z.ltb_lt; nia).
  f_equal. ring.
Qed.

Lemma num_hosts_dotted (w : list Z) :
  List.length w = 4%nat -> Forall (fun e => 0 <= e) w ->
  num_hosts (list_to_string w) = Ok (prod (List.map (fun e => e + 1) w)).
Proof.
  intros L H. apply num_hosts_reads; [|exact L|exact H].
  apply parts_dotted. now destruct w.
Qed.

Lemma get_ip_list_dotted (lo hi : list Z) :
  lo <> [] -> hi <> [] ->
  get_ip_list (list_to_string lo) (list_to_string hi)
  = Ok (List.map list_to_string (between lo hi)).
Proof.
  intros Hlo Hhi. unfold get_ip_list.
  rewrite (parts_dotted lo Hlo), (parts_dotted hi Hhi). reflexivity.
Qed.

(** ** The masks *)

Lemma range_forall (P : Z -> Prop) lo hi :
  Forall P (range lo hi) -> forall z, lo <= z < hi -> P z.
Proof.
  intros H z Hz. rewrite Forall_forall in H. apply H. now apply range_spec.
Qed.

Ltac each_in_range lo hi :=
  let l := eval vm_compute in (range lo hi) in
  change (range lo hi) with l;
  repeat (constructor; [vm_compute; reflexivity|]); constructor.

(** The groups of eight binary digits of the mask text are the octets
    of the word with the [n] highest bits set. *)
Lemma mask_digits n :
  0 <= n <= 32 ->
  bin_to_address (group8 (repeat_char "1" n ++ repeat_char "0" (32 - n)))
  = Ok (mask_of n).
Proof.
  intros Hn.
  apply (range_forall
           (fun n => bin_to_address
                       (group8 (repeat_char "1" n ++ repeat_char "0" (32 - n)))
                     = Ok (mask_of n)) 0 33); [|lia].
  each_in_range 0 33.
Qed.

Lemma mask_of_length n : List.length (mask_of n) = 4%nat.
Proof. reflexivity. Qed.

Lemma mask_of_octets n : Forall octet (mask_of n).
Proof.
  assert (H : forall x, octet (x mod 256)).
  { intros x. unfold octet.
    pose proof (Z.mod_pos_bound x 256 ltac:(lia)). lia. }
  unfold mask_of, Word32.to_octets.
  repeat (apply Forall_cons; [apply H|]). apply Forall_nil.
Qed.

Lemma wild_of_octets n : Forall octet (wild_of n).
Proof.
  unfold wild_of. apply Forall_forall. intros w Hw.
  apply in_map_iff in Hw as [v [<- Hv]].
  apply complement_octet.
  pose proof (mask_of_octets n) as H. rewrite Forall_forall in H. now apply H.
Qed.

Lemma calculate_netmask_reads m n :
  int m = Ok n -> 0 <= n <= 32 ->
  calculate_netmask m = Ok (list_to_string (mask_of n)).
Proof.
  intros Hm Hn. unfold calculate_netmask. rewrite Hm. cbn [bind].
  now rewrite (mask_digits n Hn).
Qed.

Lemma calculate_wildcard_reads m n :
  int m = Ok n -> 0 <= n <= 32 ->
  calculate_wildcard m = Ok (list_to_string (wild_of n)).
Proof.
  intros Hm Hn. unfold calculate_wildcard. rewrite Hm. cbn [bind].
  now rewrite (mask_digits n Hn).
Qed.

(** ** Running the statements of the constructor *)

Lemma seq_call_ok {A B : Type} (r : result A) (k : A -> stmt B) (self : CIDR) (v : A) :
  r = Ok v -> seq (call r) k self = k v self.
Proof. intros ->. reflexivity. Qed.

Lemma seq_call_cases {A B : Type} (r : result A) (k : A -> stmt B) (self : CIDR) :
  seq (call r) k self
  = match r with Ok v => k v self | Raise e => (self, Raise e) end.
Proof. now destruct r. Qed.

Lemma seq_assign {A B : Type} (setter : A -> CIDR -> CIDR) (v : A)
      (k : unit -> stmt B) (self : CIDR) :
  seq (assign setter v) k self = k tt (setter v self).
Proof. reflexivity. Qed.

Lemma seq_attr {A B : Type} (getter : CIDR -> option A) (k : A -> stmt B)
      (self : CIDR) (v : A) :
  getter self = Some v -> seq (attr getter) k self = k v self.
Proof. intros H. unfold seq, attr. now rewrite H. Qed.

Lemma net_of_length a n : List.length a = 4%nat -> List.length (net_of a n) = 4%nat.
Proof.
  intros La. unfold net_of, zip_with.
  rewrite length_map, length_combine, La. reflexivity.
Qed.

Lemma max_of_length a n : List.length a = 4%nat -> List.length (max_of a n) = 4%nat.
Proof.
  intros La. unfold max_of, zip_with.
  rewrite length_map, length_combine, (net_of_length a n La). reflexivity.
Qed.

Lemma nonempty_of_length {A : Type} (l : list A) : List.length l = 4%nat -> l <> [].
Proof. now destruct l. Qed.

(** ** A run of the constructor on a well-formed input *)

Lemma init_reads address b a n :
  reads_as address b a n ->
  List.length a = 4%nat -> Forall octet a -> 0 <= n <= 32 ->
  init address = mkOutcome (derived b a n) None.
Proof.
  intros [m [-> [Hb [Ha Hm]]]] La Oa Hn.
  change ("/" ++ m) with (String "/" m).
  pose proof (net_of_length a n La) as LN.
  pose proof (max_of_length a n La) as LH.
  assert (Hw : Forall (fun e => 0 <= e) (wild_of n)).
  { eapply Forall_impl; [|apply wild_of_octets]. unfold octet. intros; lia. }
  unfold init, try_except, try_body.
  rewrite (seq_call_ok _ _ _ _ (index_first _ _ _ Hb)), seq_assign.
  rewrite slice_to_app, slice_from_app.
  rewrite (seq_call_ok _ _ _ _ (calculate_netmask_reads m n Hm Hn)), seq_assign.
  rewrite (seq_call_ok _ _ _ _ (calculate_wildcard_reads m n Hm Hn)), seq_assign.
  erewrite (seq_attr base) by reflexivity.
  rewrite (seq_call_ok _ _ _ _ (address_to_bin_reads b a Ha)), seq_assign.
  erewrite (seq_attr base) by reflexivity.
  erewrite (seq_attr netmask) by reflexivity.
  rewrite (seq_call_ok _ _ _ _
             (network_reads b a (mask_of n) Ha Oa (mask_of_octets n)
                (nonempty_of_length _ (mask_of_length n)))), seq_assign.
  fold (net_of a n).
  erewrite (seq_attr subnet) by reflexivity.
  rewrite (seq_call_ok _ _ _ _ (host_min_dotted _ LN)), seq_assign.
  erewrite (seq_attr subnet) by reflexivity.
  erewrite (seq_attr wildcard) by reflexivity.
  rewrite (seq_call_ok _ _ _ _ (host_max_dotted _ (wild_of n) LN eq_refl)),
    seq_assign.
  fold (max_of a n).
  erewrite (seq_attr wildcard) by reflexivity.
  rewrite (seq_call_ok _ _ _ _ (num_hosts_dotted (wild_of n) eq_refl Hw)),
    seq_assign.
  erewrite (seq_attr hostmax) by reflexivity.
  rewrite (seq_call_ok _ _ _ _ (host_min_dotted _ LH)), seq_assign.
  erewrite (seq_attr hostmin) by reflexivity.
  erewrite (seq_attr hostmax) by reflexivity.
  rewrite (seq_call_ok _ _ _ _
             (get_ip_list_dotted (net_of a n) (max_of a n)
                (nonempty_of_length _ LN) (nonempty_of_length _ LH))).
  reflexivity.
Qed.

(** One statement of the constructor: an assignment, an attribute that
    is set, or a call, whose two outcomes become two goals. *)
Ltac step :=
  first
    [ rewrite seq_assign
    | erewrite seq_attr by reflexivity
    | rewrite seq_call_cases;
      match goal with
      | |- context [match ?r with Ok _ => _ | Raise _ => _ end] => destruct r
      end ];
  cbv beta.

Lemma occurs_join c sep l :
  occurs c sep = false ->
  Forall (fun s => occurs c s = false) l ->
  occurs c (join sep l) = false.
Proof.
  intros Hsep. induction l as [|x [|y t] IH]; intros Hall.
  - reflexivity.
  - now inversion Hall.
  - inversion Hall as [|? ? Hx Ht]; subst.
    change (join sep (x :: y :: t)) with (x ++ sep ++ join sep (y :: t)).
    now rewrite !occurs_app, Hx, Hsep, (IH Ht).
Qed.

(** The canonical text of octets and a prefix length reads as them. *)
Lemma cidr_text_reads (a : list Z) (n : Z) :
  a <> [] -> reads_as (cidr_text a n) (list_to_string a) a n.
Proof.
  intros Hne. exists (str n). repeat split.
  - unfold list_to_string. apply occurs_join; [reflexivity|].
    apply Forall_forall. intros s Hs.
    apply in_map_iff in Hs as [z [<- _]]. now apply occurs_str.
  - now apply parts_dotted.
  - apply int_str.
Qed.

(** ** Addresses as 32-bit words *)

Module Word32Facts.
Import Word32.

(** The bits of a number extended by one octet. *)
Lemma testbit_cat x y i :
  octet y -> 0 <= i ->
  Z.testbit (x * 256 + y) i
  = if i <? 8 then Z.testbit y i else Z.testbit x (i - 8).
Proof.
  unfold octet. intros Hy Hi.
  destruct (Z.ltb_spec i 8) as [Lt|Ge].
  - rewrite <- (Z.mod_pow2_bits_low (x * 256 + y) 8 i) by lia.
    change (2 ^ 8) with 256.
    rewrite Z.add_comm, Z.mod_add by lia.
    now rewrite Z.mod_small by lia.
  - replace i with ((i - 8) + 8) at 1 by lia.
    rewrite <- Z.div_pow2_bits by lia.
    change (2 ^ 8) with 256.
    rewrite Z.add_comm, Z.div_add by lia.
    now rewrite Z.div_small, Z.add_0_l by lia.
Qed.

Lemma octet_bits_high y i : octet y -> 8 <= i -> Z.testbit y i = false.
Proof.
  unfold octet. intros Hy Hi.
  rewrite <- (Z.mod_small y (2 ^ 8)) by (change (2 ^ 8) with 256; lia).
  apply Z.mod_pow2_bits_high. lia.
Qed.

Lemma octet_of_bits y :
  0 <= y -> (forall i, 8 <= i -> Z.testbit y i = false) -> octet y.
Proof.
  intros Hy H. unfold octet. split; [exact Hy|].
  assert (E : y = y mod 2 ^ 8).
  { apply Z.bits_inj'. intros i Hi.
    rewrite Z.testbit_mod_pow2 by lia.
    destruct (Z.ltb_spec i 8); [reflexivity|]. now apply H. }
  pose proof (Z.mod_pos_bound y (2 ^ 8) ltac:(lia)) as B.
  rewrite <- E in B. change (2 ^ 8) with 256 in B. lia.
Qed.

Lemma lor_octet x y : octet x -> octet y -> octet (Z.lor x y).
Proof.
  intros Hx Hy. apply octet_of_bits.
  - apply Z.lor_nonneg. unfold octet in *. lia.
  - intros i Hi.
    now rewrite Z.lor_spec, (octet_bits_high x i Hx Hi), (octet_bits_high y i Hy Hi).
Qed.

Lemma cat_lor x y x' y' :
  octet y -> octet y' ->
  Z.lor (x * 256 + y) (x' * 256 + y') = Z.lor x x' * 256 + Z.lor y y'.
Proof.
  intros Hy Hy'. apply Z.bits_inj'. intros i Hi.
  rewrite Z.lor_spec, !testbit_cat by (try apply lor_octet; assumption).
  destruct (i <? 8); now rewrite Z.lor_spec.
Qed.

Lemma cat_land x y x' y' :
  octet y -> octet y' ->
  Z.land (x * 256 + y) (x' * 256 + y') = Z.land x x' * 256 + Z.land y y'.
Proof.
  intros Hy Hy'. apply Z.bits_inj'. intros i Hi.
  rewrite Z.land_spec, !testbit_cat
    by (try apply land_octet; assumption).
  destruct (i <? 8); now rewrite Z.land_spec.
Qed.

End Word32Facts.

(** ** Ranges and their product *)

Lemma range_cons lo hi : lo < hi -> range lo hi = lo :: range (lo + 1) hi.
Proof.
  intros H. unfold range.
  replace (Z.to_nat (hi - lo)) with (S (Z.to_nat (hi - (lo + 1)))) by lia.
  cbn [List.seq List.map]. f_equal; [lia|].
  rewrite <- seq_shift, map_map.
  apply map_ext. intros k. lia.
Qed.

Lemma range_nil lo hi : hi <= lo -> range lo hi = [].
Proof.
  intros H. unfold range. now replace (Z.to_nat (hi - lo)) with O by lia.
Qed.

Lemma len_range_between lo hi : lo <= hi -> len (range lo hi) = hi - lo.
Proof.
  intros H. unfold len, range. rewrite length_map, length_seq. lia.
Qed.

Lemma range_last lo hi d : lo <= hi -> List.last (range lo (hi + 1)) d = hi.
Proof.
  intros H. unfold range.
  replace (Z.to_nat (hi + 1 - lo)) with (S (Z.to_nat (hi - lo))) by lia.
  rewrite seq_S, map_app. cbn [List.map]. rewrite last_last. lia.
Qed.

Lemma range_sorted lo hi : StronglySorted Z.lt (range lo hi).
Proof.
  remember (Z.to_nat (hi - lo)) as k eqn:Ek.
  revert lo Ek. induction k as [|k IH]; intros lo Ek.
  - rewrite range_nil by lia. constructor.
  - rewrite range_cons by lia. constructor.
    + apply IH. lia.
    + apply Forall_forall. intros z Hz. apply range_spec in Hz. lia.
Qed.

Lemma last_append_any {B : Type} (l1 l2 : list B) (d : B) :
  l2 <> [] -> List.last (l1 ++ l2)%list d = List.last l2 d.
Proof.
  intros H. induction l1 as [|x l1 IH]; [reflexivity|].
  cbn [app]. destruct (l1 ++ l2)%list eqn:E.
  - apply app_eq_nil in E as [_ E]. contradiction.
  - rewrite <- IH. reflexivity.
Qed.

Section Product.
Context {A : Type}.

Lemma len_flat_map {B : Type} (f : A -> list B) (r : list A) (k : Z) :
  (forall x, In x r -> len (f x) = k) -> len (List.flat_map f r) = len r * k.
Proof.
  unfold len. induction r as [|x r IH]; intros H; [reflexivity|].
  cbn [List.flat_map List.length]. rewrite length_app, Nat2Z.inj_add.
  rewrite IH by (intros y Hy; apply H; now right).
  pose proof (H x (or_introl eq_refl)). lia.
Qed.

Lemma len_product (rs : list (list A)) :
  len (product rs) = prod (List.map len rs).
Proof.
  induction rs as [|r rs IH]; [reflexivity|].
  cbn [product List.map prod List.fold_right].
  rewrite (len_flat_map _ r (len (product rs))).
  - now rewrite IH.
  - intros x _. unfold len. now rewrite length_map.
Qed.

Lemma product_nonempty (rs : list (list A)) :
  Forall (fun r => r <> []) rs -> product rs <> [].
Proof.
  induction 1 as [|r rs Hr _ IH]; [discriminate|].
  cbn [product]. destruct r as [|x r]; [contradiction|].
  cbn [List.flat_map]. destruct (product rs); [contradiction|discriminate].
Qed.

(** The first tuple holds the first element of every range. *)
Lemma product_head (rs : list (list A)) (d : A) :
  Forall (fun r => r <> []) rs ->
  List.hd_error (product rs) = Some (List.map (fun r => List.hd d r) rs).
Proof.
  induction 1 as [|r rs Hr Hrs IH]; [reflexivity|].
  cbn [product]. destruct r as [|x r]; [contradiction|].
  cbn [List.flat_map List.map List.hd].
  destruct (product rs) as [|t ts]; [discriminate IH|].
  cbn in IH |- *. now injection IH as ->.
Qed.

Lemma last_flat_map {B : Type} (f : A -> list B) (r : list A) (d : A) (e : B) :
  r <> [] -> (forall x, f x <> []) ->
  List.last (List.flat_map f r) e = List.last (f (List.last r d)) e.
Proof.
  intros Hr Hf. induction r as [|x [|y r] IH]; [contradiction| |].
  - cbn [List.flat_map List.last]. now rewrite app_nil_r.
  - change (List.flat_map f (x :: y :: r))
      with ((f x ++ List.flat_map f (y :: r))%list).
    rewrite last_append_any.
    + rewrite IH by discriminate. reflexivity.
    + cbn [List.flat_map]. specialize (Hf y).
      destruct (f y); [contradiction|discriminate].
Qed.

Lemma last_map {B : Type} (g : A -> B) (l : list A) (d : A) :
  l <> [] -> forall e, List.last (List.map g l) e = g (List.last l d).
Proof.
  induction l as [|x [|y l] IH]; intros Hne e; [contradiction|reflexivity|].
  change (List.last (g x :: List.map g (y :: l)) e = g (List.last (y :: l) d)).
  cbn [List.last List.map] in IH |- *. apply IH. discriminate.
Qed.

End Product.

(** The last tuple holds the last element of every range. *)
Lemma product_last {A : Type} (rs : list (list A)) (d : A) :
  Forall (fun r => r <> []) rs ->
  List.last (product rs) [] = List.map (fun r => List.last r d) rs.
Proof.
  induction 1 as [|r rs Hr Hrs IH]; [reflexivity|].
  cbn [product List.map].
  rewrite (last_flat_map _ r d) .
  - rewrite (last_map (cons (List.last r d)) (product rs) [])
      by now apply product_nonempty.
    now rewrite IH.
  - exact Hr.
  - intros x. pose proof (product_nonempty rs Hrs).
    destruct (product rs); [contradiction|discriminate].
Qed.

(** ** The order of the addresses listed *)

Lemma of_octets_acc (l : list Z) (acc : Z) :
  List.fold_left (fun a x => a * 256 + x) l acc
  = acc * 256 ^ len l + Word32.of_octets l.
Proof.
  unfold Word32.of_octets, len. revert acc.
  induction l as [|x l IH]; intros acc.
  - cbn [List.fold_left List.length]. change (256 ^ Z.of_nat 0) with 1. lia.
  - cbn [List.fold_left List.length].
    rewrite (IH (acc * 256 + x)), (IH (0 * 256 + x)).
    rewrite Nat2Z.inj_succ, Z.pow_succ_r by lia. ring.
Qed.

Lemma of_octets_cons x t :
  Word32.of_octets (x :: t) = x * 256 ^ len t + Word32.of_octets t.
Proof.
  unfold Word32.of_octets at 1. cbn [List.fold_left].
  rewrite of_octets_acc. ring.
Qed.

Lemma of_octets_bound t :
  Forall octet t -> 0 <= Word32.of_octets t < 256 ^ len t.
Proof.
  induction 1 as [|x t Hx Ht IH].
  - cbv. split; [discriminate|reflexivity].
  - rewrite of_octets_cons.
    replace (len (x :: t)) with (Z.succ (len t))
      by (unfold len; cbn [List.length]; lia).
    rewrite Z.pow_succ_r by (unfold len; lia).
    unfold octet in Hx. nia.
Qed.

Lemma sorted_append (l1 l2 : list Z) :
  StronglySorted Z.lt l1 -> StronglySorted Z.lt l2 ->
  (forall x y, In x l1 -> In y l2 -> x < y) ->
  StronglySorted Z.lt (l1 ++ l2)%list.
Proof.
  induction 1 as [|x l1 Hs IH Hx]; intros H2 Hc; [exact H2|].
  cbn [app]. constructor.
  - apply IH; [exact H2|]. intros a b Ha Hb. apply Hc; [now right|exact Hb].
  - apply Forall_app. split; [exact Hx|].
    apply Forall_forall. intros y Hy. apply Hc; [now left|exact Hy].
Qed.

Lemma sorted_shift (c : Z) (l : list Z) :
  StronglySorted Z.lt l -> StronglySorted Z.lt (List.map (fun v => c + v) l).
Proof.
  induction 1 as [|x l Hs IH Hx]; cbn [List.map]; constructor; [exact IH|].
  apply Forall_forall. intros y Hy.
  apply in_map_iff in Hy as [v [<- Hv]].
  rewrite Forall_forall in Hx. specialize (Hx v Hv). lia.
Qed.

(** Every tuple of the product takes its [i]-th element in range [i]. *)
Lemma in_product {A : Type} (rs : list (list A)) (t : list A) :
  In t (product rs) -> Forall2 (fun x r => In x r) t rs.
Proof.
  revert t. induction rs as [|r rs IH]; intros t Ht.
  - destruct Ht as [<-|[]]. constructor.
  - cbn [product] in Ht. apply in_flat_map in Ht as [x [Hx Ht]].
    apply in_map_iff in Ht as [u [<- Hu]].
    constructor; [exact Hx | now apply IH].
Qed.

Lemma in_product_octets (rs : list (list Z)) (t : list Z) :
  Forall (fun r => Forall octet r) rs -> In t (product rs) ->
  len t = len rs /\ Forall octet t.
Proof.
  intros Hrs Ht. apply in_product in Ht.
  induction Ht as [|x r t rs Hx Ht IH].
  - split; [reflexivity|constructor].
  - inversion Hrs as [|? ? Hr Hrs']; subst.
    destruct (IH Hrs') as [L O]. split.
    + unfold len in *. cbn [List.length]. lia.
    + constructor; [|exact O]. rewrite Forall_forall in Hr. now apply Hr.
Qed.

(** Ranges that increase, over octets, list the tuples by increasing
    32-bit value. *)
Lemma product_increasing (rs : list (list Z)) :
  Forall (fun r => StronglySorted Z.lt r) rs ->
  Forall (fun r => Forall octet r) rs ->
  StronglySorted Z.lt (List.map Word32.of_octets (product rs)).
Proof.
  induction rs as [|r rs IH]; intros Hs Ho.
  - cbn. repeat constructor.
  - inversion Hs as [|? ? Hr Hs']; subst.
    inversion Ho as [|? ? Or Ho']; subst.
    specialize (IH Hs' Ho'). cbn [product].
    set (k := len rs).
    assert (E : forall x,
               List.map Word32.of_octets (List.map (cons x) (product rs))
               = List.map (fun v => x * 256 ^ k + v)
                          (List.map Word32.of_octets (product rs))).
    { intros x. rewrite !map_map. apply map_ext_in. intros t Ht.
      rewrite of_octets_cons.
      now destruct (in_product_octets rs t Ho' Ht) as [-> _]. }
    assert (B : forall v, In v (List.map Word32.of_octets (product rs)) ->
                          0 <= v < 256 ^ k).
    { intros v Hv. apply in_map_iff in Hv as [t [<- Ht]].
      destruct (in_product_octets rs t Ho' Ht) as [L O].
      unfold k. rewrite <- L. now apply of_octets_bound. }
    clear Hs Ho Or. induction Hr as [|x r Hr IHr Hx]; [constructor|].
    cbn [List.flat_map]. rewrite map_app. apply sorted_append.
    + rewrite E. now apply sorted_shift.
    + exact IHr.
    + intros u w Hu Hw. rewrite E in Hu.
      apply in_map_iff in Hu as [v [<- Hv]].
      apply in_map_iff in Hw as [t [<- Ht]].
      apply in_flat_map in Ht as [x' [Hx' Ht]].
      assert (Hw : In (Word32.of_octets t)
                      (List.map Word32.of_octets (List.map (cons x') (product rs))))
        by now apply in_map.
      rewrite E in Hw. apply in_map_iff in Hw as [v' [<- Hv']].
      rewrite Forall_forall in Hx. specialize (Hx x' Hx').
      pose proof (B v Hv). pose proof (B v' Hv'). nia.
Qed.

(** ** The derived octets *)

Lemma octets_of_dotted (l : list Z) :
  l <> [] -> octets_of (list_to_string l) = Ok l.
Proof. apply parts_dotted. Qed.

Lemma value_of_dotted (l : list Z) :
  l <> [] -> value_of (list_to_string l) = Ok (Word32.of_octets l).
Proof.
  intros H. unfold value_of. now rewrite parts_dotted.
Qed.

Lemma zip_with_length f l1 l2 :
  List.length l1 = 4%nat -> List.length l2 = 4%nat ->
  List.length (zip_with f l1 l2) = 4%nat.
Proof.
  intros H1 H2. unfold zip_with.
  now rewrite length_map, length_combine, H1, H2.
Qed.

Lemma wild_of_length n : List.length (wild_of n) = 4%nat.
Proof. reflexivity. Qed.

Lemma net_of_octets a n : Forall octet a -> Forall octet (net_of a n).
Proof.
  intros Ha. unfold net_of. generalize (mask_of n), (mask_of_octets n).
  induction Ha as [|x a Hx Ha IH]; intros M HM; [constructor|].
  destruct HM as [|y M Hy HM]; [constructor|].
  constructor; [now apply land_octet | now apply IH].
Qed.

(** Adding the wildcard to the network address octet by octet is their
    bitwise OR octet by octet, and stays within an octet. *)
Lemma max_of_lor a n :
  Forall octet a ->
  max_of a n = zip_with Z.lor (net_of a n) (wild_of n)
  /\ Forall octet (max_of a n)
  /\ zip_with Z.land (net_of a n) (wild_of n)
     = List.map (fun _ => 0) (net_of a n).
Proof.
  intros Ha. unfold max_of, net_of, wild_of.
  generalize (mask_of n), (mask_of_octets n).
  induction Ha as [|x a Hx Ha IH]; intros M HM.
  - repeat split. constructor.
  - destruct HM as [|y M Hy HM]; [repeat split; constructor|].
    destruct (IH M HM) as [E [O D]].
    unfold zip_with in *. cbn [List.map List.combine fst snd].
    repeat split.
    + rewrite E. f_equal. now apply add_is_lor.
    + constructor; [now apply add_octet | exact O].
    + rewrite D. f_equal. now apply masked_disjoint.
Qed.

Lemma net_le_max a n :
  Forall octet a -> Forall2 Z.le (net_of a n) (max_of a n).
Proof.
  intros Ha. unfold max_of, net_of, wild_of.
  generalize (mask_of n), (mask_of_octets n).
  induction Ha as [|x a Hx Ha IH]; intros M HM; [constructor|].
  destruct HM as [|y M Hy HM]; [constructor|].
  unfold zip_with in *. cbn [List.map List.combine fst snd].
  constructor; [|now apply IH].
  unfold octet in Hy. lia.
Qed.

Lemma of_octets_lor (l1 l2 : list Z) :
  List.length l1 = 4%nat -> List.length l2 = 4%nat ->
  Forall octet l1 -> Forall octet l2 ->
  Word32.of_octets (zip_with Z.lor l1 l2)
  = Z.lor (Word32.of_octets l1) (Word32.of_octets l2).
Proof.
  destruct l1 as [|a0 [|a1 [|a2 [|a3 [|]]]]]; try discriminate. intros _.
  destruct l2 as [|b0 [|b1 [|b2 [|b3 [|]]]]]; try discriminate. intros _.
  intros H1 H2.
  inversion H1 as [|? ? A0 T0]; subst. inversion T0 as [|? ? A1 T1]; subst.
  inversion T1 as [|? ? A2 T2]; subst. inversion T2 as [|? ? A3 _]; subst.
  inversion H2 as [|? ? B0 U0]; subst. inversion U0 as [|? ? B1 U1]; subst.
  inversion U1 as [|? ? B2 U2]; subst. inversion U2 as [|? ? B3 _]; subst.
  unfold Word32.of_octets, zip_with.
  cbn [List.combine List.map List.fold_left fst snd].
  rewrite !Word32Facts.cat_lor by assumption.
  reflexivity.
Qed.

(** For a prefix length of 32 the wildcard is zero and the range is one
    address. *)
Lemma max_of_32 a : List.length a = 4%nat -> max_of a 32 = net_of a 32.
Proof.
  destruct a as [|a0 [|a1 [|a2 [|a3 [|]]]]]; try discriminate. intros _.
  unfold max_of, net_of, zip_with.
  change (wild_of 32) with [0; 0; 0; 0].
  change (mask_of 32) with [255; 255; 255; 255].
  cbn [List.combine List.map fst snd].
  now rewrite !Z.add_0_r.
Qed.

(** The length of the list of addresses is the product of the wildcard
    octets plus one. *)
Lemma len_between a n :
  List.length a = 4%nat -> Forall octet a ->
  len (between (net_of a n) (max_of a n))
  = prod (List.map (fun w => w + 1) (wild_of n)).
Proof.
  intros La Oa.
  unfold between. rewrite len_product, map_map.
  unfold max_of, net_of, wild_of.
  generalize (mask_of n), (mask_of_octets n), (mask_of_length n).
  destruct a as [|a0 [|a1 [|a2 [|a3 [|]]]]]; try discriminate.
  intros M HM LM.
  destruct M as [|m0 [|m1 [|m2 [|m3 [|]]]]]; try discriminate.
  inversion HM as [|? ? M0 T0]; subst. inversion T0 as [|? ? M1 T1]; subst.
  inversion T1 as [|? ? M2 T2]; subst. inversion T2 as [|? ? M3 _]; subst.
  unfold zip_with. cbn [List.combine List.map fst snd prod List.fold_right].
  unfold octet in *.
  rewrite !len_range_between by lia.
  ring.
Qed.

Lemma net_of_idem a n : net_of (net_of a n) n = net_of a n.
Proof.
  unfold net_of. generalize (mask_of n). revert a.
  induction a as [|x a IH]; intros M; [reflexivity|].
  destruct M as [|y M]; [reflexivity|].
  unfold zip_with in *. cbn [List.combine List.map fst snd].
  rewrite IH. f_equal.
  now rewrite <- Z.land_assoc, Z.land_diag.
Qed.

Lemma occurs_dotted c (l : list Z) :
  digit_in 10 c = None -> Ascii.eqb "-" c = false -> Ascii.eqb "." c = false ->
  occurs c (list_to_string l) = false.
Proof.
  intros Hd Hs Hp. unfold list_to_string. apply occurs_join.
  - cbn [occurs]. now rewrite Hp.
  - apply Forall_forall. intros s Hin.
    apply in_map_iff in Hin as [z [<- _]]. now apply occurs_str.
Qed.

(** ** The list of addresses *)

Lemma map_flat_map {A B C : Type} (f : B -> C) (g : A -> list B) (l : list A) :
  List.map f (List.flat_map g l) = List.flat_map (fun x => List.map f (g x)) l.
Proof.
  induction l as [|x l IH]; [reflexivity|].
  cbn [List.flat_map]. now rewrite map_app, IH.
Qed.

Lemma flat_map_single {A B : Type} (g : A -> B) (l : list A) :
  List.flat_map (fun x => [g x]) l = List.map g l.
Proof.
  induction l as [|x l IH]; [reflexivity|].
  cbn [List.flat_map List.map app]. now rewrite IH.
Qed.

(** [itertools.product] of four ranges is four nested loops. *)
Lemma product_nested (r0 r1 r2 r3 : list Z) :
  product [r0; r1; r2; r3] = nested_loops r0 r1 r2 r3.
Proof.
  unfold nested_loops. cbn [product].
  apply flat_map_ext. intros x0.
  rewrite map_flat_map. apply flat_map_ext. intros x1.
  rewrite !map_flat_map. apply flat_map_ext. intros x2.
  rewrite !map_flat_map.
  cbn [List.map]. now rewrite flat_map_single.
Qed.

Lemma range_nonempty lo hi : lo <= hi -> range lo (hi + 1) <> [].
Proof. intros H. rewrite range_cons by lia. discriminate. Qed.

Lemma range_head lo hi d : lo <= hi -> List.hd d (range lo (hi + 1)) = lo.
Proof. intros H. now rewrite range_cons by lia. Qed.

(** The list starts at the lower address and ends at the upper one. *)
Lemma between_ends (lo hi : list Z) :
  Forall2 Z.le lo hi ->
  List.hd_error (between lo hi) = Some lo
  /\ List.last (between lo hi) [] = hi.
Proof.
  intros H. unfold between.
  assert (NE : Forall (fun r : list Z => r <> [])
                 (List.map (fun ij : Z * Z => range (fst ij) (snd ij + 1))
                           (List.combine lo hi))).
  { induction H as [|x y lo hi Hxy H IH]; [constructor|].
    cbn [List.combine List.map fst snd].
    constructor; [now apply range_nonempty | exact IH]. }
  rewrite (product_head _ 0 NE), (product_last _ 0 NE), !map_map.
  clear NE. split; [f_equal|];
    (induction H as [|x y lo hi Hxy H IH]; [reflexivity|];
     cbn [List.combine List.map fst snd]; rewrite IH; f_equal).
  - now apply range_head.
  - now apply range_last.
Qed.

(** Between addresses made of octets, the values increase. *)
Lemma between_increasing (lo hi : list Z) :
  Forall octet lo -> Forall octet hi ->
  StronglySorted Z.lt (List.map Word32.of_octets (between lo hi)).
Proof.
  intros Hlo Hhi. unfold between.
  apply product_increasing; apply Forall_forall; intros r Hr;
    apply in_map_iff in Hr as [[x y] [<- Hxy]]; cbn [fst snd].
  - apply range_sorted.
  - apply Forall_forall. intros z Hz. apply range_spec in Hz.
    pose proof (in_combine_l _ _ _ _ Hxy) as Hx.
    pose proof (in_combine_r _ _ _ _ Hxy) as Hy.
    rewrite Forall_forall in Hlo, Hhi.
    specialize (Hlo x Hx). specialize (Hhi y Hy).
    unfold octet in *. lia.
Qed.

Lemma between_nonempty_tuples (lo hi t : list Z) :
  lo <> [] -> hi <> [] -> In t (between lo hi) -> t <> [].
Proof.
  intros Hlo Hhi Ht. unfold between in Ht. apply in_product in Ht.
  destruct lo as [|x lo]; [contradiction|].
  destruct hi as [|y hi]; [contradiction|].
  cbn [List.combine List.map] in Ht. inversion Ht. discriminate.
Qed.

Lemma values_between (lo hi : list Z) :
  lo <> [] -> hi <> [] ->
  mapM value_of (List.map list_to_string (between lo hi))
  = Ok (List.map Word32.of_octets (between lo hi)).
Proof.
  intros Hlo Hhi. rewrite mapM_map. apply mapM_ok.
  intros t Ht. apply value_of_dotted.
  now apply (between_nonempty_tuples lo hi).
Qed.

(** ** The mask as a word *)

Lemma top_bits_spec n i :
  0 <= n <= 32 -> 0 <= i < 32 ->
  Z.testbit (Word32.top_bits n) i = (32 - n <=? i).
Proof.
  intros Hn Hi. unfold Word32.top_bits.
  rewrite Z.shiftl_spec by lia.
  rewrite Z.testbit_ones by lia.
  destruct (Z.leb_spec (32 - n) i), (Z.leb_spec 0 (i - (32 - n))),
    (Z.ltb_spec (i - (32 - n)) n); try reflexivity; lia.
Qed.

Lemma mask_word n :
  0 <= n <= 32 ->
  Word32.of_octets (mask_of n) = Word32.top_bits n
  /\ Word32.of_octets (wild_of n) = Word32.complement (Word32.top_bits n)
  /\ Z.lor (Word32.top_bits n) (Word32.complement (Word32.top_bits n))
     = Z.ones 32.
Proof.
  intros Hn.
  apply (range_forall
           (fun n => Word32.of_octets (mask_of n) = Word32.top_bits n
                     /\ Word32.of_octets (wild_of n)
                        = Word32.complement (Word32.top_bits n)
                     /\ Z.lor (Word32.top_bits n)
                              (Word32.complement (Word32.top_bits n))
                        = Z.ones 32) 0 33); [|lia].
  let l := eval vm_compute in (range 0 33) in change (range 0 33) with l.
  repeat (constructor; [vm_compute; repeat split|]). constructor.
Qed.

(** * The properties of the derived fields *)

Lemma init_well_formed address b a n :
  well_formed address b a n -> init address = mkOutcome (derived b a n) None.
Proof.
  intros [R [L [O N]]]. now apply init_reads.
Qed.

Lemma example_well_formed :
  well_formed "192.168.0.2/24" "192.168.0.2" [192; 168; 0; 2] 24.
Proof.
  split; [|split; [|split]].
  - exists "24". repeat split; reflexivity.
  - reflexivity.
  - unfold octet. repeat constructor; lia.
  - lia.
Defined.

(** C1.  The two worked examples: [192.168.0.2/24] gives Base
    192.168.0.2, Netmask 255.255.255.0, Wildcard 0.0.0.255, Subnet ID
    192.168.0.0, Host min 192.168.0.0, Host max 192.168.0.255, Broadcast
    192.168.0.255 and Total Hosts 256; [10.0.0.5/30] gives Netmask
    255.255.255.252, Wildcard 0.0.0.3, Subnet ID 10.0.0.4, Host max
    10.0.0.7 and Total Hosts 4.  Nothing is printed in either run. *)
Theorem init_examples :
  (let r := init "192.168.0.2/24" in
   printed r = None
   /\ base (obj r) = Some "192.168.0.2"
   /\ netmask (obj r) = Some "255.255.255.0"
   /\ wildcard (obj r) = Some "0.0.0.255"
   /\ subnet (obj r) = Some "192.168.0.0"
   /\ hostmin (obj r) = Some "192.168.0.0"
   /\ hostmax (obj r) = Some "192.168.0.255"
   /\ broadcast (obj r) = Some "192.168.0.255"
   /\ total (obj r) = Some 256)
  /\
  (let r := init "10.0.0.5/30" in
   printed r = None
   /\ netmask (obj r) = Some "255.255.255.252"
   /\ wildcard (obj r) = Some "0.0.0.3"
   /\ subnet (obj r) = Some "10.0.0.4"
   /\ hostmax (obj r) = Some "10.0.0.7"
   /\ total (obj r) = Some 4).
Proof.
  vm_compute. repeat split.
Qed.

(** C2.  On a well-formed input the broadcast field, read as a 32-bit
    value, is the bitwise OR of the values of the subnet field and of
    the wildcard field, and it is the same text as the hostmax field;
    for a prefix length of 32 the subnet, hostmin, hostmax and broadcast
    fields are all the same text. *)
Theorem broadcast_is_or_and_host_max (address b : string) (a : list Z) (n : Z) :
  well_formed address b a n ->
  let o := obj (init address) in
  exists (sb wc bc : string) (vs vw : Z),
    subnet o = Some sb /\ wildcard o = Some wc /\ broadcast o = Some bc
    /\ value_of sb = Ok vs /\ value_of wc = Ok vw
    /\ value_of bc = Ok (Z.lor vs vw)
    /\ hostmax o = Some bc
    /\ (n = 32 -> hostmin o = Some sb /\ bc = sb).
Proof.
  intros W o. subst o. rewrite (init_well_formed _ _ _ _ W).
  destruct W as [_ [La [Oa Hn]]].
  pose proof (net_of_length a n La) as LN.
  pose proof (max_of_length a n La) as LH.
  destruct (max_of_lor a n Oa) as [E [OH _]].
  exists (list_to_string (net_of a n)), (list_to_string (wild_of n)),
         (list_to_string (max_of a n)),
         (Word32.of_octets (net_of a n)), (Word32.of_octets (wild_of n)).
  cbn [obj derived subnet wildcard broadcast hostmax hostmin].
  repeat split.
  - apply value_of_dotted, nonempty_of_length, LN.
  - apply value_of_dotted. discriminate.
  - rewrite value_of_dotted by apply nonempty_of_length, LH.
    rewrite E, of_octets_lor; auto using net_of_octets, wild_of_octets.
  - subst n. now rewrite max_of_32.
Qed.

Lemma broadcast_is_or_and_host_max_witness :
  well_formed "192.168.0.2/24" "192.168.0.2" [192; 168; 0; 2] 24 /\
  let o := obj (init "192.168.0.2/24") in
  exists (sb wc bc : string) (vs vw : Z),
    subnet o = Some sb /\ wildcard o = Some wc /\ broadcast o = Some bc
    /\ value_of sb = Ok vs /\ value_of wc = Ok vw
    /\ value_of bc = Ok (Z.lor vs vw)
    /\ hostmax o = Some bc
    /\ (24 = 32 -> hostmin o = Some sb /\ bc = sb).
Proof.
  split; [exact example_well_formed|].
  exact (broadcast_is_or_and_host_max _ _ _ _ example_well_formed).
Defined.

Lemma cidr_text_well_formed (a : list Z) (n : Z) :
  List.length a = 4%nat -> Forall octet a -> 0 <= n <= 32 ->
  well_formed (cidr_text a n) (list_to_string a) a n.
Proof.
  intros La Oa Hn. repeat split; try assumption; try lia.
  apply cidr_text_reads. now apply nonempty_of_length.
Qed.

(** C3.  On a well-formed input the list of addresses has as many
    elements as the total field says, starts with the hostmin field and
    ends with the hostmax field; it is the list that four nested loops
    produce over the ranges from each octet of hostmin to the same octet
    of hostmax, the first octet in the outermost loop and the fourth in
    the innermost; and the 32-bit values of its elements strictly
    increase. *)
Theorem ip_list_enumeration (address b : string) (a : list Z) (n : Z) :
  well_formed address b a n ->
  let o := obj (init address) in
  exists (L : list string) (T : Z) (lo hi : string)
         (n0 n1 n2 n3 h0 h1 h2 h3 : Z) (vals : list Z),
    allips o = Some L /\ total o = Some T
    /\ hostmin o = Some lo /\ hostmax o = Some hi
    /\ len L = T
    /\ List.hd_error L = Some lo
    /\ List.last L "" = hi
    /\ octets_of lo = Ok [n0; n1; n2; n3]
    /\ octets_of hi = Ok [h0; h1; h2; h3]
    /\ L = List.map list_to_string
             (nested_loops (range n0 (h0 + 1)) (range n1 (h1 + 1))
                           (range n2 (h2 + 1)) (range n3 (h3 + 1)))
    /\ mapM value_of L = Ok vals
    /\ StronglySorted Z.lt vals.
Proof.
  intros W o. subst o. rewrite (init_well_formed _ _ _ _ W).
  destruct W as [_ [La [Oa Hn]]].
  pose proof (net_of_length a n La) as LN.
  pose proof (max_of_length a n La) as LH.
  pose proof (nonempty_of_length _ LN) as NN.
  pose proof (nonempty_of_length _ LH) as NH.
  destruct (max_of_lor a n Oa) as [_ [OH _]].
  pose proof (net_of_octets a n Oa) as ON.
  pose proof (net_le_max a n Oa) as LE.
  pose proof (len_between a n La Oa) as LB.
  pose proof (between_increasing _ _ ON OH) as SB.
  pose proof (values_between _ _ NN NH) as VB.
  pose proof (octets_of_dotted _ NN) as PN.
  pose proof (octets_of_dotted _ NH) as PH.
  destruct (between_ends _ _ LE) as [HD LT].
  assert (NB : between (net_of a n) (max_of a n) <> [])
    by (intros E; rewrite E in HD; discriminate HD).
  cbn [obj derived allips total hostmin hostmax].
  remember (net_of a n) as N eqn:EN. remember (max_of a n) as H eqn:EH.
  destruct N as [|n0 [|n1 [|n2 [|n3 [|]]]]]; try discriminate LN.
  destruct H as [|h0 [|h1 [|h2 [|h3 [|]]]]]; try discriminate LH.
  exists (List.map list_to_string (between [n0; n1; n2; n3] [h0; h1; h2; h3])),
         (prod (List.map (fun w => w + 1) (wild_of n))),
         (list_to_string [n0; n1; n2; n3]), (list_to_string [h0; h1; h2; h3]),
         n0, n1, n2, n3, h0, h1, h2, h3,
         (List.map Word32.of_octets (between [n0; n1; n2; n3] [h0; h1; h2; h3])).
  repeat split; try assumption.
  - unfold len in *. now rewrite length_map.
  - destruct (between [n0; n1; n2; n3] [h0; h1; h2; h3]) as [|t ts];
      [discriminate HD|]. cbn in HD |- *. now injection HD as ->.
  - rewrite (last_map list_to_string _ []) by exact NB. now rewrite LT.
  - unfold between. cbn [List.combine List.map fst snd].
    now rewrite product_nested.
Qed.

Lemma ip_list_enumeration_witness :
  well_formed "192.168.0.2/24" "192.168.0.2" [192; 168; 0; 2] 24 /\
  let o := obj (init "192.168.0.2/24") in
  exists (L : list string) (T : Z) (lo hi : string)
         (n0 n1 n2 n3 h0 h1 h2 h3 : Z) (vals : list Z),
    allips o = Some L /\ total o = Some T
    /\ hostmin o = Some lo /\ hostmax o = Some hi
    /\ len L = T
    /\ List.hd_error L = Some lo
    /\ List.last L "" = hi
    /\ octets_of lo = Ok [n0; n1; n2; n3]
    /\ octets_of hi = Ok [h0; h1; h2; h3]
    /\ L = List.map list_to_string
             (nested_loops (range n0 (h0 + 1)) (range n1 (h1 + 1))
                           (range n2 (h2 + 1)) (range n3 (h3 + 1)))
    /\ mapM value_of L = Ok vals
    /\ StronglySorted Z.lt vals.
Proof.
  split; [exact example_well_formed|].
  exact (ip_list_enumeration _ _ _ _ example_well_formed).
Defined.

(** C4.  For a wildcard text of four octets, each between 0 and 255,
    the host count is the product of the four octets plus one each, and
    it is at least 1; whatever the text, a count that is returned is at
    least 1; the wildcards of the prefix lengths 24, 16, 32 and 0 give
    256, 65536, 1 and 4294967296. *)
Theorem num_hosts_product (w : string) (w0 w1 w2 w3 : Z) :
  octets_of w = Ok [w0; w1; w2; w3] ->
  octet w0 -> octet w1 -> octet w2 -> octet w3 ->
  num_hosts w = Ok ((w0 + 1) * (w1 + 1) * (w2 + 1) * (w3 + 1))
  /\ 1 <= (w0 + 1) * (w1 + 1) * (w2 + 1) * (w3 + 1)
  /\ (forall (s : string) (v : Z), num_hosts s = Ok v -> 1 <= v)
  /\ bind (calculate_wildcard "24") num_hosts = Ok 256
  /\ bind (calculate_wildcard "16") num_hosts = Ok 65536
  /\ bind (calculate_wildcard "32") num_hosts = Ok 1
  /\ bind (calculate_wildcard "0") num_hosts = Ok 4294967296.
Proof.
  intros Hw H0 H1 H2 H3. unfold octet in *.
  split; [|split; [|split; [|repeat split]]].
  - rewrite (num_hosts_reads w [w0; w1; w2; w3] Hw eq_refl)
      by (repeat constructor; lia).
    cbn [List.map prod List.fold_right]. f_equal. ring.
  - nia.
  - intros s v. unfold num_hosts.
    destruct (mapM int (split "." s)) as [l|e]; [|discriminate].
    cbn [bind].
    destruct (reduce_mul _) as [p|e]; [|discriminate].
    cbn [bind]. intros E. injection E as <-.
    destruct (Z.ltb_spec 0 p); lia.
Qed.

Lemma num_hosts_product_witness :
  octets_of "0.0.0.255" = Ok [0; 0; 0; 255]
  /\ octet 0 /\ octet 255
  /\ num_hosts "0.0.0.255" = Ok ((0 + 1) * (0 + 1) * (0 + 1) * (255 + 1)).
Proof.
  assert (Z0 : octet 0) by (unfold octet; lia).
  assert (Z255 : octet 255) by (unfold octet; lia).
  split; [reflexivity|]. split; [exact Z0|]. split; [exact Z255|].
  exact (proj1 (num_hosts_product "0.0.0.255" 0 0 0 255 eq_refl Z0 Z0 Z0 Z255)).
Defined.

Lemma wild_mask_disjoint (M : list Z) :
  Forall octet M ->
  zip_with Z.land (List.map (fun val => 255 - val) M) M
  = List.map (fun _ => 0) M.
Proof.
  induction 1 as [|y M Hy HM IH]; [reflexivity|].
  unfold zip_with in *. cbn [List.map List.combine fst snd].
  rewrite IH. f_equal.
  pose proof (masked_disjoint y y Hy) as D.
  rewrite Z.land_diag in D. now rewrite Z.land_comm.
Qed.

(** C5.  On a well-formed input [host_max] adds the octets of the
    subnet field and of the wildcard field one by one; no sum exceeds
    255, and each sum is the bitwise OR of the two octets, because the
    two share no bit: the subnet octets lie within the netmask octets
    and the wildcard octets outside them.  So each octet of hostmin is
    at most the same octet of hostmax. *)
Theorem host_max_sum_is_or (address b : string) (a : list Z) (n : Z) :
  well_formed address b a n ->
  let o := obj (init address) in
  exists (nm sb wc lo hi : string) (M N W : list Z),
    netmask o = Some nm /\ subnet o = Some sb /\ wildcard o = Some wc
    /\ hostmin o = Some lo /\ hostmax o = Some hi
    /\ octets_of nm = Ok M /\ octets_of sb = Ok N /\ octets_of wc = Ok W
    /\ List.length N = 4%nat /\ List.length W = 4%nat
    /\ host_max sb wc = Ok hi
    /\ octets_of hi = Ok (zip_with Z.add N W)
    /\ Forall (fun s => 0 <= s <= 255) (zip_with Z.add N W)
    /\ zip_with Z.add N W = zip_with Z.lor N W
    /\ zip_with Z.land N W = [0; 0; 0; 0]
    /\ zip_with Z.land N M = N
    /\ zip_with Z.land W M = [0; 0; 0; 0]
    /\ octets_of lo = Ok N
    /\ Forall2 Z.le N (zip_with Z.add N W).
Proof.
  intros W o. subst o. rewrite (init_well_formed _ _ _ _ W).
  destruct W as [_ [La [Oa Hn]]].
  pose proof (net_of_length a n La) as LN.
  pose proof (max_of_length a n La) as LH.
  pose proof (nonempty_of_length _ LN) as NN.
  pose proof (nonempty_of_length _ LH) as NH.
  destruct (max_of_lor a n Oa) as [E [OH D]].
  exists (list_to_string (mask_of n)), (list_to_string (net_of a n)),
         (list_to_string (wild_of n)), (list_to_string (net_of a n)),
         (list_to_string (max_of a n)), (mask_of n), (net_of a n), (wild_of n).
  cbn [obj derived netmask subnet wildcard hostmin hostmax].
  fold (max_of a n).
  repeat split; try reflexivity; try (now apply octets_of_dotted);
    try exact LN; try exact OH; try exact E.
  - now apply host_max_dotted.
  - rewrite D. clear - LN. revert LN.
    destruct (net_of a n) as [|? [|? [|? [|? [|]]]]]; intros LN;
      try discriminate LN. reflexivity.
  - apply net_of_idem.
  - unfold wild_of. now rewrite wild_mask_disjoint by apply mask_of_octets.
  - now apply net_le_max.
Qed.

Lemma host_max_sum_is_or_witness :
  well_formed "192.168.0.2/24" "192.168.0.2" [192; 168; 0; 2] 24 /\
  let o := obj (init "192.168.0.2/24") in
  exists (nm sb wc lo hi : string) (M N W : list Z),
    netmask o = Some nm /\ subnet o = Some sb /\ wildcard o = Some wc
    /\ hostmin o = Some lo /\ hostmax o = Some hi
    /\ octets_of nm = Ok M /\ octets_of sb = Ok N /\ octets_of wc = Ok W
    /\ List.length N = 4%nat /\ List.length W = 4%nat
    /\ host_max sb wc = Ok hi
    /\ octets_of hi = Ok (zip_with Z.add N W)
    /\ Forall (fun s => 0 <= s <= 255) (zip_with Z.add N W)
    /\ zip_with Z.add N W = zip_with Z.lor N W
    /\ zip_with Z.land N W = [0; 0; 0; 0]
    /\ zip_with Z.land N M = N
    /\ zip_with Z.land W M = [0; 0; 0; 0]
    /\ octets_of lo = Ok N
    /\ Forall2 Z.le N (zip_with Z.add N W).
Proof.
  split; [exact example_well_formed|].
  exact (host_max_sum_is_or _ _ _ _ example_well_formed).
Defined.

(** Once the masks are assigned, the rest of the constructor leaves them
    as they are, whatever the address part is. *)
Lemma init_masks (b m nm wc : string) :
  occurs "/" b = false ->
  calculate_netmask m = Ok nm -> calculate_wildcard m = Ok wc ->
  netmask (obj (init (b ++ "/" ++ m))) = Some nm
  /\ wildcard (obj (init (b ++ "/" ++ m))) = Some wc.
Proof.
  intros Hb Hnm Hwc.
  change ("/" ++ m) with (String "/" m).
  assert (H : exists o e,
             init (b ++ String "/" m) = mkOutcome o e
             /\ netmask o = Some nm /\ wildcard o = Some wc).
  { unfold init, try_except, try_body.
    rewrite (seq_call_ok _ _ _ _ (index_first _ _ _ Hb)), seq_assign.
    rewrite slice_to_app, slice_from_app.
    rewrite (seq_call_ok _ _ _ _ Hnm), seq_assign.
    rewrite (seq_call_ok _ _ _ _ Hwc), seq_assign.
    repeat step; unfold assign;
      eexists; eexists; (split; [reflexivity|]); split; reflexivity. }
  destruct H as [o [e [-> [H1 H2]]]]. split; assumption.
Qed.

(** C6.  For a prefix length [n] between 0 and 32 the netmask text,
    read as a 32-bit value, has exactly its [n] highest bits set; the
    wildcard text is its complement within 32 bits, octet by octet 255
    minus the netmask octet; the OR of the two is all ones; and the
    constructor assigns these two texts whatever the address part of
    the input is. *)
Theorem masks_of_prefix (m : string) (n : Z) :
  int m = Ok n -> 0 <= n <= 32 ->
  exists (nm wc : string) (vm vw : Z) (M : list Z),
    calculate_netmask m = Ok nm /\ calculate_wildcard m = Ok wc
    /\ value_of nm = Ok vm /\ value_of wc = Ok vw
    /\ 0 <= vm < 2 ^ 32
    /\ (forall i, 0 <= i < 32 -> Z.testbit vm i = (32 - n <=? i))
    /\ vw = Word32.complement vm
    /\ Z.lor vm vw = Z.ones 32
    /\ octets_of nm = Ok M
    /\ octets_of wc = Ok (List.map (fun val => 255 - val) M)
    /\ (forall b : string, occurs "/" b = false ->
          netmask (obj (init (b ++ "/" ++ m))) = Some nm
          /\ wildcard (obj (init (b ++ "/" ++ m))) = Some wc).
Proof.
  intros Hm Hn.
  destruct (mask_word n Hn) as [EM [EW EL]].
  pose proof (calculate_netmask_reads m n Hm Hn) as Hnm.
  pose proof (calculate_wildcard_reads m n Hm Hn) as Hwc.
  exists (list_to_string (mask_of n)), (list_to_string (wild_of n)),
         (Word32.top_bits n), (Word32.complement (Word32.top_bits n)),
         (mask_of n).
  split; [exact Hnm|]. split; [exact Hwc|].
  split; [rewrite <- EM; apply value_of_dotted; discriminate|].
  split; [rewrite <- EW; apply value_of_dotted; discriminate|].
  split.
  { rewrite <- EM.
    pose proof (of_octets_bound (mask_of n) (mask_of_octets n)) as B.
    change (256 ^ len (mask_of n)) with (2 ^ 32) in B. exact B. }
  split; [intros i Hi; now apply top_bits_spec|].
  split; [reflexivity|].
  split; [exact EL|].
  split; [apply octets_of_dotted; discriminate|].
  split; [apply (octets_of_dotted (wild_of n)); discriminate|].
  intros b Hb. now apply init_masks.
Qed.

Lemma masks_of_prefix_witness :
  int "30" = Ok 30 /\ 0 <= 30 <= 32 /\
  exists (nm wc : string) (vm vw : Z) (M : list Z),
    calculate_netmask "30" = Ok nm /\ calculate_wildcard "30" = Ok wc
    /\ value_of nm = Ok vm /\ value_of wc = Ok vw
    /\ 0 <= vm < 2 ^ 32
    /\ (forall i, 0 <= i < 32 -> Z.testbit vm i = (32 - 30 <=? i))
    /\ vw = Word32.complement vm
    /\ Z.lor vm vw = Z.ones 32
    /\ octets_of nm = Ok M
    /\ octets_of wc = Ok (List.map (fun val => 255 - val) M)
    /\ (forall b : string, occurs "/" b = false ->
          netmask (obj (init (b ++ "/" ++ "30"))) = Some nm
          /\ wildcard (obj (init (b ++ "/" ++ "30"))) = Some wc).
Proof.
  split; [reflexivity|]. split; [lia|].
  exact (masks_of_prefix "30" 30 eq_refl ltac:(lia)).
Defined.

(** C7.  On a well-formed input the subnet field is the text of
    [network] applied to the base and netmask fields; applying
    [network] to the subnet field and the same netmask gives the same
    octets again, and constructing from the subnet field with the same
    prefix length gives the same subnet field. *)
Theorem network_idempotent (address b : string) (a : list Z) (n : Z) :
  well_formed address b a n ->
  let o := obj (init address) in
  exists (nm sb : string) (N : list Z),
    base o = Some b /\ netmask o = Some nm /\ subnet o = Some sb
    /\ network b nm = Ok N
    /\ sb = list_to_string N
    /\ network sb nm = Ok N
    /\ (forall m : string, int m = Ok n ->
          subnet (obj (init (sb ++ "/" ++ m))) = Some sb).
Proof.
  intros W o. subst o. rewrite (init_well_formed _ _ _ _ W).
  destruct W as [[m0 [_ [_ [Ha _]]]] [La [Oa Hn]]].
  pose proof (net_of_length a n La) as LN.
  pose proof (nonempty_of_length _ LN) as NN.
  pose proof (net_of_octets a n Oa) as ON.
  pose proof (nonempty_of_length _ (mask_of_length n)) as NM.
  exists (list_to_string (mask_of n)), (list_to_string (net_of a n)), (net_of a n).
  cbn [obj derived base netmask subnet].
  repeat split.
  - now apply network_reads; try apply mask_of_octets.
  - rewrite (network_reads _ (net_of a n)); try assumption.
    + fold (net_of (net_of a n) n). now rewrite net_of_idem.
    + now apply parts_dotted.
    + apply mask_of_octets.
  - intros m Hm.
    rewrite (init_reads _ (list_to_string (net_of a n)) (net_of a n) n);
      try assumption.
    + cbn [obj derived subnet]. now rewrite net_of_idem.
    + exists m. repeat split; try assumption.
      * now apply occurs_dotted.
      * now apply parts_dotted.
Qed.

Lemma network_idempotent_witness :
  well_formed "192.168.0.2/24" "192.168.0.2" [192; 168; 0; 2] 24 /\
  let o := obj (init "192.168.0.2/24") in
  exists (nm sb : string) (N : list Z),
    base o = Some "192.168.0.2" /\ netmask o = Some nm /\ subnet o = Some sb
    /\ network "192.168.0.2" nm = Ok N
    /\ sb = list_to_string N
    /\ network sb nm = Ok N
    /\ (forall m : string, int m = Ok 24 ->
          subnet (obj (init (sb ++ "/" ++ m))) = Some sb).
Proof.
  split; [exact example_well_formed|].
  exact (network_idempotent _ _ _ _ example_well_formed).
Defined.

(** ** Failures *)

(** *** The statements of [try:] one by one *)

Lemma seq_assoc {A B C : Type} (m : stmt A) (k1 : A -> stmt B)
      (k2 : B -> stmt C) (self : CIDR) :
  seq (seq m k1) k2 self = seq m (fun x => seq (k1 x) k2) self.
Proof. unfold seq. now destruct (m self) as [s [a|e]]. Qed.

Lemma seq_ext {A B : Type} (m : stmt A) (k k' : A -> stmt B) (self : CIDR) :
  (forall x s, k x s = k' x s) -> seq m k self = seq m k' self.
Proof.
  intros H. unfold seq. destruct (m self) as [s [a|e]]; [apply H|reflexivity].
Qed.

(** The body of [try:] is [index = address.index('/')] followed by the
    ten assignments. *)
Lemma try_body_statements (address : string) (self : CIDR) :
  try_body address self
  = (index <~ call (Py.index "/" address) ;; run (assignments address index)) self.
Proof.
  unfold try_body. apply seq_ext. intros index s.
  unfold assignments. cbv zeta. cbn [run].
  repeat (try rewrite !seq_assoc; apply seq_ext; intros).
  reflexivity.
Qed.

(** A run stops at the first statement that raises: the statements
    before it have run, the ones after it have not. *)
Lemma run_stops (body : list (stmt unit)) (self : CIDR) :
  exists (k : nat) (o : CIDR),
    (k <= List.length body)%nat
    /\ run (List.firstn k body) self = (o, Ok tt)
    /\ match List.nth_error body k with
       | Some failing =>
           exists o' e, failing o = (o', Raise e) /\ run body self = (o', Raise e)
       | None => run body self = (o, Ok tt)
       end.
Proof.
  revert self. induction body as [|s body IH]; intros self.
  - exists 0%nat, self. repeat split. apply Nat.le_refl.
  - destruct (s self) as [self' [[]|e]] eqn:E.
    + destruct (IH self') as [k [o [Hk [Hr Hn]]]].
      exists (S k), o. split; [cbn [List.length]; lia|]. split.
      * cbn [List.firstn run]. unfold seq. rewrite E. exact Hr.
      * cbn [List.nth_error]. destruct (List.nth_error body k).
        -- destruct Hn as [o' [e [H1 H2]]]. exists o', e. split; [exact H1|].
           cbn [run]. unfold seq. rewrite E. exact H2.
        -- cbn [run]. unfold seq. now rewrite E.
    + exists 0%nat, self. split; [lia|]. split; [reflexivity|].
      cbn [List.nth_error]. exists self', e. split; [exact E|].
      cbn [run]. unfold seq. now rewrite E.
Qed.

(** An assignment whose right-hand side raises assigns nothing. *)
Lemma failing_assignment_keeps_object (address : string) (index : nat)
      (s : stmt unit) (o o' : CIDR) (e : exn) :
  In s (assignments address index) -> s o = (o', Raise e) -> o' = o.
Proof.
  unfold assignments. cbv zeta. cbn [In].
  intros H E.
  repeat (destruct H as [H|H]; [subst s; revert E|]); try contradiction;
    unfold seq, call, assign, attr;
    repeat match goal with
           | |- context [match ?x with Some _ => _ | None => _ end] => destruct x
           | |- context [match ?x with Ok _ => _ | Raise _ => _ end] => destruct x
           end;
    intros E; try discriminate E; now injection E.
Qed.

(** One statement of a run: as [step], for statements that are
    themselves sequences. *)
Ltac run_step := first [ rewrite seq_assoc | step ].

(** After the first [k] assignments, the first [k] attributes are set
    and no others. *)
Lemma populated_prefix (address : string) (index k : nat) (o : CIDR) :
  (k <= 10)%nat ->
  run (List.firstn k (assignments address index)) fresh = (o, Ok tt) ->
  populated o = (List.repeat true k ++ List.repeat false (10 - k))%list.
Proof.
  intros Hk.
  do 11 (destruct k as [|k];
         [ clear Hk; unfold assignments; cbv zeta; cbn [List.firstn run];
           repeat run_step;
           intros E; try discriminate E; injection E as <-; reflexivity | ]).
  lia.
Qed.

(** C9, as the code behaves.  The body of [try:] is the search for the
    slash followed by ten assignments, to base, netmask, wildcard,
    binBase, subnet, hostmin, hostmax, total, broadcast and allips.
    For every input text: when the search raises, the exception is
    printed and no attribute is set; otherwise the first [k]
    assignments run, and the object the constructor leaves is the one
    they have made, with exactly the first [k] attributes set.  Either
    [k] is 10 and nothing is printed, or assignment [k] raises in that
    object, assigns nothing, and its exception is the one printed.
    Nothing is undone and no later assignment runs. *)
Theorem init_stops_at_first_failure (address : string) :
  (forall self : CIDR,
     try_body address self
     = (index <~ call (Py.index "/" address) ;;
        run (assignments address index)) self)
  /\
  match Py.index "/" address with
  | Raise e => init address = mkOutcome fresh (Some e)
  | Ok index =>
      exists (k : nat) (o : CIDR),
        (k <= 10)%nat
        /\ run (List.firstn k (assignments address index)) fresh = (o, Ok tt)
        /\ populated o = (List.repeat true k ++ List.repeat false (10 - k))%list
        /\ match List.nth_error (assignments address index) k with
           | Some failing =>
               exists e : exn,
                 failing o = (o, Raise e)
                 /\ init address = mkOutcome o (Some e)
           | None => k = 10%nat /\ init address = mkOutcome o None
           end
  end.
Proof.
  split; [intros self; apply try_body_statements|].
  unfold init, try_except. rewrite try_body_statements, seq_call_cases.
  destruct (Py.index "/" address) as [index|e]; [|reflexivity].
  destruct (run_stops (assignments address index) fresh) as [k [o [Hk [Hr Hn]]]].
  change (List.length (assignments address index)) with 10%nat in Hk.
  exists k, o. split; [exact Hk|]. split; [exact Hr|].
  split; [exact (populated_prefix address index k o Hk Hr)|].
  destruct (List.nth_error (assignments address index) k) as [s|] eqn:En.
  - destruct Hn as [o' [e [H1 H2]]].
    assert (o' = o)
      by (apply (failing_assignment_keeps_object address index s o o' e);
          [exact (nth_error_In _ _ En) | exact H1]).
    subst o'. exists e. split; [exact H1|]. now rewrite H2.
  - apply nth_error_None in En.
    change (List.length (assignments address index)) with 10%nat in En.
    split; [lia|]. now rewrite Hn.
Qed.

(** C9, as the claim has it, fails: after [1.2.3/24] the object has its
    first five attributes and no others, and after [1.2.3.4/x] only its
    base; an exception was printed in both runs. *)
Lemma partial_object_after_failure :
  (let r := init "1.2.3/24" in
   printed r = Some IndexError
   /\ base (obj r) = Some "1.2.3"
   /\ netmask (obj r) = Some "255.255.255.0"
   /\ wildcard (obj r) = Some "0.0.0.255"
   /\ subnet (obj r) = Some "1.2.3"
   /\ hostmin (obj r) = None /\ hostmax (obj r) = None
   /\ total (obj r) = None /\ broadcast (obj r) = None
   /\ allips (obj r) = None)
  /\
  (let r := init "1.2.3.4/x" in
   printed r = Some ValueError
   /\ base (obj r) = Some "1.2.3.4"
   /\ populated (obj r)
      = [true; false; false; false; false; false; false; false; false; false]).
Proof.
  vm_compute. repeat split.
Qed.

(** After such a failure [__str__] cannot build its table: reading the
    first attribute that is unset raises. *)
Lemma rows_of_partial_object :
  snd (rows (obj (init "1.2.3.4/x"))) = Raise AttributeError
  /\ snd (rows (obj (init "1.2.3/24"))) = Raise AttributeError.
Proof.
  vm_compute. split; reflexivity.
Qed.

(** C10, as the code behaves.  On a well-formed input [get_ip_list]
    returns the complete list of the addresses from hostmin to hostmax,
    as many as the total field says; the constructor calls it once and
    keeps the list in the attribute [allips]. *)
Theorem ip_list_eager (address b : string) (a : list Z) (n : Z) :
  well_formed address b a n ->
  let o := obj (init address) in
  exists (lo hi : string) (T : Z) (L : list string),
    hostmin o = Some lo /\ hostmax o = Some hi /\ total o = Some T
    /\ get_ip_list lo hi = Ok L
    /\ len L = T
    /\ allips o = Some L.
Proof.
  intros W o. subst o. rewrite (init_well_formed _ _ _ _ W).
  destruct W as [_ [La [Oa Hn]]].
  pose proof (nonempty_of_length _ (net_of_length a n La)) as NN.
  pose proof (nonempty_of_length _ (max_of_length a n La)) as NH.
  exists (list_to_string (net_of a n)), (list_to_string (max_of a n)),
         (prod (List.map (fun w => w + 1) (wild_of n))),
         (List.map list_to_string (between (net_of a n) (max_of a n))).
  cbn [obj derived hostmin hostmax total allips].
  repeat split.
  - now apply get_ip_list_dotted.
  - rewrite <- (len_between a n La Oa). unfold len. now rewrite length_map.
Qed.

Lemma ip_list_eager_witness :
  well_formed "192.168.0.2/24" "192.168.0.2" [192; 168; 0; 2] 24 /\
  let o := obj (init "192.168.0.2/24") in
  exists (lo hi : string) (T : Z) (L : list string),
    hostmin o = Some lo /\ hostmax o = Some hi /\ total o = Some T
    /\ get_ip_list lo hi = Ok L
    /\ len L = T
    /\ allips o = Some L.
Proof.
  split; [exact example_well_formed|].
  exact (ip_list_eager _ _ _ _ example_well_formed).
Defined.

(** C10, as the claim has it, fails: after [10.0.0.5/30] the object
    holds the whole list of the four addresses in its attribute
    [allips], built by the constructor before any traversal. *)
Lemma ip_list_is_stored_whole :
  allips (obj (init "10.0.0.5/30"))
  = Some ["10.0.0.4"; "10.0.0.5"; "10.0.0.6"; "10.0.0.7"]
  /\ total (obj (init "10.0.0.5/30")) = Some 4.
Proof.
  vm_compute. split; reflexivity.
Qed.

(** * Further properties of the code *)

(** ** Binary text of any integer *)

Lemma scan2_one t v : scan 2 (String "1" t) v false = scan 2 t (v * 2 + 1) false.
Proof. reflexivity. Qed.

Lemma scan2_zero t v : scan 2 (String "0" t) v false = scan 2 t (v * 2 + 0) false.
Proof. reflexivity. Qed.

(** Reading the binary digits of [p] shifts the value read so far and
    adds [p]. *)
Lemma scan2_bits p tail v :
  scan 2 (bits p tail) v false
  = scan 2 tail (v * 2 ^ Z.of_nat (Pos.size_nat p) + Z.pos p) false.
Proof.
  revert tail v. induction p as [q IH|q IH|]; intros tail v;
    cbn [bits Pos.size_nat].
  - rewrite IH, scan2_one. f_equal.
    rewrite Nat2Z.inj_succ, Z.pow_succ_r by lia. lia.
  - rewrite IH, scan2_zero. f_equal.
    rewrite Nat2Z.inj_succ, Z.pow_succ_r by lia. lia.
  - rewrite scan2_one. f_equal.
Qed.

(** The first binary digit of a positive number is 1. *)
Lemma bits_head p tail : exists r, bits p tail = String "1" r.
Proof.
  revert tail. induction p as [q IH|q IH|]; intros tail; cbn [bits].
  - apply IH.
  - apply IH.
  - now exists tail.
Qed.

Lemma bits_length p tail :
  String.length (bits p tail) = (Pos.size_nat p + String.length tail)%nat.
Proof.
  revert tail. induction p as [q IH|q IH|]; intros tail;
    cbn [bits Pos.size_nat]; try rewrite IH; cbn [String.length]; lia.
Qed.

(** Zeros on the left up to eight characters do not change what
    [int(s, 2)] reads. *)
Lemma parse2_padded r :
  parse_int 2 (zfill 8 (String "1" r))
  = match scan 2 r 1 false with Some v => Some v | None => None end.
Proof.
  unfold zfill.
  remember (8 - String.length (String "1" r))%nat as k eqn:Ek.
  assert (Hk : (k <= 7)%nat) by (cbn [String.length] in Ek; lia).
  clear Ek.
  do 8 (destruct k as [|k]; [reflexivity|]). lia.
Qed.

(** [int(bin(z)[2:].zfill(8), 2) == z] for every [z] that is not
    negative, however large. *)
Lemma int2_bin8_nonneg z : 0 <= z -> int2 (bin8 z) = Ok z.
Proof.
  intros Hz. destruct z as [|p|p]; [reflexivity| |lia].
  unfold int2, bin8.
  change (slice_from 2 (bin (Z.pos p))) with (bits p "").
  destruct (bits_head p "") as [r Hr].
  pose proof (scan2_bits p "" 0) as S. rewrite Hr, scan2_one in S.
  rewrite Hr, parse2_padded.
  change (0 * 2 + 1) with 1 in S. rewrite S.
  cbn [scan]. now rewrite Z.mul_0_l, Z.add_0_l.
Qed.

(** The binary text of a negative number starts with [b], the rest of
    the prefix that [[2:]] leaves; after padding only a text of seven
    characters reads as a number. *)
Lemma parse2_padded_b r :
  parse_int 2 (zfill 8 (String "b" r))
  = if (String.length r =? 6)%nat
    then parse_int 2 (String "0" (String "b" r))
    else None.
Proof.
  unfold zfill.
  remember (8 - String.length (String "b" r))%nat as k eqn:Ek.
  cbn [String.length] in Ek.
  destruct (Nat.eqb_spec (String.length r) 6) as [E|E].
  - now replace k with 1%nat by lia.
  - assert (Hk : (k <= 7)%nat /\ k <> 1%nat) by lia. clear Ek.
    destruct Hk as [Hk H1].
    destruct k as [|k]; [reflexivity|].
    destruct k as [|k]; [contradiction|].
    do 6 (destruct k as [|k]; [reflexivity|]). lia.
Qed.

Lemma size_nat_six p : Pos.size_nat p = 6%nat <-> (32 <= p < 64)%positive.
Proof.
  split.
  - intros H.
    do 6 (destruct p as [p|p|]; cbn [Pos.size_nat] in H; try discriminate H;
          try (injection H as H)); try lia;
      destruct p; discriminate H.
  - intros H.
    do 6 (destruct p as [p|p|]; try lia); reflexivity.
Qed.

(** A negative octet is refused by [int(s, 2)], except from -63 to -32,
    which read as their absolute values. *)
Lemma int2_bin8_negative p :
  int2 (bin8 (Z.neg p))
  = if ((32 <=? p) && (p <? 64))%positive then Ok (Z.pos p) else Raise ValueError.
Proof.
  unfold int2, bin8.
  change (slice_from 2 (bin (Z.neg p))) with (String "b" (bits p "")).
  rewrite parse2_padded_b, bits_length. cbn [String.length].
  rewrite Nat.add_0_r.
  pose proof (size_nat_six p) as S.
  destruct (Nat.eqb_spec (Pos.size_nat p) 6) as [E|E].
  - replace ((32 <=? p) && (p <? 64))%positive with true
      by (symmetry; apply andb_true_iff; split;
          [apply Pos.leb_le | apply Pos.ltb_lt]; apply S in E; lia).
    destruct (bits_head p "") as [r Hr].
    pose proof (scan2_bits p "" 0) as B. rewrite Hr, scan2_one in B.
    rewrite Hr.
    change (parse_int 2 (String "0" (String "b" (String "1" r))))
      with (match scan 2 r 1 false with Some v => Some v | None => None end).
    change (0 * 2 + 1) with 1 in B. rewrite B.
    cbn [scan]. now rewrite Z.mul_0_l, Z.add_0_l.
  - replace ((32 <=? p) && (p <? 64))%positive with false; [reflexivity|].
    symmetry. apply andb_false_iff.
    destruct (Pos.leb_spec 32 p); [|now left].
    destruct (Pos.ltb_spec p 64); [|now right].
    exfalso. apply E, S. lia.
Qed.

(** ** The methods on lists of any length *)

Lemma set_item_same {A : Type} (i : nat) (x : A) (l : list A) :
  List.nth_error l i = Some x -> set_item i x l = l.
Proof.
  revert i. induction l as [|y l IH]; intros [|i] H; try discriminate H.
  - cbn in H |- *. now injection H as ->.
  - cbn in H |- *. now rewrite (IH i H).
Qed.

Lemma nth_error_some {A : Type} (l : list A) (i : nat) :
  (i < List.length l)%nat -> exists x, List.nth_error l i = Some x.
Proof.
  intros H. destruct (List.nth_error l i) as [x|] eqn:E; [now exists x|].
  apply nth_error_None in E. lia.
Qed.

Lemma list_to_string_text (L : list string) : list_to_string L = join "." L.
Proof.
  unfold list_to_string. f_equal.
  rewrite <- (map_id L) at 2. now apply map_ext.
Qed.

Lemma host_min_long (l : list Z) :
  (4 <= List.length l)%nat -> host_min (list_to_string l) = Ok (list_to_string l).
Proof.
  intros L. unfold host_min.
  rewrite split_dotted by (destruct l; [cbn in L; lia | discriminate]).
  destruct (nth_error_some l 3 ltac:(lia)) as [z Hz].
  rewrite (map_nth_error str 3 l Hz). rewrite int_str. cbn [bind].
  rewrite set_item_same by (now apply map_nth_error).
  now rewrite list_to_string_text.
Qed.

Lemma host_min_short (l : list Z) :
  l <> [] -> (List.length l < 4)%nat ->
  host_min (list_to_string l) = Raise IndexError.
Proof.
  intros Hne L. unfold host_min. rewrite split_dotted by exact Hne.
  assert (E : List.nth_error (List.map str l) 3 = None)
    by (apply nth_error_None; rewrite length_map; lia).
  now rewrite E.
Qed.

Lemma host_max_long (l w : list Z) :
  l <> [] -> (4 <= List.length w)%nat ->
  host_max (list_to_string l) (list_to_string w)
  = Ok (list_to_string (zip_with Z.add l w)).
Proof.
  intros Hl L. unfold host_max.
  rewrite (split_dotted l) by exact Hl.
  rewrite (split_dotted w) by (destruct w; [cbn in L; lia | discriminate]).
  destruct (nth_error_some w 3 ltac:(lia)) as [z Hz].
  rewrite (map_nth_error str 3 w Hz). rewrite int_str. cbn [bind].
  rewrite set_item_same by (now apply map_nth_error).
  rewrite !mapM_int_str. reflexivity.
Qed.

Lemma fold_left_mul (l : list Z) (x : Z) :
  List.fold_left Z.mul l x = x * prod l.
Proof.
  revert x. induction l as [|y l IH]; intros x;
    cbn [List.fold_left prod List.fold_right].
  - lia.
  - rewrite IH. fold (prod l). ring.
Qed.

Lemma prod_positive (l : list Z) : Forall (fun e => 0 < e) l -> 0 < prod l.
Proof.
  induction 1 as [|x l Hx Hl IH]; cbn [prod List.fold_right]; [lia|].
  fold (prod l). nia.
Qed.

Lemma num_hosts_any (w : list Z) :
  w <> [] -> Forall (fun e => 0 <= e) w ->
  num_hosts (list_to_string w) = Ok (prod (List.map (fun e => e + 1) w)).
Proof.
  intros Hne H. unfold num_hosts. rewrite parts_dotted by exact Hne.
  cbn [bind].
  assert (E : List.map (fun e => len (range 0 (e + 1))) w
              = List.map (fun e => e + 1) w).
  { apply map_ext_in. intros e He. apply len_range.
    rewrite Forall_forall in H. now apply H. }
  rewrite E.
  assert (P : 0 < prod (List.map (fun e => e + 1) w)).
  { apply prod_positive. apply Forall_forall. intros e He.
    apply in_map_iff in He as [x [<- Hx]].
    rewrite Forall_forall in H. specialize (H x Hx). lia. }
  destruct w as [|x w]; [contradiction|].
  cbn [List.map reduce_mul bind]. rewrite fold_left_mul.
  cbn [List.map prod List.fold_right] in P |- *.
  fold (prod (List.map (fun e => e + 1) w)) in P |- *.
  now replace (0 <? (x + 1) * prod (List.map (fun e => e + 1) w)) with true
    by (symmetry; now apply Z.ltb_lt).
Qed.

Lemma int2_bin8_accepted z : accepted z -> int2 (bin8 z) = Ok (Z.abs z).
Proof.
  intros [H|H].
  - rewrite (int2_bin8_nonneg z H). f_equal. lia.
  - destruct z as [|p|p]; try lia.
    rewrite int2_bin8_negative.
    replace ((32 <=? p) && (p <? 64))%positive with true; [reflexivity|].
    symmetry. apply andb_true_iff. split; [apply Pos.leb_le | apply Pos.ltb_lt]; lia.
Qed.

Lemma land_with_octet x y : octet y -> octet (Z.land x y).
Proof.
  intros Hy. rewrite Z.land_comm.
  apply Word32Facts.octet_of_bits.
  - apply Z.land_nonneg. unfold octet in Hy. lia.
  - intros i Hi. rewrite Z.land_spec.
    now rewrite (Word32Facts.octet_bits_high y i Hy Hi).
Qed.

Lemma zip_land_octets (a M : list Z) :
  Forall octet M -> Forall octet (zip_with Z.land a M).
Proof.
  intros HM. revert a. induction HM as [|y M Hy HM IH]; intros [|x a];
    try constructor.
  - now apply land_with_octet.
  - apply IH.
Qed.

Lemma network_any b (a M : list Z) :
  mapM int (split "." b) = Ok a ->
  Forall accepted a -> Forall octet M -> M <> [] ->
  network b (list_to_string M) = Ok (zip_with Z.land (List.map Z.abs a) M).
Proof.
  intros Hb Ha HM Hne. unfold network.
  rewrite (address_to_bin_reads b a Hb).
  rewrite (address_to_bin_reads _ M (parts_dotted M Hne)).
  cbn [bind].
  assert (E : mapM (fun ab : string * string =>
                      x <- int2 (fst ab) ;; y <- int2 (snd ab) ;; Ok (bin8 (Z.land x y)))
                   (List.combine (List.map bin8 a) (List.map bin8 M))
              = Ok (List.map bin8 (zip_with Z.land (List.map Z.abs a) M))).
  { clear Hb Hne. revert M HM.
    induction Ha as [|x a Hx Ha IH]; intros M HM; [reflexivity|].
    destruct HM as [|y M Hy HM]; [reflexivity|].
    cbn [List.map List.combine mapM fst snd zip_with].
    rewrite (int2_bin8_accepted x Hx), (int2_bin8 y Hy). cbn [bind].
    fold (zip_with Z.land (List.map Z.abs a) M).
    now rewrite (IH M HM). }
  rewrite E. cbn [bind].
  apply bin_to_address_bin8. now apply zip_land_octets.
Qed.

Lemma zip_with_len f (l1 l2 : list Z) :
  List.length (zip_with f l1 l2) = Nat.min (List.length l1) (List.length l2).
Proof. unfold zip_with. now rewrite length_map, length_combine. Qed.

(** ** A run of [try:] from any object *)

Lemma seq_call_raise {A B : Type} (r : result A) (k : A -> stmt B)
      (self : CIDR) (e : exn) :
  r = Raise e -> seq (call r) k self = (self, Raise e).
Proof. intros ->. reflexivity. Qed.

Lemma abs_nonneg (a : list Z) :
  Forall (fun z => 0 <= z) a -> List.map Z.abs a = a.
Proof.
  induction 1 as [|x a Hx Ha IH]; [reflexivity|].
  cbn [List.map]. rewrite IH. f_equal. lia.
Qed.

Lemma try_except_accepts (b m : string) (a M : list Z) (self : CIDR) :
  occurs "/" b = false ->
  mapM int (split "." b) = Ok a ->
  Forall accepted a -> (4 <= List.length a)%nat ->
  calculate_netmask m = Ok (list_to_string M) ->
  calculate_wildcard m = Ok (list_to_string (List.map (fun val => 255 - val) M)) ->
  Forall octet M -> (4 <= List.length M)%nat ->
  try_except (b ++ "/" ++ m) self
  = mkOutcome (set_binBase (List.map bin8 a) (built b (List.map Z.abs a) M)) None.
Proof.
  intros Hb Ha Pa La Hnm Hwc OM LM.
  change ("/" ++ m) with (String "/" m).
  set (W := List.map (fun val => 255 - val) M) in *.
  set (N := zip_with Z.land (List.map Z.abs a) M).
  set (H := zip_with Z.add N W).
  assert (LW : (4 <= List.length W)%nat) by (unfold W; now rewrite length_map).
  assert (LN : (4 <= List.length N)%nat)
    by (unfold N; rewrite zip_with_len, length_map; lia).
  assert (LH : (4 <= List.length H)%nat) by (unfold H; rewrite zip_with_len; lia).
  assert (NM : M <> []) by (destruct M; [cbn in LM; lia | discriminate]).
  assert (NW : W <> []) by (destruct W; [cbn in LW; lia | discriminate]).
  assert (NN : N <> []) by (destruct N; [cbn in LN; lia | discriminate]).
  assert (NH : H <> []) by (destruct H; [cbn in LH; lia | discriminate]).
  assert (PW : Forall (fun e => 0 <= e) W).
  { unfold W. apply Forall_forall. intros e He.
    apply in_map_iff in He as [y [<- Hy]].
    rewrite Forall_forall in OM. specialize (OM y Hy). unfold octet in OM. lia. }
  unfold try_except, try_body.
  rewrite (seq_call_ok _ _ _ _ (index_first _ _ _ Hb)), seq_assign.
  rewrite slice_to_app, slice_from_app.
  rewrite (seq_call_ok _ _ _ _ Hnm), seq_assign.
  rewrite (seq_call_ok _ _ _ _ Hwc), seq_assign.
  erewrite (seq_attr base) by reflexivity.
  rewrite (seq_call_ok _ _ _ _ (address_to_bin_reads b a Ha)), seq_assign.
  erewrite (seq_attr base) by reflexivity.
  erewrite (seq_attr netmask) by reflexivity.
  rewrite (seq_call_ok _ _ _ _ (network_any b a M Ha Pa OM NM)), seq_assign.
  fold N.
  erewrite (seq_attr subnet) by reflexivity.
  rewrite (seq_call_ok _ _ _ _ (host_min_long N LN)), seq_assign.
  erewrite (seq_attr subnet) by reflexivity.
  erewrite (seq_attr wildcard) by reflexivity.
  rewrite (seq_call_ok _ _ _ _ (host_max_long N W NN LW)), seq_assign.
  fold H.
  erewrite (seq_attr wildcard) by reflexivity.
  rewrite (seq_call_ok _ _ _ _ (num_hosts_any W NW PW)), seq_assign.
  erewrite (seq_attr hostmax) by reflexivity.
  rewrite (seq_call_ok _ _ _ _ (host_min_long H LH)), seq_assign.
  erewrite (seq_attr hostmin) by reflexivity.
  erewrite (seq_attr hostmax) by reflexivity.
  rewrite (seq_call_ok _ _ _ _ (get_ip_list_dotted N H NN NH)).
  reflexivity.
Qed.

Lemma try_except_built (b m : string) (a M : list Z) (self : CIDR) :
  occurs "/" b = false ->
  mapM int (split "." b) = Ok a ->
  Forall (fun z => 0 <= z) a -> (4 <= List.length a)%nat ->
  calculate_netmask m = Ok (list_to_string M) ->
  calculate_wildcard m = Ok (list_to_string (List.map (fun val => 255 - val) M)) ->
  Forall octet M -> (4 <= List.length M)%nat ->
  try_except (b ++ "/" ++ m) self = mkOutcome (built b a M) None.
Proof.
  intros Hb Ha Pa La Hnm Hwc OM LM.
  assert (Aa : Forall accepted a).
  { apply Forall_forall. intros z Hz. left.
    rewrite Forall_forall in Pa. now apply Pa. }
  rewrite (try_except_accepts b m a M self Hb Ha Aa La Hnm Hwc OM LM).
  now rewrite (abs_nonneg a Pa).
Qed.

Lemma derived_built b a n : derived b a n = built b a (mask_of n).
Proof. reflexivity. Qed.

(** ** The constructor and [update] on any input *)

Lemma index_absent c s : occurs c s = false -> Py.index c s = Raise ValueError.
Proof.
  induction s as [|x s IH]; cbn [occurs Py.index]; intros H; [reflexivity|].
  apply orb_false_iff in H as [Hx Hs]. now rewrite Hx, (IH Hs).
Qed.

Lemma mapM_length {A B : Type} (f : A -> result B) (l : list A) (r : list B) :
  mapM f l = Ok r -> List.length r = List.length l.
Proof.
  revert r. induction l as [|x l IH]; intros r H; cbn [mapM] in H.
  - now injection H as <-.
  - destruct (f x) as [y|e]; [|discriminate H].
    destruct (mapM f l) as [ys|e]; [|discriminate H].
    injection H as <-. cbn [List.length]. now rewrite (IH ys eq_refl).
Qed.

Lemma split_nonempty c s : split c s <> [].
Proof.
  destruct s as [|x s]; cbn [split]; [discriminate|].
  destruct (Ascii.eqb x c); [discriminate|].
  destruct (split c s); discriminate.
Qed.

Lemma reads_nonempty b (a : list Z) : mapM int (split "." b) = Ok a -> a <> [].
Proof.
  intros H E. apply mapM_length in H. rewrite E in H.
  pose proof (split_nonempty "." b) as N.
  destruct (split "." b); [contradiction|discriminate H].
Qed.

Lemma zip_with_app f (l1 r l2 : list Z) :
  List.length l1 = List.length l2 ->
  zip_with f (l1 ++ r)%list l2 = zip_with f l1 l2.
Proof.
  revert l2. induction l1 as [|x l1 IH]; intros [|y l2] H; try discriminate H.
  - unfold zip_with. now destruct r.
  - unfold zip_with in *. cbn [app List.combine List.map].
    f_equal. apply IH. now injection H.
Qed.

Lemma nonneg_of_octets (a : list Z) : Forall octet a -> Forall (fun z => 0 <= z) a.
Proof.
  intros H. apply Forall_forall. intros z Hz.
  rewrite Forall_forall in H. specialize (H z Hz). unfold octet in H. lia.
Qed.

(** X1.  [update] with a well-formed input leaves the object that the
    constructor builds from the same input: every attribute is
    replaced, whatever the object held before, and nothing is printed. *)
Theorem update_is_init (address b : string) (a : list Z) (n : Z) (self : CIDR) :
  well_formed address b a n ->
  update address self = init address /\ printed (update address self) = None.
Proof.
  intros [[m [-> [Hb [Ha Hm]]]] [La [Oa Hn]]].
  unfold update, init.
  rewrite !(try_except_built b m a (mask_of n));
    try assumption; try (now apply nonneg_of_octets); try lia;
    try (now apply calculate_netmask_reads);
    try (now apply calculate_wildcard_reads);
    try apply mask_of_octets; try (rewrite mask_of_length; lia).
  split; reflexivity.
Qed.

Lemma update_is_init_witness :
  well_formed "192.168.0.2/24" "192.168.0.2" [192; 168; 0; 2] 24 /\
  update "192.168.0.2/24" (derived "10.0.0.5" [10; 0; 0; 5] 30)
  = init "192.168.0.2/24" /\
  printed (update "192.168.0.2/24" (derived "10.0.0.5" [10; 0; 0; 5] 30)) = None.
Proof.
  split; [exact example_well_formed|].
  exact (update_is_init _ _ _ _ (derived "10.0.0.5" [10; 0; 0; 5] 30)
           example_well_formed).
Defined.

(** X2.  On a text without a slash [address.index] raises before any
    assignment: the constructor prints the ValueError and leaves an
    object with no attribute at all, and [update] leaves the object
    exactly as it was. *)
Theorem no_slash_changes_nothing (address : string) (self : CIDR) :
  occurs "/" address = false ->
  init address = mkOutcome fresh (Some ValueError)
  /\ update address self = mkOutcome self (Some ValueError).
Proof.
  intros H. unfold init, update, try_except, try_body.
  now rewrite !(seq_call_raise _ _ _ _ (index_absent _ _ H)).
Qed.

Lemma no_slash_changes_nothing_witness :
  occurs "/" "192.168.0.2" = false /\
  init "192.168.0.2" = mkOutcome fresh (Some ValueError)
  /\ update "192.168.0.2" (derived "10.0.0.5" [10; 0; 0; 5] 30)
     = mkOutcome (derived "10.0.0.5" [10; 0; 0; 5] 30) (Some ValueError).
Proof.
  split; [reflexivity|].
  exact (no_slash_changes_nothing "192.168.0.2"
           (derived "10.0.0.5" [10; 0; 0; 5] 30) eq_refl).
Defined.

(** X3.  When the text after the first slash is not an integer literal,
    [calculate_netmask] raises after [base] was assigned: [update]
    leaves the new base beside the attributes the object had before,
    and the constructor leaves base alone. *)
Theorem bad_prefix_sets_base_only (b m : string) (self : CIDR) :
  occurs "/" b = false -> int m = Raise ValueError ->
  update (b ++ "/" ++ m) self = mkOutcome (set_base b self) (Some ValueError)
  /\ init (b ++ "/" ++ m) = mkOutcome (set_base b fresh) (Some ValueError).
Proof.
  intros Hb Hm.
  assert (E : calculate_netmask m = Raise ValueError)
    by (unfold calculate_netmask; now rewrite Hm).
  change ("/" ++ m) with (String "/" m).
  unfold update, init, try_except, try_body.
  rewrite !(seq_call_ok _ _ _ _ (index_first _ _ _ Hb)), !seq_assign.
  rewrite slice_to_app, slice_from_app.
  now rewrite !(seq_call_raise _ _ _ _ E).
Qed.

Lemma bad_prefix_sets_base_only_witness :
  occurs "/" "10.0.0.1" = false /\ int "24/8" = Raise ValueError /\
  update ("10.0.0.1" ++ "/" ++ "24/8") (derived "10.0.0.5" [10; 0; 0; 5] 30)
  = mkOutcome (set_base "10.0.0.1" (derived "10.0.0.5" [10; 0; 0; 5] 30))
              (Some ValueError)
  /\ init ("10.0.0.1" ++ "/" ++ "24/8")
     = mkOutcome (set_base "10.0.0.1" fresh) (Some ValueError).
Proof.
  split; [reflexivity|]. split; [reflexivity|].
  exact (bad_prefix_sets_base_only "10.0.0.1" "24/8"
           (derived "10.0.0.5" [10; 0; 0; 5] 30) eq_refl eq_refl).
Defined.

(** X4.  The base attribute is the text before the first slash, kept as
    it is written, whatever follows the slash and whether or not the
    rest of the construction succeeds. *)
Theorem base_is_text_before_slash (b m : string) (self : CIDR) :
  occurs "/" b = false ->
  base (obj (update (b ++ "/" ++ m) self)) = Some b
  /\ base (obj (init (b ++ "/" ++ m))) = Some b.
Proof.
  intros Hb.
  assert (G : forall s, exists o e,
             try_except (b ++ String "/" m) s = mkOutcome o e /\ base o = Some b).
  { intros s. unfold try_except, try_body.
    rewrite (seq_call_ok _ _ _ _ (index_first _ _ _ Hb)), seq_assign.
    rewrite slice_to_app, slice_from_app.
    repeat step; unfold assign;
      eexists; eexists; (split; [reflexivity|]); reflexivity. }
  change ("/" ++ m) with (String "/" m). unfold update, init.
  destruct (G self) as [o [e [-> H]]]. destruct (G fresh) as [o' [e' [-> H']]].
  now split.
Qed.

Lemma base_is_text_before_slash_witness :
  occurs "/" " 010.0.0.1" = false /\
  base (obj (update (" 010.0.0.1" ++ "/" ++ "x") fresh)) = Some " 010.0.0.1"
  /\ base (obj (init (" 010.0.0.1" ++ "/" ++ "x"))) = Some " 010.0.0.1".
Proof.
  split; [reflexivity|].
  exact (base_is_text_before_slash " 010.0.0.1" "x" fresh eq_refl).
Defined.

(** X5.  An address part of fewer than four numbers is not refused at
    once: base, netmask, wildcard, binBase and subnet are assigned,
    subnet with as many octets as the address has; then [host_min]
    raises IndexError on [temp[3]] and the other five attributes stay
    unset. *)
Theorem short_address_stops_at_host_min (b m : string) (a : list Z) (n : Z) :
  occurs "/" b = false ->
  mapM int (split "." b) = Ok a ->
  Forall (fun z => 0 <= z) a -> (List.length a < 4)%nat ->
  int m = Ok n -> 0 <= n <= 32 ->
  init (b ++ "/" ++ m)
  = mkOutcome
      (mkCIDR (Some b)
              (Some (list_to_string (mask_of n)))
              (Some (list_to_string (wild_of n)))
              (Some (List.map bin8 a))
              (Some (list_to_string (zip_with Z.land a (mask_of n))))
              None None None None None)
      (Some IndexError).
Proof.
  intros Hb Ha Pa La Hm Hn.
  pose proof (reads_nonempty b a Ha) as Na.
  set (N := zip_with Z.land a (mask_of n)).
  assert (LN : (List.length N < 4)%nat)
    by (unfold N; rewrite zip_with_len, mask_of_length; lia).
  assert (NN : N <> []).
  { unfold N, zip_with. destruct a as [|x a]; [contradiction|].
    unfold mask_of, Word32.to_octets. discriminate. }
  assert (Aa : Forall accepted a).
  { apply Forall_forall. intros z Hz. left.
    rewrite Forall_forall in Pa. now apply Pa. }
  pose proof (network_any b a (mask_of n) Ha Aa (mask_of_octets n)
                (nonempty_of_length _ (mask_of_length n))) as Hnet.
  rewrite (abs_nonneg a Pa) in Hnet. fold N in Hnet.
  change ("/" ++ m) with (String "/" m).
  unfold init, try_except, try_body.
  rewrite (seq_call_ok _ _ _ _ (index_first _ _ _ Hb)), seq_assign.
  rewrite slice_to_app, slice_from_app.
  rewrite (seq_call_ok _ _ _ _ (calculate_netmask_reads m n Hm Hn)), seq_assign.
  rewrite (seq_call_ok _ _ _ _ (calculate_wildcard_reads m n Hm Hn)), seq_assign.
  erewrite (seq_attr base) by reflexivity.
  rewrite (seq_call_ok _ _ _ _ (address_to_bin_reads b a Ha)), seq_assign.
  erewrite (seq_attr base) by reflexivity.
  erewrite (seq_attr netmask) by reflexivity.
  rewrite (seq_call_ok _ _ _ _ Hnet), seq_assign.
  erewrite (seq_attr subnet) by reflexivity.
  rewrite (seq_call_raise _ _ _ _ (host_min_short N NN LN)).
  reflexivity.
Qed.

Lemma short_address_stops_at_host_min_witness :
  occurs "/" "10.1" = false /\
  mapM int (split "." "10.1") = Ok [10; 1] /\
  init ("10.1" ++ "/" ++ "8")
  = mkOutcome
      (mkCIDR (Some "10.1")
              (Some (list_to_string (mask_of 8)))
              (Some (list_to_string (wild_of 8)))
              (Some (List.map bin8 [10; 1]))
              (Some (list_to_string (zip_with Z.land [10; 1] (mask_of 8))))
              None None None None None)
      (Some IndexError).
Proof.
  split; [reflexivity|]. split; [reflexivity|].
  apply (short_address_stops_at_host_min "10.1" "8" [10; 1] 8);
    try reflexivity; try lia.
  - repeat constructor; lia.
  - cbn. lia.
Defined.

(** X6.  An address part of more than four octets is not refused: the
    octets after the fourth appear in binBase only, and every other
    attribute is what the first four octets alone give. *)
Theorem extra_octets_are_dropped (b m : string) (a rest : list Z) (n : Z) :
  occurs "/" b = false ->
  mapM int (split "." b) = Ok (a ++ rest)%list ->
  List.length a = 4%nat -> Forall octet (a ++ rest)%list ->
  int m = Ok n -> 0 <= n <= 32 ->
  init (b ++ "/" ++ m)
  = mkOutcome (set_binBase (List.map bin8 (a ++ rest)%list) (derived b a n)) None.
Proof.
  intros Hb Ha La Oa Hm Hn. unfold init.
  rewrite (try_except_built b m (a ++ rest)%list (mask_of n));
    try assumption; try (now apply nonneg_of_octets);
    try (now apply calculate_netmask_reads);
    try (now apply calculate_wildcard_reads);
    try apply mask_of_octets; try (rewrite mask_of_length; lia);
    try (rewrite length_app; lia).
  unfold built. rewrite (zip_with_app Z.land a rest (mask_of n))
    by (now rewrite mask_of_length).
  reflexivity.
Qed.

Lemma extra_octets_are_dropped_witness :
  occurs "/" "1.2.3.4.5" = false /\
  mapM int (split "." "1.2.3.4.5") = Ok ([1; 2; 3; 4] ++ [5])%list /\
  init ("1.2.3.4.5" ++ "/" ++ "31")
  = mkOutcome (set_binBase (List.map bin8 ([1; 2; 3; 4] ++ [5])%list)
                           (derived "1.2.3.4.5" [1; 2; 3; 4] 31)) None.
Proof.
  split; [reflexivity|]. split; [reflexivity|].
  apply (extra_octets_are_dropped "1.2.3.4.5" "31" [1; 2; 3; 4] [5] 31);
    try reflexivity; try lia.
  unfold octet. repeat constructor; lia.
Defined.

(** ** Octets outside 0..255 *)

Lemma land_mod_octet z m : octet m -> Z.land z m = Z.land (z mod 256) m.
Proof.
  intros Hm.
  assert (E : m = Z.land (Z.ones 8) m).
  { rewrite Z.land_comm, Z.land_ones by lia.
    symmetry. apply Z.mod_small. unfold octet in Hm.
    change (2 ^ 8) with 256. lia. }
  rewrite E at 1. rewrite Z.land_assoc, Z.land_ones by lia.
  reflexivity.
Qed.

Lemma zip_land_mod (a M : list Z) :
  Forall octet M ->
  zip_with Z.land a M = zip_with Z.land (List.map (fun z => z mod 256) a) M.
Proof.
  intros HM. revert a. induction HM as [|y M Hy HM IH]; intros [|x a];
    try reflexivity.
  unfold zip_with in *. cbn [List.map List.combine fst snd].
  rewrite IH. f_equal. now apply land_mod_octet.
Qed.

(** X7.  An octet above 255 is not refused.  With four numbers that are
    not negative and a prefix length from 0 to 32 the constructor
    prints nothing and sets every attribute; base and binBase keep the
    numbers as given, and all the others are what the numbers taken
    modulo 256 give. *)
Theorem large_octets_count_modulo_256 (b m : string) (a : list Z) (n : Z) :
  occurs "/" b = false ->
  mapM int (split "." b) = Ok a ->
  List.length a = 4%nat -> Forall (fun z => 0 <= z) a ->
  int m = Ok n -> 0 <= n <= 32 ->
  init (b ++ "/" ++ m)
  = mkOutcome
      (set_binBase (List.map bin8 a)
                   (derived b (List.map (fun z => z mod 256) a) n))
      None.
Proof.
  intros Hb Ha La Pa Hm Hn. unfold init.
  rewrite (try_except_built b m a (mask_of n));
    try assumption; try lia;
    try (now apply calculate_netmask_reads);
    try (now apply calculate_wildcard_reads);
    try apply mask_of_octets; try (rewrite mask_of_length; lia).
  unfold built, derived, max_of, net_of, wild_of.
  rewrite <- (zip_land_mod a (mask_of n) (mask_of_octets n)).
  reflexivity.
Qed.

Lemma large_octets_count_modulo_256_witness :
  occurs "/" "300.1.1.1" = false /\
  mapM int (split "." "300.1.1.1") = Ok [300; 1; 1; 1] /\
  init ("300.1.1.1" ++ "/" ++ "24")
  = mkOutcome
      (set_binBase (List.map bin8 [300; 1; 1; 1])
                   (derived "300.1.1.1"
                            (List.map (fun z => z mod 256) [300; 1; 1; 1]) 24))
      None.
Proof.
  split; [reflexivity|]. split; [reflexivity|].
  apply (large_octets_count_modulo_256 "300.1.1.1" "24" [300; 1; 1; 1] 24);
    try reflexivity; try lia.
  repeat constructor; lia.
Defined.

Lemma mapM_raises {A B : Type} (f : A -> result B) (l : list A) (x : A) :
  (forall y e, f y = Raise e -> e = ValueError) ->
  In x l -> f x = Raise ValueError -> mapM f l = Raise ValueError.
Proof.
  intros Only. induction l as [|y l IH]; intros Hin Hx; [contradiction|].
  cbn [mapM]. destruct (f y) as [v|e] eqn:Ey.
  - destruct Hin as [->|Hin]; [rewrite Hx in Ey; discriminate Ey|].
    now rewrite (IH Hin Hx).
  - now rewrite (Only y e Ey).
Qed.

Lemma int2_only_value_error s e : int2 s = Raise e -> e = ValueError.
Proof.
  unfold int2. destruct (parse_int 2 s); intros H; [discriminate H|].
  now injection H.
Qed.

Lemma network_negative b (a M : list Z) (z : Z) :
  mapM int (split "." b) = Ok a ->
  List.length M = List.length a -> M <> [] ->
  In z a -> z < 0 -> ~ (-63 <= z <= -32) ->
  network b (list_to_string M) = Raise ValueError.
Proof.
  intros Hb L Hne Hin Hz Hr. unfold network.
  rewrite (address_to_bin_reads b a Hb).
  rewrite (address_to_bin_reads _ M (parts_dotted M Hne)).
  cbn [bind].
  assert (Ez : int2 (bin8 z) = Raise ValueError).
  { destruct z as [|p|p]; try lia. rewrite int2_bin8_negative.
    replace ((32 <=? p) && (p <? 64))%positive with false; [reflexivity|].
    symmetry. apply andb_false_iff.
    destruct (Pos.leb_spec 32 p); [|now left].
    destruct (Pos.ltb_spec p 64); [|now right]. lia. }
  assert (P : exists y, In (bin8 z, y)
                           (List.combine (List.map bin8 a) (List.map bin8 M))).
  { clear Hb Hne. revert M L. induction a as [|x a IH]; intros M L;
      [contradiction|].
    destruct M as [|y M]; [discriminate L|].
    cbn [List.map List.combine].
    destruct Hin as [->|Hin].
    - exists (bin8 y). now left.
    - destruct (IH Hin M ltac:(now injection L)) as [w Hw].
      exists w. now right. }
  destruct P as [y Hy].
  rewrite (mapM_raises _ _ (bin8 z, y)); [reflexivity| |exact Hy|].
  - intros ab e. cbn [fst snd].
    destruct (int2 (fst ab)) as [u|e1] eqn:E1; cbn [bind].
    + destruct (int2 (snd ab)) as [v|e2] eqn:E2; cbn [bind];
        [discriminate|].
      intros H. injection H as <-. now apply (int2_only_value_error (snd ab)).
    + intros H. injection H as <-. now apply (int2_only_value_error (fst ab)).
  - cbn [fst snd]. now rewrite Ez.
Qed.

(** X8.  A negative octet passes [int] and [address_to_bin], so base,
    netmask, wildcard and binBase are assigned; unless it lies from -63
    to -32, [network] then raises ValueError on its binary text and the
    other six attributes stay unset. *)
Theorem negative_octet_stops_at_network (b m : string) (a : list Z) (n z : Z) :
  occurs "/" b = false ->
  mapM int (split "." b) = Ok a ->
  List.length a = 4%nat ->
  In z a -> z < 0 -> ~ (-63 <= z <= -32) ->
  int m = Ok n -> 0 <= n <= 32 ->
  init (b ++ "/" ++ m)
  = mkOutcome
      (mkCIDR (Some b)
              (Some (list_to_string (mask_of n)))
              (Some (list_to_string (wild_of n)))
              (Some (List.map bin8 a))
              None None None None None None)
      (Some ValueError).
Proof.
  intros Hb Ha La Hin Hz Hr Hm Hn.
  pose proof (network_negative b a (mask_of n) z Ha
                ltac:(now rewrite mask_of_length)
                (nonempty_of_length _ (mask_of_length n)) Hin Hz Hr) as Hnet.
  change ("/" ++ m) with (String "/" m).
  unfold init, try_except, try_body.
  rewrite (seq_call_ok _ _ _ _ (index_first _ _ _ Hb)), seq_assign.
  rewrite slice_to_app, slice_from_app.
  rewrite (seq_call_ok _ _ _ _ (calculate_netmask_reads m n Hm Hn)), seq_assign.
  rewrite (seq_call_ok _ _ _ _ (calculate_wildcard_reads m n Hm Hn)), seq_assign.
  erewrite (seq_attr base) by reflexivity.
  rewrite (seq_call_ok _ _ _ _ (address_to_bin_reads b a Ha)), seq_assign.
  erewrite (seq_attr base) by reflexivity.
  erewrite (seq_attr netmask) by reflexivity.
  rewrite (seq_call_raise _ _ _ _ Hnet).
  reflexivity.
Qed.

Lemma negative_octet_stops_at_network_witness :
  occurs "/" "10.-1.0.5" = false /\
  mapM int (split "." "10.-1.0.5") = Ok [10; -1; 0; 5] /\
  init ("10.-1.0.5" ++ "/" ++ "24")
  = mkOutcome
      (mkCIDR (Some "10.-1.0.5")
              (Some (list_to_string (mask_of 24)))
              (Some (list_to_string (wild_of 24)))
              (Some (List.map bin8 [10; -1; 0; 5]))
              None None None None None None)
      (Some ValueError).
Proof.
  split; [reflexivity|]. split; [reflexivity|].
  apply (negative_octet_stops_at_network "10.-1.0.5" "24" [10; -1; 0; 5] 24 (-1));
    try reflexivity; try lia.
  right. now left.
Defined.

(** X9.  A negative octet from -63 to -32 is accepted: [bin] of it,
    cut and padded, is a text that [int(s, 2)] reads as the absolute
    value, so every attribute but base and binBase is what the absolute
    values give. *)
Theorem some_negative_octets_read_as_positive
        (b m : string) (a : list Z) (n : Z) :
  occurs "/" b = false ->
  mapM int (split "." b) = Ok a ->
  List.length a = 4%nat ->
  Forall (fun z => octet z \/ -63 <= z <= -32) a ->
  int m = Ok n -> 0 <= n <= 32 ->
  init (b ++ "/" ++ m)
  = mkOutcome
      (set_binBase (List.map bin8 a) (derived b (List.map Z.abs a) n)) None.
Proof.
  intros Hb Ha La Pa Hm Hn. unfold init.
  assert (Aa : Forall accepted a).
  { apply Forall_forall. intros z Hz. rewrite Forall_forall in Pa.
    destruct (Pa z Hz) as [O|N]; [left; unfold octet in O; lia | now right]. }
  rewrite (try_except_accepts b m a (mask_of n));
    try assumption; try lia;
    try (now apply calculate_netmask_reads);
    try (now apply calculate_wildcard_reads);
    try apply mask_of_octets; try (rewrite mask_of_length; lia).
  reflexivity.
Qed.

Lemma some_negative_octets_read_as_positive_witness :
  occurs "/" "-40.2.3.4" = false /\
  mapM int (split "." "-40.2.3.4") = Ok [-40; 2; 3; 4] /\
  init ("-40.2.3.4" ++ "/" ++ "30")
  = mkOutcome
      (set_binBase (List.map bin8 [-40; 2; 3; 4])
                   (derived "-40.2.3.4" (List.map Z.abs [-40; 2; 3; 4]) 30))
      None.
Proof.
  split; [reflexivity|]. split; [reflexivity|].
  apply (some_negative_octets_read_as_positive "-40.2.3.4" "30" [-40; 2; 3; 4] 30);
    try reflexivity; try lia.
  unfold octet. repeat constructor; lia.
Defined.

(** ** Prefix lengths outside 0..32 *)

Lemma append_empty (s : string) : s ++ "" = s.
Proof. induction s as [|x s IH]; cbn [append]; [reflexivity | now rewrite IH]. Qed.

(** A text of one repeated character falls into equal groups of eight;
    what is left over is dropped. *)
Lemma group8_repeat (c : ascii) (k r : nat) :
  (r < 8)%nat ->
  group8 (string_of_list_ascii (List.repeat c (8 * k + r)))
  = List.repeat (string_of_list_ascii (List.repeat c 8)) k.
Proof.
  intros Hr. induction k as [|k IH].
  - cbn [Nat.mul Nat.add List.repeat].
    do 8 (destruct r as [|r]; [reflexivity|]). lia.
  - replace (8 * S k + r)%nat with (8 + (8 * k + r))%nat by lia.
    cbn [Nat.add List.repeat string_of_list_ascii group8].
    now rewrite IH.
Qed.

Lemma repeat_char_groups (c : ascii) (n : Z) :
  0 <= n ->
  group8 (repeat_char c n)
  = List.repeat (string_of_list_ascii (List.repeat c 8)) (Z.to_nat (n / 8)).
Proof.
  intros Hn. unfold repeat_char.
  pose proof (Z.div_mod n 8 ltac:(lia)) as D.
  pose proof (Z.mod_pos_bound n 8 ltac:(lia)) as B.
  assert (P : 0 <= n / 8) by (apply Z.div_pos; lia).
  replace (Z.to_nat n)
    with (8 * Z.to_nat (n / 8) + Z.to_nat (n mod 8))%nat by lia.
  apply group8_repeat. lia.
Qed.

Lemma repeat_char_none (c : ascii) (n : Z) : n <= 0 -> repeat_char c n = "".
Proof.
  intros H. unfold repeat_char. now replace (Z.to_nat n) with 0%nat by lia.
Qed.

Lemma bin_to_address_repeat (c : ascii) (v : Z) (k : nat) :
  int2 (string_of_list_ascii (List.repeat c 8)) = Ok v ->
  bin_to_address (List.repeat (string_of_list_ascii (List.repeat c 8)) k)
  = Ok (List.repeat v k).
Proof.
  intros H. unfold bin_to_address.
  remember (string_of_list_ascii (List.repeat c 8)) as s eqn:Es. clear Es.
  induction k as [|k IH]; [reflexivity|].
  cbn [List.repeat mapM]. now rewrite H, IH.
Qed.

Lemma masks_beyond_32 (m : string) (n : Z) :
  int m = Ok n -> 32 <= n ->
  let k := Z.to_nat (n / 8) in
  calculate_netmask m = Ok (list_to_string (List.repeat 255 k))
  /\ calculate_wildcard m
     = Ok (list_to_string (List.map (fun val => 255 - val) (List.repeat 255 k))).
Proof.
  intros Hm Hn k.
  assert (E : bin_to_address
                (group8 (repeat_char "1" n ++ repeat_char "0" (32 - n)))
              = Ok (List.repeat 255 k)).
  { rewrite (repeat_char_none "0" (32 - n)) by lia.
    rewrite append_empty, repeat_char_groups by lia.
    now apply bin_to_address_repeat. }
  unfold calculate_netmask, calculate_wildcard.
  rewrite Hm. cbn [bind]. rewrite E. split; reflexivity.
Qed.

Lemma masks_below_0 (m : string) (n : Z) :
  int m = Ok n -> n < 0 ->
  let k := Z.to_nat ((32 - n) / 8) in
  calculate_netmask m = Ok (list_to_string (List.repeat 0 k))
  /\ calculate_wildcard m
     = Ok (list_to_string (List.map (fun val => 255 - val) (List.repeat 0 k))).
Proof.
  intros Hm Hn k.
  assert (E : bin_to_address
                (group8 (repeat_char "1" n ++ repeat_char "0" (32 - n)))
              = Ok (List.repeat 0 k)).
  { rewrite (repeat_char_none "1" n) by lia.
    cbn [append]. rewrite repeat_char_groups by lia.
    now apply bin_to_address_repeat. }
  unfold calculate_netmask, calculate_wildcard.
  rewrite Hm. cbn [bind]. rewrite E. split; reflexivity.
Qed.

Lemma zip_with_repeat4 (f : Z -> Z -> Z) (a0 a1 a2 a3 v : Z) (k : nat) :
  (4 <= k)%nat ->
  zip_with f [a0; a1; a2; a3] (List.repeat v k) = [f a0 v; f a1 v; f a2 v; f a3 v].
Proof.
  intros H. do 4 (destruct k as [|k]; [lia|]).
  unfold zip_with. cbn [List.repeat List.combine List.map fst snd].
  reflexivity.
Qed.

Lemma land_255 x : octet x -> Z.land x 255 = x.
Proof.
  intros H. change 255 with (Z.ones 8). rewrite Z.land_ones by lia.
  apply Z.mod_small. unfold octet in H. change (2 ^ 8) with 256. lia.
Qed.

Lemma prod_repeat (v : Z) (k : nat) : prod (List.repeat v k) = v ^ Z.of_nat k.
Proof.
  induction k as [|k IH]; [reflexivity|].
  cbn [List.repeat prod List.fold_right]. fold (prod (List.repeat v k)).
  rewrite IH, Nat2Z.inj_succ, Z.pow_succ_r by lia. reflexivity.
Qed.

Lemma range_one x : range x (x + 1) = [x].
Proof. rewrite range_cons by lia. now rewrite range_nil by lia. Qed.

Lemma between_same (a0 a1 a2 a3 : Z) :
  between [a0; a1; a2; a3] [a0; a1; a2; a3] = [[a0; a1; a2; a3]].
Proof.
  unfold between. cbn [List.combine List.map fst snd].
  rewrite !range_one. reflexivity.
Qed.

(** X10.  A prefix length above 32 is not refused.  The netmask text
    is 255 repeated once for every eight units of the prefix length,
    so it has more than four octets from 40 on; the address is kept
    whole: subnet, hostmin, hostmax and broadcast are the address, the
    total is 1 and the list holds that one address. *)
Theorem prefix_above_32_is_one_address (b m : string) (a : list Z) (n : Z) :
  occurs "/" b = false ->
  mapM int (split "." b) = Ok a ->
  List.length a = 4%nat -> Forall octet a ->
  int m = Ok n -> 32 <= n ->
  let k := Z.to_nat (n / 8) in
  init (b ++ "/" ++ m)
  = mkOutcome
      (mkCIDR (Some b)
              (Some (list_to_string (List.repeat 255 k)))
              (Some (list_to_string (List.repeat 0 k)))
              (Some (List.map bin8 a))
              (Some (list_to_string a))
              (Some (list_to_string a))
              (Some (list_to_string a))
              (Some 1)
              (Some (list_to_string a))
              (Some [list_to_string a]))
      None.
Proof.
  intros Hb Ha La Oa Hm Hn k.
  destruct (masks_beyond_32 m n Hm Hn) as [Hnm Hwc]. fold k in Hnm, Hwc.
  assert (Lk : (4 <= k)%nat).
  { unfold k. assert (4 <= n / 8) by (apply Z.div_le_lower_bound; lia). lia. }
  unfold init.
  rewrite (try_except_built b m a (List.repeat 255 k));
    try assumption; try (now apply nonneg_of_octets); try lia.
  2:{ apply Forall_forall. intros x Hx. apply repeat_spec in Hx. subst x.
      unfold octet. lia. }
  2:{ now rewrite repeat_length. }
  destruct a as [|a0 [|a1 [|a2 [|a3 [|]]]]]; try discriminate La.
  inversion Oa as [|? ? O0 T0]; subst. inversion T0 as [|? ? O1 T1]; subst.
  inversion T1 as [|? ? O2 T2]; subst. inversion T2 as [|? ? O3 _]; subst.
  unfold built. rewrite map_repeat. change (255 - 255) with 0.
  rewrite (zip_with_repeat4 Z.land a0 a1 a2 a3 255 k Lk).
  rewrite !land_255 by assumption.
  rewrite (zip_with_repeat4 Z.add a0 a1 a2 a3 0 k Lk).
  rewrite !Z.add_0_r, between_same, map_repeat, prod_repeat.
  change (0 + 1) with 1. rewrite Z.pow_1_l by lia.
  reflexivity.
Qed.

Lemma prefix_above_32_is_one_address_witness :
  occurs "/" "10.0.0.1" = false /\
  mapM int (split "." "10.0.0.1") = Ok [10; 0; 0; 1] /\
  int "41" = Ok 41 /\
  let k := Z.to_nat (41 / 8) in
  init ("10.0.0.1" ++ "/" ++ "41")
  = mkOutcome
      (mkCIDR (Some "10.0.0.1")
              (Some (list_to_string (List.repeat 255 k)))
              (Some (list_to_string (List.repeat 0 k)))
              (Some (List.map bin8 [10; 0; 0; 1]))
              (Some (list_to_string [10; 0; 0; 1]))
              (Some (list_to_string [10; 0; 0; 1]))
              (Some (list_to_string [10; 0; 0; 1]))
              (Some 1)
              (Some (list_to_string [10; 0; 0; 1]))
              (Some [list_to_string [10; 0; 0; 1]]))
      None.
Proof.
  split; [reflexivity|]. split; [reflexivity|]. split; [reflexivity|].
  apply (prefix_above_32_is_one_address "10.0.0.1" "41" [10; 0; 0; 1] 41);
    try reflexivity; try lia.
  unfold octet. repeat constructor; lia.
Defined.

(** X11.  A negative prefix length is not refused either.  The netmask
    text is 0 repeated once for every eight characters of the 32 - n
    zeros, the subnet is 0.0.0.0 and hostmax 255.255.255.255 as for a
    prefix length of 0, and the list has 256^4 addresses; but the total
    is 256 to the number of wildcard octets, which is more than the
    list holds from -8 down. *)
Theorem negative_prefix_covers_everything (b m : string) (a : list Z) (n : Z) :
  occurs "/" b = false ->
  mapM int (split "." b) = Ok a ->
  List.length a = 4%nat -> Forall octet a ->
  int m = Ok n -> n < 0 ->
  let k := Z.to_nat ((32 - n) / 8) in
  init (b ++ "/" ++ m)
  = mkOutcome
      (mkCIDR (Some b)
              (Some (list_to_string (List.repeat 0 k)))
              (Some (list_to_string (List.repeat 255 k)))
              (Some (List.map bin8 a))
              (Some "0.0.0.0")
              (Some "0.0.0.0")
              (Some "255.255.255.255")
              (Some (256 ^ Z.of_nat k))
              (Some "255.255.255.255")
              (Some (List.map list_to_string
                       (between [0; 0; 0; 0] [255; 255; 255; 255]))))
      None
  /\ len (between [0; 0; 0; 0] [255; 255; 255; 255]) = 256 ^ 4
  /\ (n <= -8 -> 256 ^ 4 < 256 ^ Z.of_nat k).
Proof.
  intros Hb Ha La Oa Hm Hn k.
  destruct (masks_below_0 m n Hm Hn) as [Hnm Hwc]. fold k in Hnm, Hwc.
  assert (Lk : (4 <= k)%nat).
  { unfold k. assert (4 <= (32 - n) / 8) by (apply Z.div_le_lower_bound; lia).
    lia. }
  split; [|split].
  - unfold init.
    rewrite (try_except_built b m a (List.repeat 0 k));
      try assumption; try (now apply nonneg_of_octets); try lia.
    2:{ apply Forall_forall. intros x Hx. apply repeat_spec in Hx. subst x.
        unfold octet. lia. }
    2:{ now rewrite repeat_length. }
    destruct a as [|a0 [|a1 [|a2 [|a3 [|]]]]]; try discriminate La.
    unfold built. rewrite map_repeat. change (255 - 0) with 255.
    rewrite (zip_with_repeat4 Z.land a0 a1 a2 a3 0 k Lk).
    rewrite !Z.land_0_r.
    rewrite (zip_with_repeat4 Z.add 0 0 0 0 255 k Lk).
    rewrite map_repeat, prod_repeat.
    reflexivity.
  - unfold between. rewrite len_product.
    cbn [List.combine List.map fst snd prod List.fold_right].
    rewrite !len_range_between by lia. reflexivity.
  - intros H8. apply Z.pow_lt_mono_r; try lia.
    unfold k. assert (5 <= (32 - n) / 8) by (apply Z.div_le_lower_bound; lia).
    lia.
Qed.

Lemma negative_prefix_covers_everything_witness :
  occurs "/" "10.0.0.1" = false /\
  mapM int (split "." "10.0.0.1") = Ok [10; 0; 0; 1] /\
  int "-8" = Ok (-8) /\
  let k := Z.to_nat ((32 - -8) / 8) in
  init ("10.0.0.1" ++ "/" ++ "-8")
  = mkOutcome
      (mkCIDR (Some "10.0.0.1")
              (Some (list_to_string (List.repeat 0 k)))
              (Some (list_to_string (List.repeat 255 k)))
              (Some (List.map bin8 [10; 0; 0; 1]))
              (Some "0.0.0.0")
              (Some "0.0.0.0")
              (Some "255.255.255.255")
              (Some (256 ^ Z.of_nat k))
              (Some "255.255.255.255")
              (Some (List.map list_to_string
                       (between [0; 0; 0; 0] [255; 255; 255; 255]))))
      None
  /\ len (between [0; 0; 0; 0] [255; 255; 255; 255]) = 256 ^ 4
  /\ (-8 <= -8 -> 256 ^ 4 < 256 ^ Z.of_nat k).
Proof.
  split; [reflexivity|]. split; [reflexivity|]. split; [reflexivity|].
  apply (negative_prefix_covers_everything "10.0.0.1" "-8" [10; 0; 0; 1] (-8));
    try reflexivity; try lia.
  unfold octet. repeat constructor; lia.
Defined.

(** ** The block of addresses of a well-formed input *)

Lemma total_power n :
  0 <= n <= 32 ->
  prod (List.map (fun w => w + 1) (wild_of n)) = 2 ^ (32 - n)
  /\ Word32.of_octets (wild_of n) + 1 = 2 ^ (32 - n).
Proof.
  intros Hn.
  apply (range_forall
           (fun n => prod (List.map (fun w => w + 1) (wild_of n)) = 2 ^ (32 - n)
                     /\ Word32.of_octets (wild_of n) + 1 = 2 ^ (32 - n))
           0 33); [|lia].
  let l := eval vm_compute in (range 0 33) in change (range 0 33) with l.
  repeat (constructor; [vm_compute; split; reflexivity|]). constructor.
Qed.

(** X12.  On a well-formed input the total is 2 to the power 32 minus
    the prefix length. *)
Theorem total_is_power_of_two (address b : string) (a : list Z) (n : Z) :
  well_formed address b a n ->
  total (obj (init address)) = Some (2 ^ (32 - n)).
Proof.
  intros W. rewrite (init_well_formed _ _ _ _ W).
  destruct W as [_ [_ [_ Hn]]].
  cbn [obj derived total]. now rewrite (proj1 (total_power n Hn)).
Qed.

Lemma total_is_power_of_two_witness :
  well_formed "192.168.0.2/24" "192.168.0.2" [192; 168; 0; 2] 24 /\
  total (obj (init "192.168.0.2/24")) = Some (2 ^ (32 - 24)).
Proof.
  split; [exact example_well_formed|].
  exact (total_is_power_of_two _ _ _ _ example_well_formed).
Defined.

Lemma of_octets_land (l1 l2 : list Z) :
  List.length l1 = 4%nat -> List.length l2 = 4%nat ->
  Forall octet l1 -> Forall octet l2 ->
  Word32.of_octets (zip_with Z.land l1 l2)
  = Z.land (Word32.of_octets l1) (Word32.of_octets l2).
Proof.
  destruct l1 as [|a0 [|a1 [|a2 [|a3 [|]]]]]; try discriminate. intros _.
  destruct l2 as [|b0 [|b1 [|b2 [|b3 [|]]]]]; try discriminate. intros _.
  intros H1 H2.
  inversion H1 as [|? ? A0 T0]; subst. inversion T0 as [|? ? A1 T1]; subst.
  inversion T1 as [|? ? A2 T2]; subst. inversion T2 as [|? ? A3 _]; subst.
  inversion H2 as [|? ? B0 U0]; subst. inversion U0 as [|? ? B1 U1]; subst.
  inversion U1 as [|? ? B2 U2]; subst. inversion U2 as [|? ? B3 _]; subst.
  unfold Word32.of_octets, zip_with.
  cbn [List.combine List.map List.fold_left fst snd].
  rewrite !Word32Facts.cat_land by assumption.
  reflexivity.
Qed.

Lemma top_bits_low n i :
  0 <= n <= 32 -> 0 <= i < 32 - n -> Z.testbit (Word32.top_bits n) i = false.
Proof.
  intros Hn Hi. unfold Word32.top_bits.
  apply Z.shiftl_spec_low. lia.
Qed.

(** X13.  On a well-formed input the subnet field, read as a 32-bit
    value, is the bitwise AND of the values of the base and netmask
    fields; it is a multiple of the total; and hostmin is the same
    text as subnet: nothing is added for a first usable host. *)
Theorem subnet_is_base_and_netmask (address b : string) (a : list Z) (n : Z) :
  well_formed address b a n ->
  let o := obj (init address) in
  exists (nm sb : string) (va vm T : Z),
    base o = Some b /\ netmask o = Some nm /\ subnet o = Some sb
    /\ total o = Some T
    /\ value_of b = Ok va /\ value_of nm = Ok vm
    /\ value_of sb = Ok (Z.land va vm)
    /\ Z.land va vm mod T = 0
    /\ hostmin o = Some sb.
Proof.
  intros W o. subst o. rewrite (init_well_formed _ _ _ _ W).
  destruct W as [[m [_ [_ [Ha _]]]] [La [Oa Hn]]].
  pose proof (net_of_length a n La) as LN.
  destruct (mask_word n Hn) as [EM _].
  exists (list_to_string (mask_of n)), (list_to_string (net_of a n)),
         (Word32.of_octets a), (Word32.of_octets (mask_of n)), (2 ^ (32 - n)).
  cbn [obj derived base netmask subnet total hostmin].
  repeat split.
  - now rewrite (proj1 (total_power n Hn)).
  - unfold value_of. now rewrite Ha.
  - apply value_of_dotted. discriminate.
  - rewrite value_of_dotted by (now apply nonempty_of_length).
    unfold net_of. rewrite of_octets_land; auto using mask_of_octets.
  - rewrite EM. rewrite <- Z.land_ones by lia.
    apply Z.bits_inj'. intros i Hi.
    rewrite !Z.land_spec, Z.bits_0, Z.testbit_ones by lia.
    destruct (Z.ltb_spec i (32 - n)) as [Lt|Ge].
    + rewrite (top_bits_low n i Hn) by lia.
      now rewrite andb_false_r.
    + now rewrite !andb_false_r.
Qed.

Lemma subnet_is_base_and_netmask_witness :
  well_formed "192.168.0.2/24" "192.168.0.2" [192; 168; 0; 2] 24 /\
  let o := obj (init "192.168.0.2/24") in
  exists (nm sb : string) (va vm T : Z),
    base o = Some "192.168.0.2" /\ netmask o = Some nm /\ subnet o = Some sb
    /\ total o = Some T
    /\ value_of "192.168.0.2" = Ok va /\ value_of nm = Ok vm
    /\ value_of sb = Ok (Z.land va vm)
    /\ Z.land va vm mod T = 0
    /\ hostmin o = Some sb.
Proof.
  split; [exact example_well_formed|].
  exact (subnet_is_base_and_netmask _ _ _ _ example_well_formed).
Defined.

Lemma mask_of_values n : 0 <= n <= 32 -> Forall (fun m => In m mask_values) (mask_of n).
Proof.
  intros Hn.
  apply (range_forall (fun n => Forall (fun m => In m mask_values) (mask_of n))
                      0 33); [|lia].
  let l := eval vm_compute in (range 0 33) in change (range 0 33) with l.
  repeat (constructor;
          [vm_compute; repeat (constructor; [tauto|]); constructor|]).
  constructor.
Qed.

(** Under a netmask octet, the values from the masked octet up to the
    masked octet plus the wildcard octet are those with the same masked
    octet. *)
Lemma octet_block (m a x : Z) :
  In m mask_values -> octet a -> octet x ->
  (Z.land a m <= x <= Z.land a m + (255 - m)) <-> Z.land x m = Z.land a m.
Proof.
  intros Hm Ha Hx.
  pose (P := fun m a x =>
               Bool.eqb ((Z.land a m <=? x) && (x <=? Z.land a m + (255 - m)))
                        (Z.land x m =? Z.land a m)).
  assert (A : List.forallb
                (fun m => List.forallb
                            (fun a => List.forallb (P m a) (range 0 256))
                            (range 0 256))
                mask_values = true) by (vm_compute; reflexivity).
  rewrite forallb_forall in A. specialize (A m Hm).
  pose proof (octet_cases _ A a Ha) as B. cbv beta in B.
  pose proof (octet_cases _ B x Hx) as C. unfold P in C.
  apply Bool.eqb_prop in C.
  rewrite <- Z.eqb_eq, <- C, andb_true_iff, !Z.leb_le. reflexivity.
Qed.

Lemma forall2_four {A B : Type} (P : A -> B -> Prop) x0 x1 x2 x3 r0 r1 r2 r3 :
  Forall2 P [x0; x1; x2; x3] [r0; r1; r2; r3] ->
  P x0 r0 /\ P x1 r1 /\ P x2 r2 /\ P x3 r3.
Proof.
  intros H.
  apply Forall2_cons_iff in H as [H0 H].
  apply Forall2_cons_iff in H as [H1 H].
  apply Forall2_cons_iff in H as [H2 H].
  apply Forall2_cons_iff in H as [H3 _].
  tauto.
Qed.

Lemma product_complete {A : Type} (rs : list (list A)) (t : list A) :
  Forall2 (fun x r => In x r) t rs -> In t (product rs).
Proof.
  induction 1 as [|x r t rs Hx Ht IH]; [now left|].
  cbn [product]. apply in_flat_map. exists x. split; [exact Hx|].
  now apply in_map.
Qed.

Lemma dotted_injective (l1 l2 : list Z) :
  l1 <> [] -> l2 <> [] -> list_to_string l1 = list_to_string l2 -> l1 = l2.
Proof.
  intros H1 H2 E.
  pose proof (parts_dotted l1 H1) as P1. rewrite E, (parts_dotted l2 H2) in P1.
  now injection P1.
Qed.

(** X14.  On a well-formed input the list holds exactly the addresses
    of the subnet: a text of four octets is in the list if and only if
    [network] of it and the netmask field gives the octets of the
    subnet field. *)
Theorem ip_list_is_the_subnet (address b : string) (a : list Z) (n : Z) :
  well_formed address b a n ->
  let o := obj (init address) in
  exists (nm sb : string) (N : list Z) (L : list string),
    netmask o = Some nm /\ subnet o = Some sb /\ allips o = Some L
    /\ octets_of sb = Ok N
    /\ forall x0 x1 x2 x3 : Z,
         octet x0 -> octet x1 -> octet x2 -> octet x3 ->
         (In (list_to_string [x0; x1; x2; x3]) L
          <-> network (list_to_string [x0; x1; x2; x3]) nm = Ok N).
Proof.
  intros W o. subst o. rewrite (init_well_formed _ _ _ _ W).
  destruct W as [_ [La [Oa Hn]]].
  pose proof (net_of_length a n La) as LN.
  pose proof (max_of_length a n La) as LH.
  exists (list_to_string (mask_of n)), (list_to_string (net_of a n)),
         (net_of a n),
         (List.map list_to_string (between (net_of a n) (max_of a n))).
  cbn [obj derived netmask subnet allips].
  repeat split; try (now apply octets_of_dotted, nonempty_of_length).
  - intros Hin. apply in_map_iff in Hin as [t [Et Ht]].
    assert (Nt : t <> [])
      by (apply (between_nonempty_tuples _ _ t
                   (nonempty_of_length _ LN) (nonempty_of_length _ LH) Ht)).
    apply dotted_injective in Et; [|exact Nt|discriminate]. subst t.
    rewrite (network_reads _ [x0; x1; x2; x3] (mask_of n));
      try (apply parts_dotted; discriminate);
      try (repeat (apply Forall_cons; [assumption|]); apply Forall_nil);
      try apply mask_of_octets;
      try (apply nonempty_of_length, mask_of_length).
    f_equal. revert Ht. unfold between, max_of, net_of, wild_of.
    pose proof (mask_of_values n Hn) as MV.
    pose proof (mask_of_length n) as LM.
    destruct (mask_of n) as [|m0 [|m1 [|m2 [|m3 [|]]]]]; try discriminate LM.
    destruct a as [|a0 [|a1 [|a2 [|a3 [|]]]]]; try discriminate La.
    inversion MV as [|? ? V0 T0]; subst. inversion T0 as [|? ? V1 T1]; subst.
    inversion T1 as [|? ? V2 T2]; subst. inversion T2 as [|? ? V3 _]; subst.
    inversion Oa as [|? ? O0 S0]; subst. inversion S0 as [|? ? O1 S1]; subst.
    inversion S1 as [|? ? O2 S2]; subst. inversion S2 as [|? ? O3 _]; subst.
    unfold zip_with. cbn [List.combine List.map fst snd].
    intros Ht. apply in_product, forall2_four in Ht.
    destruct Ht as [I0 [I1 [I2 I3]]].
    apply range_spec in I0, I1, I2, I3.
    f_equal; [|f_equal; [|f_equal; [|f_equal]]];
      apply octet_block; try assumption; lia.
  - intros Hnet. apply in_map_iff. exists [x0; x1; x2; x3].
    split; [reflexivity|].
    rewrite (network_reads _ [x0; x1; x2; x3] (mask_of n)) in Hnet;
      try (apply parts_dotted; discriminate);
      try (repeat (apply Forall_cons; [assumption|]); apply Forall_nil);
      try apply mask_of_octets;
      try (apply nonempty_of_length, mask_of_length).
    injection Hnet as Hnet. revert Hnet.
    unfold between, max_of, net_of, wild_of.
    pose proof (mask_of_values n Hn) as MV.
    pose proof (mask_of_length n) as LM.
    destruct (mask_of n) as [|m0 [|m1 [|m2 [|m3 [|]]]]]; try discriminate LM.
    destruct a as [|a0 [|a1 [|a2 [|a3 [|]]]]]; try discriminate La.
    inversion MV as [|? ? V0 T0]; subst. inversion T0 as [|? ? V1 T1]; subst.
    inversion T1 as [|? ? V2 T2]; subst. inversion T2 as [|? ? V3 _]; subst.
    inversion Oa as [|? ? O0 S0]; subst. inversion S0 as [|? ? O1 S1]; subst.
    inversion S1 as [|? ? O2 S2]; subst. inversion S2 as [|? ? O3 _]; subst.
    unfold zip_with. cbn [List.combine List.map fst snd].
    intros Hnet. injection Hnet as E0 E1 E2 E3.
    apply product_complete.
    repeat constructor; apply range_spec;
      match goal with
      | |- Z.land ?a ?m <= ?x < _ =>
          pose proof (proj2 (octet_block m a x ltac:(assumption)
                               ltac:(assumption) ltac:(assumption))
                            ltac:(assumption)); lia
      end.
Qed.

Lemma ip_list_is_the_subnet_witness :
  well_formed "192.168.0.2/24" "192.168.0.2" [192; 168; 0; 2] 24 /\
  let o := obj (init "192.168.0.2/24") in
  exists (nm sb : string) (N : list Z) (L : list string),
    netmask o = Some nm /\ subnet o = Some sb /\ allips o = Some L
    /\ octets_of sb = Ok N
    /\ forall x0 x1 x2 x3 : Z,
         octet x0 -> octet x1 -> octet x2 -> octet x3 ->
         (In (list_to_string [x0; x1; x2; x3]) L
          <-> network (list_to_string [x0; x1; x2; x3]) nm = Ok N).
Proof.
  split; [exact example_well_formed|].
  exact (ip_list_is_the_subnet _ _ _ _ example_well_formed).
Defined.

(** ** The values of the list of addresses *)

(** A strictly increasing list of integers within an interval has at
    most as many elements as the interval, and with exactly as many it
    is the interval. *)
Lemma sorted_fill (l : list Z) :
  forall lo hi,
    StronglySorted Z.lt l -> Forall (fun x => lo <= x <= hi) l ->
    len l <= Z.max 0 (hi - lo + 1)
    /\ (len l = hi - lo + 1 -> l = range lo (hi + 1)).
Proof.
  unfold len. induction l as [|x t IH]; intros lo hi Hs Hb.
  - cbn [List.length]. split; [lia|].
    intros E. now rewrite range_nil by lia.
  - apply StronglySorted_inv in Hs as [Hs Hx].
    inversion Hb as [|? ? Bx Bt]; subst.
    assert (Bt' : Forall (fun y => x + 1 <= y <= hi) t).
    { apply Forall_forall. intros y Hy.
      rewrite Forall_forall in Hx, Bt.
      specialize (Hx y Hy). specialize (Bt y Hy). lia. }
    destruct (IH (x + 1) hi Hs Bt') as [L F].
    cbn [List.length]. rewrite Nat2Z.inj_succ. split; [lia|].
    intros E. assert (x = lo) by lia. subst x.
    rewrite range_cons by lia. f_equal. apply F. lia.
Qed.

Lemma sorted_within (l : list Z) (d : Z) :
  StronglySorted Z.lt l ->
  Forall (fun x => List.hd d l <= x <= List.last l d) l.
Proof.
  induction 1 as [|x t Hs IH Hx]; [constructor|].
  destruct t as [|y t].
  - constructor; [cbn; lia|constructor].
  - rewrite Forall_forall in Hx.
    assert (Hy : x < y) by (apply Hx; now left).
    change (List.last (x :: y :: t) d) with (List.last (y :: t) d).
    cbn [List.hd] in IH |- *.
    inversion IH as [|? ? By Bt]; subst.
    constructor; [lia|].
    constructor; [lia|].
    apply Forall_forall. intros z Hz.
    rewrite Forall_forall in Bt. specialize (Bt z Hz). lia.
Qed.

Lemma of_octets_add (l1 l2 : list Z) :
  List.length l1 = 4%nat -> List.length l2 = 4%nat ->
  Word32.of_octets (zip_with Z.add l1 l2)
  = Word32.of_octets l1 + Word32.of_octets l2.
Proof.
  destruct l1 as [|a0 [|a1 [|a2 [|a3 [|]]]]]; try discriminate. intros _.
  destruct l2 as [|b0 [|b1 [|b2 [|b3 [|]]]]]; try discriminate. intros _.
  unfold Word32.of_octets, zip_with.
  cbn [List.combine List.map List.fold_left fst snd]. ring.
Qed.

(** X15.  On a well-formed input the 32-bit values of the addresses
    listed are the consecutive integers from the value of the subnet
    field on, as many as the total says: no address of the block is
    missing and none comes twice. *)
Theorem ip_list_values_are_consecutive (address b : string) (a : list Z) (n : Z) :
  well_formed address b a n ->
  let o := obj (init address) in
  exists (sb : string) (L : list string) (vs T : Z),
    subnet o = Some sb /\ allips o = Some L /\ total o = Some T
    /\ value_of sb = Ok vs
    /\ mapM value_of L = Ok (range vs (vs + T)).
Proof.
  intros W o. subst o. rewrite (init_well_formed _ _ _ _ W).
  destruct W as [_ [La [Oa Hn]]].
  pose proof (net_of_length a n La) as LN.
  pose proof (max_of_length a n La) as LH.
  pose proof (nonempty_of_length _ LN) as NN.
  pose proof (nonempty_of_length _ LH) as NH.
  destruct (max_of_lor a n Oa) as [_ [OH _]].
  pose proof (net_of_octets a n Oa) as ON.
  pose proof (between_increasing _ _ ON OH) as SB.
  destruct (between_ends _ _ (net_le_max a n Oa)) as [HD LT].
  pose proof (len_between a n La Oa) as LB.
  destruct (total_power n Hn) as [TP WP].
  set (B := between (net_of a n) (max_of a n)) in *.
  set (vals := List.map Word32.of_octets B) in *.
  assert (NB : B <> []) by (intros E; rewrite E in HD; discriminate HD).
  assert (Hhd : List.hd 0 vals = Word32.of_octets (net_of a n)).
  { unfold vals. destruct B as [|t ts]; [contradiction|].
    cbn in HD |- *. now injection HD as ->. }
  assert (Hlast : List.last vals 0 = Word32.of_octets (max_of a n)).
  { unfold vals. rewrite (last_map Word32.of_octets B [] NB). now rewrite LT. }
  assert (Hmax : Word32.of_octets (max_of a n)
                 = Word32.of_octets (net_of a n) + 2 ^ (32 - n) - 1).
  { unfold max_of. rewrite of_octets_add by (exact LN || reflexivity). lia. }
  assert (Hlen : len vals = 2 ^ (32 - n)).
  { unfold vals, len. rewrite length_map. fold (len B). now rewrite LB. }
  pose proof (sorted_within vals 0 SB) as Bnd. rewrite Hhd, Hlast in Bnd.
  destruct (sorted_fill vals _ _ SB Bnd) as [_ Fill].
  exists (list_to_string (net_of a n)), (List.map list_to_string B),
         (Word32.of_octets (net_of a n)), (2 ^ (32 - n)).
  cbn [obj derived subnet allips total]. fold B.
  repeat split.
  - now rewrite TP.
  - now apply value_of_dotted.
  - unfold B at 1. rewrite (values_between _ _ NN NH). fold B. fold vals.
    f_equal. rewrite Fill by lia. f_equal. lia.
Qed.

Lemma ip_list_values_are_consecutive_witness :
  well_formed "192.168.0.2/24" "192.168.0.2" [192; 168; 0; 2] 24 /\
  let o := obj (init "192.168.0.2/24") in
  exists (sb : string) (L : list string) (vs T : Z),
    subnet o = Some sb /\ allips o = Some L /\ total o = Some T
    /\ value_of sb = Ok vs
    /\ mapM value_of L = Ok (range vs (vs + T)).
Proof.
  split; [exact example_well_formed|].
  exact (ip_list_values_are_consecutive _ _ _ _ example_well_formed).
Defined.

(** ** The table and the main program *)

Lemma table_rows_only_attribute_error (styled : bool) (o : CIDR) (e : exn) :
  snd (table_rows styled o) = Raise e -> e = AttributeError.
Proof.
  destruct o as [b n w bb s lo hi t bc al].
  unfold table_rows, seq, attr, call.
  cbn [base netmask wildcard binBase subnet hostmin hostmax total broadcast allips].
  destruct b, n, w, bc, s, lo, hi, t; cbn [snd]; intros H;
    try discriminate H; now injection H.
Qed.

Lemma table_rows_unset_base (styled : bool) (o : CIDR) :
  base o = None -> snd (table_rows styled o) = Raise AttributeError.
Proof.
  intros H. unfold table_rows, seq, attr. now rewrite H.
Qed.

Lemma to_text_result (styled : bool) (o : CIDR) :
  snd (to_text styled o)
  = match snd (table_rows styled o) with
    | Ok rows => Ok (if styled then Table rows else TableObject)
    | Raise e => Raise e
    end.
Proof.
  unfold to_text, seq, call.
  now destruct (table_rows styled o) as [self [rows|e]].
Qed.

(** The loop over the objects stops at the first one whose table cannot
    be built. *)
Lemma print_all_stops (styled : bool) (items : list CIDR) (o : CIDR) :
  In o items -> snd (table_rows styled o) = Raise AttributeError ->
  snd (print_all styled items) = Uncaught AttributeError.
Proof.
  induction items as [|x items IH]; intros Hin Ho; [contradiction|].
  cbn [print_all]. rewrite to_text_result.
  destruct (snd (table_rows styled x)) as [r|e] eqn:Ex.
  - destruct Hin as [->|Hin]; [rewrite Ho in Ex; discriminate Ex|].
    specialize (IH Hin Ho).
    destruct (print_all styled items) as [ev en]. exact IH.
  - now rewrite (table_rows_only_attribute_error styled x e Ex).
Qed.

Lemma report_ending (argv : list string) (outcomes : list outcome) :
  snd (report argv outcomes)
  = snd (print_all (1 <? len argv) (List.map obj outcomes)).
Proof.
  unfold report.
  destruct (List.existsb (String.eqb "-o") argv);
    now destruct (print_all (1 <? len argv) (List.map obj outcomes)).
Qed.

Lemma split_last c s :
  split c (s ++ String c "") = (split c s ++ [""])%list.
Proof.
  induction s as [|x s IH]; cbn [append split].
  - now rewrite Ascii.eqb_refl.
  - rewrite IH. destruct (Ascii.eqb x c); [reflexivity|].
    pose proof (split_nonempty c s) as N.
    destruct (split c s) as [|h t]; [contradiction|reflexivity].
Qed.

(** X17.  Input read from a pipe that is empty or ends with a line
    feed has an empty last line.  The constructor prints its ValueError
    for that line, and the program ends with an AttributeError that
    nobody catches: [__str__] raises it on the first object that lacks
    an attribute, at the latest on the one of that line, which has
    none. *)
Theorem piped_input_ending_in_newline_crashes (stdin : string) (argv : list string) :
  stdin = "" \/ (exists text, stdin = text ++ String nl "") ->
  snd (main false stdin argv) = Uncaught AttributeError
  /\ In (Printed ValueError) (fst (main false stdin argv)).
Proof.
  intros H.
  assert (L : exists lines, split nl stdin = (lines ++ [""])%list).
  { destruct H as [->|[text ->]].
    - now exists [].
    - exists (split nl text). apply split_last. }
  destruct L as [lines L].
  unfold main. cbn [negb]. change (0 <? 0) with false. cbv iota.
  fold nl. rewrite L.
  assert (E : init "" = mkOutcome fresh (Some ValueError)) by reflexivity.
  split.
  - rewrite report_ending. apply (print_all_stops _ _ fresh).
    + rewrite map_map, map_app. apply in_or_app. right.
      cbn [List.map]. rewrite E. now left.
    + now apply table_rows_unset_base.
  - unfold report.
    destruct (if List.existsb (String.eqb "-o") argv
              then print_all (1 <? len argv) (List.map obj (List.map init (lines ++ [""])%list))
              else print_all (1 <? len argv) (List.map obj (List.map init (lines ++ [""])%list)))
      as [ev en].
    cbn [fst]. apply in_or_app. left.
    rewrite map_app. cbn [List.map]. rewrite E. clear L.
    induction lines as [|x lines IH].
    + cbn [List.map app printed_by printed]. apply in_eq.
    + cbn [List.map app printed_by].
      destruct (printed (init x)); [right; exact IH | exact IH].
Qed.

Lemma piped_input_ending_in_newline_crashes_witness :
  ("" = "" \/ (exists text, "" = text ++ String nl "")) /\
  snd (main false "" ["netcider.py"]) = Uncaught AttributeError
  /\ In (Printed ValueError) (fst (main false "" ["netcider.py"])).
Proof.
  split; [now left|].
  exact (piped_input_ending_in_newline_crashes "" ["netcider.py"]
           (or_introl eq_refl)).
Defined.

Lemma table_rows_derived (styled : bool) (b : string) (a : list Z) (n : Z) :
  snd (table_rows styled (derived b a n))
  = Ok (rows_of styled b (list_to_string (mask_of n))
                (list_to_string (wild_of n)) (list_to_string (max_of a n))
                (list_to_string (net_of a n)) (list_to_string (net_of a n))
                (list_to_string (max_of a n))
                (prod (List.map (fun w => w + 1) (wild_of n)))).
Proof. reflexivity. Qed.

(** The text written for a well-formed line: the table of its rows
    when [sys.argv] has more than one element, otherwise the
    representation of the table object. *)
Lemma texts_of_well_formed (styled : bool) (lines : list string) :
  Forall (fun l => exists b a n, well_formed l b a n) lines ->
  printed_by (List.map init lines) = []
  /\ exists events,
       print_all styled (List.map obj (List.map init lines)) = (events, Exit)
       /\ Forall2 (fun l ev =>
                     exists b a n,
                       well_formed l b a n
                       /\ ev = if styled
                               then Table
                                      (rows_of true b (list_to_string (mask_of n))
                                         (list_to_string (wild_of n))
                                         (list_to_string (max_of a n))
                                         (list_to_string (net_of a n))
                                         (list_to_string (net_of a n))
                                         (list_to_string (max_of a n))
                                         (2 ^ (32 - n)))
                               else TableObject)
                  lines events.
Proof.
  induction 1 as [|l lines [b [a [n W]]] Hl [IHp [events [IHt IHf]]]].
  - split; [reflexivity|]. exists []. split; [reflexivity|constructor].
  - pose proof (init_well_formed _ _ _ _ W) as E.
    cbn [List.map printed_by print_all]. rewrite E. cbn [printed obj].
    split; [exact IHp|].
    rewrite to_text_result, table_rows_derived, IHt.
    eexists. split; [reflexivity|].
    constructor; [|exact IHf].
    exists b, a, n. split; [exact W|].
    destruct W as [_ [_ [_ Hn]]]. rewrite (proj1 (total_power n Hn)).
    now destruct styled.
Qed.

(** X18.  Lines read from a pipe, each a well-formed input and the last
    one not followed by a line feed, make the program write one text
    per line, print no exception and end normally.  What the texts are
    depends on the number of command-line arguments only: when the
    program is called without arguments, as in a plain pipe, every text
    is the representation of a rich table object and none of the
    computed values is written; with at least one argument, whatever it
    is, the texts are the coloured tables of the lines, in the order of
    the lines. *)
Theorem piped_lines_show_rows_only_with_arguments (lines argv : list string) :
  lines <> [] ->
  Forall (fun l => occurs nl l = false) lines ->
  Forall (fun l => exists b a n, well_formed l b a n) lines ->
  exists events,
    main false (join (String nl "") lines) argv = (events, Exit)
    /\ (len argv <= 1 ->
        events = List.repeat TableObject (List.length lines))
    /\ (1 < len argv ->
        Forall2 (fun l ev =>
                   exists b a n,
                     well_formed l b a n
                     /\ ev = Table
                               (rows_of true b (list_to_string (mask_of n))
                                  (list_to_string (wild_of n))
                                  (list_to_string (max_of a n))
                                  (list_to_string (net_of a n))
                                  (list_to_string (net_of a n))
                                  (list_to_string (max_of a n))
                                  (2 ^ (32 - n))))
                lines events).
Proof.
  intros Hne Hnl Hwf.
  destruct (texts_of_well_formed (1 <? len argv) lines Hwf)
    as [Hp [events [Ht Hf]]].
  exists events. split; [|split].
  - unfold main. cbn [negb]. change (0 <? 0) with false. cbv iota.
    fold nl. rewrite (split_join nl lines Hne Hnl).
    unfold report. rewrite Hp, Ht.
    now destruct (List.existsb (String.eqb "-o") argv).
  - intros H1.
    replace (1 <? len argv) with false in Hf
      by (symmetry; apply Z.ltb_ge; exact H1).
    clear - Hf.
    induction Hf as [|l ev lines events [b [a [n [_ ->]]]] _ IH];
      [reflexivity|].
    cbn [List.length List.repeat]. now rewrite IH.
  - intros H1.
    replace (1 <? len argv) with true in Hf
      by (symmetry; apply Z.ltb_lt; exact H1).
    exact Hf.
Qed.

Lemma second_example_well_formed :
  well_formed "10.0.0.5/30" "10.0.0.5" [10; 0; 0; 5] 30.
Proof.
  split; [|split; [|split]].
  - exists "30". repeat split; reflexivity.
  - reflexivity.
  - unfold octet. repeat constructor; lia.
  - lia.
Defined.

Lemma piped_lines_show_rows_only_with_arguments_witness :
  ["192.168.0.2/24"; "10.0.0.5/30"] <> []
  /\ main false (join (String nl "") ["192.168.0.2/24"; "10.0.0.5/30"])
          ["netcider.py"]
     = ([TableObject; TableObject], Exit).
Proof.
  split; [discriminate|].
  destruct (piped_lines_show_rows_only_with_arguments
              ["192.168.0.2/24"; "10.0.0.5/30"] ["netcider.py"])
    as [events [E [U _]]].
  - discriminate.
  - repeat constructor.
  - constructor; [|constructor; [|constructor]].
    + exists "192.168.0.2", [192; 168; 0; 2], 24. exact example_well_formed.
    + exists "10.0.0.5", [10; 0; 0; 5], 30. exact second_example_well_formed.
  - rewrite E, U; [reflexivity|]. unfold len. cbn. lia.
Defined.

(** *** The argument the program picks *)

Lemma fold_left_index_sum (l : list string) (k : nat) (x : Z) :
  List.fold_left Z.add
    (List.map (fun iv : Z * string => if selected (snd iv) then fst iv else 0)
              (List.combine (List.map Z.of_nat (List.seq k (List.length l))) l))
    x
  = x + index_sum (Z.of_nat k) l.
Proof.
  revert k x. induction l as [|v l IH]; intros k x.
  - cbn. lia.
  - cbn [List.length List.seq List.map List.combine List.fold_left fst snd
         index_sum].
    rewrite IH. rewrite Nat2Z.inj_succ. unfold Z.succ. lia.
Qed.

Lemma ip_location_sum (v : string) (t : list string) :
  ip_location (v :: t) = Ok (index_sum 0 (v :: t)).
Proof.
  unfold ip_location, enumerate.
  cbn [List.length List.seq List.map List.combine reduce_add fst snd index_sum].
  now rewrite fold_left_index_sum.
Qed.

Lemma index_sum_none (k : Z) (l : list string) :
  Forall (fun v => selected v = false) l -> index_sum k l = 0.
Proof.
  intros H. revert k. induction H as [|v l Hv Hl IH]; intros k; [reflexivity|].
  cbn [index_sum]. now rewrite Hv, IH.
Qed.

Lemma index_sum_one (k : Z) (pre post : list string) (a : string) :
  Forall (fun v => selected v = false) pre ->
  Forall (fun v => selected v = false) post ->
  selected a = true ->
  index_sum k (pre ++ a :: post)%list = k + len pre.
Proof.
  intros Hpre Hpost Ha. revert k.
  induction Hpre as [|v pre Hv Hp IH]; intros k.
  - cbn [app index_sum]. rewrite Ha, (index_sum_none _ _ Hpost).
    unfold len. cbn. lia.
  - cbn [app index_sum]. rewrite Hv, IH. unfold len. cbn [List.length]. lia.
Qed.

(** The first part of a text split on [c] ends at the first [c]. *)
Lemma index_of_split c s p q r :
  split c s = p :: q :: r -> Py.index c s = Ok (String.length p).
Proof.
  revert p. induction s as [|x s IH]; intros p H; cbn [split] in H.
  - discriminate H.
  - cbn [Py.index]. destruct (Ascii.eqb x c).
    + injection H as <- _. reflexivity.
    + destruct (split c s) as [|h t] eqn:E; [discriminate H|].
      injection H as Hp Ht. subst p t. now rewrite (IH h eq_refl).
Qed.

Lemma index_app_found c s t n :
  Py.index c s = Ok n -> Py.index c (s ++ t) = Ok n.
Proof.
  revert n. induction s as [|x s IH]; intros n H; cbn [Py.index append] in *.
  - discriminate H.
  - destruct (Ascii.eqb x c); [exact H|].
    destruct (Py.index c s) as [k|e]; [|discriminate H].
    now rewrite (IH k eq_refl).
Qed.

(** A well-formed input passes the test of the main program. *)
Lemma well_formed_selected address b a n :
  well_formed address b a n -> selected address = true.
Proof.
  intros [[m [-> [Hb [Ha _]]]] [La _]].
  pose proof (mapM_length _ _ _ Ha) as L. rewrite La in L.
  destruct (split "." b) as [|p [|q r]] eqn:E; try discriminate L.
  assert (Np : p <> "").
  { intros ->. cbn [mapM] in Ha. discriminate Ha. }
  pose proof (index_of_split "." b p q r E) as I.
  assert (Nb : b <> "") by (intros ->; discriminate E).
  unfold selected, find.
  rewrite (index_app_found _ _ _ _ I).
  replace (0 <? Z.of_nat (String.length p)) with true
    by (symmetry; apply Z.ltb_lt; destruct p; [contradiction|cbn; lia]).
  change ("/" ++ m) with (String "/" m).
  rewrite (index_first _ _ _ Hb).
  apply Z.ltb_lt. destruct b; [contradiction|cbn; lia].
Qed.

(** X19.  On a terminal, when exactly one argument after the program
    name passes the test of the main program and it is a well-formed
    input, the program writes the table of that input, in the coloured
    style, and ends normally.  The other arguments, the option [-o]
    among them, change nothing: the list of addresses is never
    written. *)
Theorem single_argument_is_tabulated
        (prog address b : string) (a : list Z) (n : Z)
        (before after : list string) (stdin : string) :
  well_formed address b a n ->
  Forall (fun v => selected v = false) before ->
  Forall (fun v => selected v = false) after ->
  main true stdin (prog :: before ++ address :: after)%list
  = ([Table
        (rows_of true b (list_to_string (mask_of n))
                 (list_to_string (wild_of n)) (list_to_string (max_of a n))
                 (list_to_string (net_of a n)) (list_to_string (net_of a n))
                 (list_to_string (max_of a n)) (2 ^ (32 - n)))],
     Exit).
Proof.
  intros W Hb Ha.
  pose proof (well_formed_selected _ _ _ _ W) as Hsel.
  unfold main. cbn [negb]. rewrite ip_location_sum.
  cbn [index_sum].
  rewrite (index_sum_one (0 + 1) before after address Hb Ha Hsel).
  replace ((if selected prog then 0 else 0) + (0 + 1 + len before))
    with (1 + len before) by (destruct (selected prog); lia).
  replace (0 <? 1 + len before) with true
    by (symmetry; apply Z.ltb_lt; unfold len; lia).
  replace (Z.to_nat (1 + len before)) with (S (List.length before))
    by (unfold len; lia).
  cbn [List.nth_error].
  rewrite nth_error_app2 by lia. rewrite Nat.sub_diag. cbn [List.nth_error].
  unfold report.
  replace (1 <? len (prog :: before ++ address :: after)%list) with true.
  2:{ symmetry. apply Z.ltb_lt. unfold len. cbn [List.length].
      rewrite length_app. cbn [List.length]. lia. }
  rewrite (init_well_formed _ _ _ _ W).
  cbn [List.map obj printed_by printed print_all].
  rewrite to_text_result, table_rows_derived.
  destruct W as [_ [_ [_ Hn]]]. rewrite (proj1 (total_power n Hn)).
  now destruct (List.existsb _ _).
Qed.

Lemma single_argument_is_tabulated_witness :
  well_formed "192.168.0.2/24" "192.168.0.2" [192; 168; 0; 2] 24 /\
  main true "" ("netcider.py" :: ["-o"] ++ "192.168.0.2/24" :: [])%list
  = ([Table
        (rows_of true "192.168.0.2" (list_to_string (mask_of 24))
                 (list_to_string (wild_of 24))
                 (list_to_string (max_of [192; 168; 0; 2] 24))
                 (list_to_string (net_of [192; 168; 0; 2] 24))
                 (list_to_string (net_of [192; 168; 0; 2] 24))
                 (list_to_string (max_of [192; 168; 0; 2] 24))
                 (2 ^ (32 - 24)))],
     Exit).
Proof.
  split; [exact example_well_formed|].
  apply (single_argument_is_tabulated "netcider.py" _ _ _ _ ["-o"] [] ""
           example_well_formed).
  - repeat constructor.
  - constructor.
Defined.

(** X20.  On a terminal, with two arguments after the program name
    that both pass the test, the program adds their positions 1 and 2
    and looks for an argument at position 3: it ends with an IndexError
    that nobody catches, and no subnet is processed. *)
Theorem two_arguments_crash (prog a1 a2 stdin : string) :
  selected a1 = true -> selected a2 = true ->
  main true stdin [prog; a1; a2] = ([], Uncaught IndexError).
Proof.
  intros H1 H2. unfold main. cbn [negb]. rewrite ip_location_sum.
  cbn [index_sum]. rewrite H1, H2.
  now destruct (selected prog).
Qed.

Lemma two_arguments_crash_witness :
  selected "10.0.0.5/30" = true /\ selected "192.168.0.2/24" = true /\
  main true "" ["netcider.py"; "10.0.0.5/30"; "192.168.0.2/24"]
  = ([], Uncaught IndexError).
Proof.
  split; [reflexivity|]. split; [reflexivity|].
  exact (two_arguments_crash "netcider.py" "10.0.0.5/30" "192.168.0.2/24" ""
           eq_refl eq_refl).
Defined.

(** X21.  On a terminal, when no argument after the program name has a
    dot and a slash, each after its first character, the program
    writes the usage text and ends; position 0 never counts, whatever
    the program name looks like, and standard input is not read. *)
Theorem no_argument_shows_usage (prog stdin : string) (args : list string) :
  Forall (fun v => selected v = false) args ->
  main true stdin (prog :: args) = ([Usage], Exit).
Proof.
  intros H. unfold main. cbn [negb]. rewrite ip_location_sum.
  cbn [index_sum]. rewrite (index_sum_none _ _ H).
  now destruct (selected prog).
Qed.

Lemma no_argument_shows_usage_witness :
  Forall (fun v => selected v = false) ["-o"; ".5/24"; "/1.2.3.4"; "10.0.0.5"] /\
  main true "" ("a.b/netcider.py" :: ["-o"; ".5/24"; "/1.2.3.4"; "10.0.0.5"])
  = ([Usage], Exit).
Proof.
  assert (H : Forall (fun v => selected v = false)
                     ["-o"; ".5/24"; "/1.2.3.4"; "10.0.0.5"])
    by (repeat constructor).
  split; [exact H|].
  exact (no_argument_shows_usage "a.b/netcider.py" "" _ H).
Defined.

(** ** Text and back *)

(** X22.  The dotted text that [list_to_string] makes of a list of
    integers that is not empty reads back, through [split] and [int],
    as the same list, so two different lists never give the same text;
    the text of the empty list is empty and does not read back. *)
Theorem dotted_text_reads_back (l : list Z) :
  l <> [] ->
  octets_of (list_to_string l) = Ok l
  /\ (forall l' : list Z,
        l' <> [] -> list_to_string l = list_to_string l' -> l = l')
  /\ octets_of (list_to_string (@nil Z)) = Raise ValueError.
Proof.
  intros H. split; [now apply parts_dotted|]. split; [|reflexivity].
  intros l' H' E. now apply dotted_injective.
Qed.

Lemma dotted_text_reads_back_witness :
  [192; 168; 0; 2] <> [] /\
  octets_of (list_to_string [192; 168; 0; 2]) = Ok [192; 168; 0; 2].
Proof.
  assert (H : [192; 168; 0; 2] <> []) by discriminate.
  split; [exact H|].
  exact (proj1 (dotted_text_reads_back [192; 168; 0; 2] H)).
Defined.

Lemma bin8_length z : octet z -> String.length (bin8 z) = 8%nat.
Proof.
  intros Hz.
  pose (P := fun z => (String.length (bin8 z) =? 8)%nat).
  assert (H : P z = true) by (apply octet_cases; [vm_compute; reflexivity | exact Hz]).
  now apply Nat.eqb_eq in H.
Qed.

(** X23.  [address_to_bin] followed by [bin_to_address] gives back the
    numbers of a dotted text, whatever their size, when none is
    negative; for numbers up to 255 each binary text has exactly eight
    characters. *)
Theorem binary_text_reads_back (s : string) (a : list Z) :
  octets_of s = Ok a -> Forall (fun z => 0 <= z) a ->
  exists t : list string,
    address_to_bin s = Ok t
    /\ bin_to_address t = Ok a
    /\ (Forall octet a -> Forall (fun x => String.length x = 8%nat) t).
Proof.
  intros Hs Ha. exists (List.map bin8 a).
  split; [now apply address_to_bin_reads|]. split.
  - unfold bin_to_address. clear Hs.
    induction Ha as [|z a Hz Ha IH]; [reflexivity|].
    cbn [List.map mapM]. now rewrite (int2_bin8_nonneg z Hz), IH.
  - intros Oa. apply Forall_forall. intros x Hx.
    apply in_map_iff in Hx as [z [<- Hz]].
    rewrite Forall_forall in Oa. now apply bin8_length, Oa.
Qed.

Lemma binary_text_reads_back_witness :
  octets_of "300.1.1.1" = Ok [300; 1; 1; 1] /\
  exists t : list string,
    address_to_bin "300.1.1.1" = Ok t
    /\ bin_to_address t = Ok [300; 1; 1; 1]
    /\ (Forall octet [300; 1; 1; 1] ->
        Forall (fun x => String.length x = 8%nat) t).
Proof.
  split; [reflexivity|].
  apply (binary_text_reads_back "300.1.1.1" [300; 1; 1; 1] eq_refl).
  repeat constructor; lia.
Defined.

(** ** [host_min] and the list between two addresses *)

Lemma split_parts_free c s : Forall (fun p => occurs c p = false) (split c s).
Proof.
  induction s as [|x s IH]; cbn [split].
  - repeat constructor.
  - destruct (Ascii.eqb x c) eqn:E.
    + constructor; [reflexivity|exact IH].
    + destruct (split c s) as [|h t]; [repeat constructor; cbn; now rewrite E|].
      inversion IH as [|? ? Hh Ht]; subst.
      constructor; [cbn [occurs]; now rewrite E, Hh | exact Ht].
Qed.

Lemma set_item_forall {A : Type} (P : A -> Prop) (i : nat) (v : A) (l : list A) :
  P v -> Forall P l -> Forall P (set_item i v l).
Proof.
  intros Hv H. revert i. induction H as [|x l Hx Hl IH]; intros [|i];
    cbn [set_item]; try constructor; auto.
Qed.

Lemma set_item_nth {A : Type} (i : nat) (v x : A) (l : list A) :
  List.nth_error l i = Some x -> List.nth_error (set_item i v l) i = Some v.
Proof.
  revert i. induction l as [|y l IH]; intros [|i] H; try discriminate H.
  - reflexivity.
  - cbn [set_item List.nth_error] in *. now apply IH.
Qed.

(** X24.  [host_min] is idempotent: applied to a text it returned, it
    returns that text unchanged.  It only normalises the fourth part of
    the address. *)
Theorem host_min_idempotent (s t : string) :
  host_min s = Ok t -> host_min t = Ok t.
Proof.
  intros H. unfold host_min in H.
  destruct (List.nth_error (split "." s) 3) as [p|] eqn:E; [|discriminate H].
  destruct (int p) as [z|e]; [|discriminate H].
  change (Ok (list_to_string (set_item 3 (str z) (split "." s))) = Ok t) in H.
  remember (set_item 3 (str z) (split "." s)) as parts eqn:EP.
  injection H as <-. unfold host_min.
  assert (F : Forall (fun q => occurs "." q = false) parts).
  { subst parts.
    apply set_item_forall; [now apply occurs_str | apply split_parts_free]. }
  assert (N : List.nth_error parts 3 = Some (str z))
    by (subst parts; apply (set_item_nth 3 (str z) p), E).
  clear EP.
  assert (NE : parts <> []) by (intros C; rewrite C in N; discriminate N).
  rewrite list_to_string_text, (split_join "." parts NE F), N, int_str.
  cbn [bind]. rewrite (set_item_same 3 (str z) parts N).
  now rewrite list_to_string_text.
Qed.

Lemma host_min_idempotent_witness :
  host_min "10.0.0.007" = Ok "10.0.0.7" /\ host_min "10.0.0.7" = Ok "10.0.0.7".
Proof.
  split; [reflexivity|].
  exact (host_min_idempotent "10.0.0.007" "10.0.0.7" eq_refl).
Defined.

Lemma flat_map_nil {A B : Type} (r : list A) :
  List.flat_map (fun _ : A => @nil B) r = [].
Proof. induction r as [|x r IH]; [reflexivity|exact IH]. Qed.

Lemma product_empty {A : Type} (rs : list (list A)) :
  In [] rs -> product rs = [].
Proof.
  induction rs as [|r rs IH]; intros H; [contradiction|].
  cbn [product]. destruct H as [->|H]; [reflexivity|].
  rewrite (IH H). cbn [List.map]. apply flat_map_nil.
Qed.

Lemma nth_error_combine {A B : Type} (l1 : list A) (l2 : list B) i x y :
  List.nth_error l1 i = Some x -> List.nth_error l2 i = Some y ->
  List.nth_error (List.combine l1 l2) i = Some (x, y).
Proof.
  revert l2 i. induction l1 as [|a l1 IH]; intros [|b l2] [|i] H1 H2;
    try discriminate H1; try discriminate H2.
  - cbn in *. injection H1 as ->. now injection H2 as ->.
  - cbn [List.combine List.nth_error] in *. now apply IH.
Qed.

(** X25.  When at some position the octet of the lower address exceeds
    the octet of the upper one, [get_ip_list] raises nothing and
    returns the empty list, whatever the other octets are. *)
Theorem ip_list_empty_when_min_exceeds_max (lo hi : list Z) (i : nat) (x y : Z) :
  List.nth_error lo i = Some x -> List.nth_error hi i = Some y -> y < x ->
  get_ip_list (list_to_string lo) (list_to_string hi) = Ok [].
Proof.
  intros Hx Hy Hlt.
  assert (Nlo : lo <> []) by (intros E; rewrite E in Hx; destruct i; discriminate Hx).
  assert (Nhi : hi <> []) by (intros E; rewrite E in Hy; destruct i; discriminate Hy).
  rewrite (get_ip_list_dotted lo hi Nlo Nhi). unfold between.
  rewrite product_empty; [reflexivity|].
  pose proof (nth_error_combine lo hi i x y Hx Hy) as C.
  apply (map_nth_error (fun ij : Z * Z => range (fst ij) (snd ij + 1))) in C.
  cbn [fst snd] in C. rewrite range_nil in C by lia.
  now apply nth_error_In in C.
Qed.

Lemma ip_list_empty_when_min_exceeds_max_witness :
  List.nth_error [10; 0; 5; 0] 2 = Some 5 /\
  List.nth_error [10; 0; 4; 255] 2 = Some 4 /\
  get_ip_list (list_to_string [10; 0; 5; 0]) (list_to_string [10; 0; 4; 255])
  = Ok [].
Proof.
  split; [reflexivity|]. split; [reflexivity|].
  exact (ip_list_empty_when_min_exceeds_max [10; 0; 5; 0] [10; 0; 4; 255] 2 5 4
           eq_refl eq_refl ltac:(lia)).
Defined.

(** ** Numbers outside the ranges *)

(** The two mask methods on any integer. *)
Lemma masks_any (m : string) (n : Z) :
  int m = Ok n ->
  calculate_netmask m = Ok (list_to_string (any_mask n))
  /\ calculate_wildcard m
     = Ok (list_to_string (List.map (fun val => 255 - val) (any_mask n)))
  /\ Forall octet (any_mask n)
  /\ (4 <= List.length (any_mask n))%nat.
Proof.
  intros Hm. unfold any_mask.
  destruct (n <? 0) eqn:E0; [|destruct (n <=? 32) eqn:E1].
  - apply Z.ltb_lt in E0.
    destruct (masks_below_0 m n Hm E0) as [H1 H2].
    split; [exact H1|]. split; [exact H2|]. split.
    + apply Forall_forall. intros x Hx. apply repeat_spec in Hx. subst x.
      unfold octet. lia.
    + rewrite repeat_length.
      assert (4 <= (32 - n) / 8) by (apply Z.div_le_lower_bound; lia). lia.
  - apply Z.ltb_ge in E0. apply Z.leb_le in E1.
    split; [apply calculate_netmask_reads; [exact Hm|lia]|].
    split; [apply (calculate_wildcard_reads m n Hm); lia|].
    split; [apply mask_of_octets|]. rewrite mask_of_length. lia.
  - apply Z.leb_gt in E1.
    destruct (masks_beyond_32 m n Hm ltac:(lia)) as [H1 H2].
    split; [exact H1|]. split; [exact H2|]. split.
    + apply Forall_forall. intros x Hx. apply repeat_spec in Hx. subst x.
      unfold octet. lia.
    + rewrite repeat_length.
      assert (4 <= n / 8) by (apply Z.div_le_lower_bound; lia). lia.
Qed.









(** ** The table after the constructor *)

Lemma host_min_returns (v : list Z) (lo : string) :
  host_min (list_to_string v) = Ok lo ->
  lo = list_to_string v /\ (4 <= List.length v)%nat.
Proof.
  intros H.
  destruct (Nat.le_gt_cases 4 (List.length v)) as [L|L].
  - rewrite (host_min_long v L) in H. injection H as <-. now split.
  - destruct v as [|x v]; [discriminate H|].
    rewrite (host_min_short (x :: v)) in H; [discriminate H|discriminate|exact L].
Qed.

(** Once hostmin and hostmax are assigned, [get_ip_list] cannot raise:
    both texts are lists of integers written by [list_to_string]. *)
Lemma ip_list_after_host_max (v : list Z) (m w lo hi : string) :
  calculate_wildcard m = Ok w ->
  host_min (list_to_string v) = Ok lo ->
  host_max (list_to_string v) w = Ok hi ->
  exists L, get_ip_list lo hi = Ok L.
Proof.
  intros Hw Hlo Hhi.
  destruct (int m) as [n|e] eqn:Hm.
  2:{ unfold calculate_wildcard in Hw. rewrite Hm in Hw. discriminate Hw. }
  destruct (masks_any m n Hm) as [_ [Hwc [_ LM]]].
  set (W := List.map (fun val => 255 - val) (any_mask n)) in *.
  assert (Ew : w = list_to_string W) by congruence. subst w.
  destruct (host_min_returns v lo Hlo) as [-> Lv].
  assert (Nv : v <> []) by (destruct v; [cbn in Lv; lia | discriminate]).
  assert (LW : (4 <= List.length W)%nat) by (unfold W; now rewrite length_map).
  assert (Eh : hi = list_to_string (zip_with Z.add v W))
    by (pose proof (host_max_long v W Nv LW); congruence).
  subst hi.
  assert (NH : zip_with Z.add v W <> []).
  { intros E. apply (f_equal (@List.length Z)) in E.
    rewrite zip_with_len in E. cbn [List.length] in E. lia. }
  eexists. exact (get_ip_list_dotted v (zip_with Z.add v W) Nv NH).
Qed.

Ltac run_step_eq :=
  first
    [ rewrite seq_assoc
    | rewrite seq_assign
    | erewrite seq_attr by reflexivity
    | rewrite seq_call_cases;
      match goal with
      | |- context [match ?r with Ok _ => _ | Raise _ => _ end] =>
          let E := fresh "E" in destruct r eqn:E
      end ];
  cbv beta.

(** The last assignment, to allips, never raises. *)
Lemma allips_assignment_succeeds (address : string) (index : nat) (o : CIDR)
      (s : stmt unit) (e : exn) :
  run (List.firstn 9 (assignments address index)) fresh = (o, Ok tt) ->
  List.nth_error (assignments address index) 9 = Some s ->
  s o = (o, Raise e) -> False.
Proof.
  unfold assignments; cbv zeta; cbn [List.firstn run List.nth_error].
  intros Hr Hs. injection Hs as <-. revert Hr.
  repeat run_step_eq; intros Hr; try discriminate Hr.
  injection Hr as <-.
  match goal with
  | Hw : calculate_wildcard _ = Ok ?w,
    Hlo : host_min (list_to_string ?v) = Ok ?lo,
    Hhi : host_max (list_to_string ?v) ?w = Ok ?hi |- _ =>
      destruct (ip_list_after_host_max v _ w lo hi Hw Hlo Hhi) as [L HL]
  end.
  erewrite (seq_attr hostmin) by reflexivity.
  erewrite (seq_attr hostmax) by reflexivity.
  rewrite (seq_call_ok _ _ _ _ HL).
  intros H. discriminate H.
Qed.

Lemma to_text_unset (styled : bool) (o : CIDR) :
  In false [is_set (base o); is_set (netmask o); is_set (wildcard o);
            is_set (broadcast o); is_set (subnet o); is_set (hostmin o);
            is_set (hostmax o); is_set (total o)] ->
  snd (to_text styled o) = Raise AttributeError.
Proof.
  rewrite to_text_result.
  destruct o as [b n w bb s lo hi t bc al].
  unfold table_rows, seq, attr, call.
  cbn [base netmask wildcard binBase subnet hostmin hostmax total broadcast
       allips In].
  destruct b, n, w, bc, s, lo, hi, t; cbn [is_set snd]; intros H;
    try reflexivity;
    repeat (destruct H as [H|H]; try discriminate H); contradiction.
Qed.

Lemma to_text_set (styled : bool) (o : CIDR) :
  populated o = List.repeat true 10 ->
  exists text, snd (to_text styled o) = Ok text.
Proof.
  rewrite to_text_result.
  destruct o as [b n w bb s lo hi t bc al].
  unfold populated, table_rows, seq, attr, call.
  cbn [base netmask wildcard binBase subnet hostmin hostmax total broadcast
       allips List.repeat].
  destruct b, n, w, bc, s, lo, hi, t; cbn [is_set snd]; intros H;
    try discriminate H; eexists; reflexivity.
Qed.

Lemma to_text_after_init (styled : bool) (address : string) :
  match printed (init address) with
  | None => exists text, snd (to_text styled (obj (init address))) = Ok text
  | Some _ => snd (to_text styled (obj (init address))) = Raise AttributeError
  end.
Proof.
  unfold init, try_except. rewrite try_body_statements, seq_call_cases.
  destruct (Py.index "/" address) as [index|e].
  2:{ cbn [printed obj]. apply to_text_unset. now left. }
  destruct (run_stops (assignments address index) fresh) as [k [o [Hk [Hr Hn]]]].
  change (List.length (assignments address index)) with 10%nat in Hk.
  pose proof (populated_prefix address index k o Hk Hr) as P.
  destruct (List.nth_error (assignments address index) k) as [s|] eqn:En.
  - destruct Hn as [o' [e [H1 H2]]].
    assert (o' = o)
      by (apply (failing_assignment_keeps_object address index s o o' e);
          [exact (nth_error_In _ _ En) | exact H1]).
    subst o'. rewrite H2. cbn [printed obj].
    assert (K : (k < 10)%nat).
    { assert (L : (k < List.length (assignments address index))%nat)
        by (apply nth_error_Some; rewrite En; discriminate).
      exact L. }
    destruct (Nat.eq_dec k 9) as [->|K9].
    { exfalso.
      exact (allips_assignment_succeeds address index o s e Hr En H1). }
    apply to_text_unset.
    unfold populated in P.
    do 9 (destruct k as [|k];
          [ cbn [List.repeat app Nat.sub] in P;
            injection P as P0 P1 P2 P3 P4 P5 P6 P7 P8 P9;
            rewrite ?P0, ?P1, ?P2, ?P3, ?P4, ?P5, ?P6, ?P7, ?P8, ?P9;
            cbn [In]; tauto | ]).
    lia.
  - apply nth_error_None in En.
    change (List.length (assignments address index)) with 10%nat in En.
    assert (k = 10%nat) by lia. subst k.
    rewrite Hn. cbn [printed obj]. apply to_text_set. exact P.
Qed.

Lemma print_all_ending (styled : bool) (lines : list string) :
  snd (print_all styled (List.map obj (List.map init lines)))
  = if List.forallb (fun l => silent (init l)) lines
    then Exit else Uncaught AttributeError.
Proof.
  induction lines as [|l lines IH]; [reflexivity|].
  cbn [List.map print_all List.forallb].
  pose proof (to_text_after_init styled l) as T.
  unfold silent at 1.
  destruct (printed (init l)) as [e|].
  - rewrite T. reflexivity.
  - destruct T as [text ->]. cbn [andb].
    destruct (print_all styled (List.map obj (List.map init lines))) as [ev en].
    exact IH.
Qed.

(** X16.  [__str__] returns its text exactly on the objects whose
    constructor printed nothing.  For every input text: when the
    constructor printed no exception, [__str__] returns; when it printed
    one, whichever statement raised it, [__str__] raises AttributeError,
    because at least the broadcast attribute is then unset (the one
    assignment after it, to allips, cannot raise once hostmin and
    hostmax are there).  So a batch read from a pipe ends normally when
    every line is constructed in silence, and with an AttributeError
    that nobody catches as soon as one line is not. *)
Theorem text_needs_silent_constructor (styled : bool) :
  (forall address : string,
     match printed (init address) with
     | None => exists text, snd (to_text styled (obj (init address))) = Ok text
     | Some _ => snd (to_text styled (obj (init address))) = Raise AttributeError
     end)
  /\
  (forall (stdin : string) (argv : list string),
     snd (main false stdin argv)
     = if List.forallb (fun l => silent (init l)) (split nl stdin)
       then Exit else Uncaught AttributeError).
Proof.
  split; [apply to_text_after_init|].
  intros stdin argv.
  unfold main. cbn [negb]. change (0 <? 0) with false. cbv iota. fold nl.
  rewrite report_ending. apply print_all_ending.
Qed.
